(** * Kocha: request dispatch and rendering

    A shallow embedding of the dispatch and rendering code of the Kocha web
    framework (kocha.go, server.go, controller.go, renderer.go, util.go),
    with the properties its specification states about that code.

    Go values are embedded as follows: [string] is a byte string, [int] is
    [Z], a map keyed by strings is a [gmap string _], a nil-able pointer or
    interface is an [option], and a function that may panic returns a
    [res]. *)

From Stdlib Require Import ZArith List String Ascii Bool Lia Btauto ZifyBool.
From stdpp Require Import base strings pretty gmap.

Import ListNotations.
Local Open Scope string_scope.
Local Open Scope Z_scope.

Set Default Proof Using "Type".

(** ** Faults

    A Go computation either returns or panics with a value.  Panic values
    are rendered as the text [fmt] prints for them; a panic value is never
    nil, so that [recover()] returns nil exactly when nothing panicked. *)

Inductive res (A : Type) : Type :=
| Ret (a : A)
| Panic (e : string).

Arguments Ret {A} a.
Arguments Panic {A} e.

Definition res_bind {A B : Type} (x : res A) (f : A -> res B) : res B :=
  match x with
  | Ret a => f a
  | Panic e => Panic e
  end.

Notation "'let!' x ':=' c1 'in' c2" := (res_bind c1 (fun x => c2))
  (at level 10, x name, c1 at level 100, c2 at level 200).

Definition is_panic {A : Type} (x : res A) : bool :=
  match x with
  | Ret _ => false
  | Panic _ => true
  end.

(** [s[i]] with the bounds check of the Go runtime. *)
Definition byte_at (s : string) (i : Z) : res ascii :=
  if (i <? 0) || (Z.of_nat (String.length s) <=? i) then
    Panic "runtime error: index out of range"
  else
    match String.get (Z.to_nat i) s with
    | Some c => Ret c
    | None => Panic "runtime error: index out of range"
    end.

(** ** path.Clean (Go standard library)

    The loop of [path.Clean]: [rest] is [path[r:]], [out] holds the bytes
    written so far ([out.w] is its length) and [dotdot] is the index in
    [out] below which a [..] element must not backtrack. *)

Module Path.

Local Open Scope list_scope.

Definition slash : ascii := "/"%char.
Definition dot : ascii := "."%char.

(** [path[r+k] == c], false when [r+k] is past the end. *)
Definition at_is (rest : list ascii) (k : nat) (c : ascii) : bool :=
  match nth_error rest k with
  | Some d => Ascii.eqb d c
  | None => false
  end.

(** [r+k == n || path[r+k] == '/'] *)
Definition ends_elem (rest : list ascii) (k : nat) : bool :=
  match nth_error rest k with
  | Some d => Ascii.eqb d slash
  | None => true
  end.

(** [out.w--; for out.w > dotdot && out.index(out.w) != '/' { out.w-- }]:
    [backtrack_w out w dotdot] runs the loop from index [w] and returns the
    final [out.w]; the bytes from there on are dropped. *)
Fixpoint backtrack_w (out : list ascii) (w dotdot : nat) : nat :=
  match w with
  | O => O
  | S w' =>
      if (dotdot <? w)%nat && negb (Ascii.eqb (nth w out zero) slash)
      then backtrack_w out w' dotdot
      else w
  end.

Definition backtrack (out : list ascii) (dotdot : nat) : list ascii :=
  firstn (backtrack_w out (length out - 1) dotdot) out.

(** [for ; r < n && path[r] != '/'; r++ { out.append(path[r]) }]: the bytes
    copied and the input left. *)
Fixpoint copy_elem (rest : list ascii) : list ascii * list ascii :=
  match rest with
  | [] => ([], [])
  | c :: rest' =>
      if Ascii.eqb c slash then ([], rest)
      else let '(e, r) := copy_elem rest' in (c :: e, r)
  end.

(** One case of the [switch] per iteration, in the order of the source.
    Every iteration consumes input, so [length rest] iterations suffice
    ([clean_loop_fuel] below). *)
Fixpoint clean_loop (fuel : nat) (rooted : bool) (rest out : list ascii)
    (dotdot : nat) : list ascii :=
  match fuel with
  | O => out
  | S fuel' =>
      match rest with
      | [] => out
      | c :: rest1 =>
          if Ascii.eqb c slash then
            (* empty path element *)
            clean_loop fuel' rooted rest1 out dotdot
          else if Ascii.eqb c dot && ends_elem rest 1 then
            (* . element *)
            clean_loop fuel' rooted rest1 out dotdot
          else if Ascii.eqb c dot && at_is rest 1 dot && ends_elem rest 2 then
            (* .. element: remove to last / *)
            let rest2 := skipn 2 rest in
            if (dotdot <? length out)%nat then
              clean_loop fuel' rooted rest2 (backtrack out dotdot) dotdot
            else if negb rooted then
              let out1 := if (0 <? length out)%nat then out ++ [slash] else out in
              let out2 := out1 ++ [dot; dot] in
              clean_loop fuel' rooted rest2 out2 (length out2)
            else
              clean_loop fuel' rooted rest2 out dotdot
          else
            (* real path element: add slash if needed, copy element *)
            let out1 :=
              if (rooted && negb (length out =? 1)%nat)
                 || (negb rooted && negb (length out =? 0)%nat)
              then out ++ [slash] else out in
            let '(e, rest') := copy_elem rest in
            clean_loop fuel' rooted rest' (out1 ++ e) dotdot
      end
  end.

Definition Clean (path : string) : string :=
  match list_ascii_of_string path with
  | [] => "."
  | (c :: _) as p =>
      let rooted := Ascii.eqb c slash in
      let out :=
        if rooted then clean_loop (length p) true (skipn 1 p) [slash] 1
        else clean_loop (length p) false p [] 0 in
      (* Turn empty string into "." *)
      match out with
      | [] => "."
      | _ => string_of_list_ascii out
      end
  end.

(** [filepath.IsAbs] and [filepath.Join] on a Unix system, where the
    separator is ['/'] and [filepath.FromSlash] is the identity. *)
Definition IsAbs (path : string) : bool := String.prefix "/" path.

(** [strings.Join(elems, "/")] *)
Fixpoint join_slash (elems : list string) : string :=
  match elems with
  | [] => ""
  | [e] => e
  | e :: es => (e ++ "/" ++ join_slash es)%string
  end.

(** [filepath.Join]: the elements from the first one that is not empty
    on, joined and cleaned; the empty string if all are empty. *)
Fixpoint Join (elem : list string) : string :=
  match elem with
  | [] => ""
  | e :: es => if String.eqb e "" then Join es else Clean (join_slash elem)
  end.

End Path.

(** ** util.go *)

Module Util.

(** [normPath]: [path.Clean] drops the trailing slash; it is put back
    unless the result is the root. *)
Definition normPath (p : string) : res string :=
  let result := Path.Clean p in
  let! c := byte_at p (Z.of_nat (String.length p) - 1) in
  if Ascii.eqb c "/" && negb (String.eqb result "/")
  then Ret (result ++ "/")
  else Ret result.

End Util.


(** ** Computations with state

    Go code that mutates its receiver or its locals is a function from the
    state to a result and the new state; the state reached when a panic
    starts unwinding is kept, as the deferred functions see it. *)

Definition M (S A : Type) : Type := S -> res A * S.

Definition mret {S A : Type} (a : A) : M S A := fun s => (Ret a, s).

Definition mpanic {S A : Type} (e : string) : M S A := fun s => (Panic e, s).

Definition mbind {S A B : Type} (m : M S A) (f : A -> M S B) : M S B :=
  fun s =>
    match m s with
    | (Ret a, s1) => f a s1
    | (Panic e, s1) => (Panic e, s1)
    end.

Definition mupd {S : Type} (f : S -> S) : M S unit := fun s => (Ret tt, f s).

Notation "'do' x <- m1 ; m2" := (mbind m1 (fun x => m2))
  (at level 10, x name, m1 at level 100, m2 at level 200,
   format "'[v' 'do'  x  <-  m1 ; '/' m2 ']'").

(** What [recover()] returns in a deferred function. *)
Definition recovered {A : Type} (r : res A) : option string :=
  match r with
  | Ret _ => None
  | Panic e => Some e
  end.

(** [defer func() { ... recover() ... }()] around [body]: the deferred
    function [d] runs when [body] returns or panics and is given the value
    of its call to [recover()].  The panic of [body] is thereby stopped;
    the enclosing function panics only if [d] does. *)
Definition with_defer {S : Type} (body : M S unit)
    (d : option string -> M S unit) : M S unit :=
  fun s => let '(r, s1) := body s in d (recovered r) s1.

(** ** net/http (Go standard library) *)

Module Http.

Definition StatusOK : Z := 200.
Definition StatusMovedPermanently : Z := 301.
Definition StatusFound : Z := 302.
Definition StatusNotFound : Z := 404.
Definition StatusInternalServerError : Z := 500.

Definition statusText : list (Z * string) :=
  [ (100, "Continue"); (101, "Switching Protocols"); (102, "Processing");
    (103, "Early Hints");
    (200, "OK"); (201, "Created"); (202, "Accepted");
    (203, "Non-Authoritative Information"); (204, "No Content");
    (205, "Reset Content"); (206, "Partial Content"); (207, "Multi-Status");
    (208, "Already Reported"); (226, "IM Used");
    (300, "Multiple Choices"); (301, "Moved Permanently"); (302, "Found");
    (303, "See Other"); (304, "Not Modified"); (305, "Use Proxy");
    (307, "Temporary Redirect"); (308, "Permanent Redirect");
    (400, "Bad Request"); (401, "Unauthorized"); (402, "Payment Required");
    (403, "Forbidden"); (404, "Not Found"); (405, "Method Not Allowed");
    (406, "Not Acceptable"); (407, "Proxy Authentication Required");
    (408, "Request Timeout"); (409, "Conflict"); (410, "Gone");
    (411, "Length Required"); (412, "Precondition Failed");
    (413, "Request Entity Too Large"); (414, "Request URI Too Long");
    (415, "Unsupported Media Type");
    (416, "Requested Range Not Satisfiable"); (417, "Expectation Failed");
    (418, "I'm a teapot"); (421, "Misdirected Request");
    (422, "Unprocessable Entity"); (423, "Locked");
    (424, "Failed Dependency"); (425, "Too Early");
    (426, "Upgrade Required"); (428, "Precondition Required");
    (429, "Too Many Requests"); (431, "Request Header Fields Too Large");
    (451, "Unavailable For Legal Reasons");
    (500, "Internal Server Error"); (501, "Not Implemented");
    (502, "Bad Gateway"); (503, "Service Unavailable");
    (504, "Gateway Timeout"); (505, "HTTP Version Not Supported");
    (506, "Variant Also Negotiates"); (507, "Insufficient Storage");
    (508, "Loop Detected"); (510, "Not Extended");
    (511, "Network Authentication Required") ].

Fixpoint assoc (code : Z) (tbl : list (Z * string)) : string :=
  match tbl with
  | [] => ""
  | (k, v) :: tbl' => if (k =? code)%Z then v else assoc code tbl'
  end.

(** [http.StatusText]: the empty string for a code it does not know. *)
Definition StatusText (code : Z) : string := assoc code statusText.

(** An [http.ResponseWriter] as [httptest.ResponseRecorder] observes it:
    [Code] is the status line once it is sent, [Header] the header map and
    [Body] the bytes written. *)
Record ResponseWriter : Type := mkWriter {
  Code : option Z;
  Header : gmap string string;
  Body : string
}.

Definition NewRecorder : ResponseWriter :=
  {| Code := None; Header := ∅; Body := "" |}.

Definition SetHeader (k v : string) (w : ResponseWriter) : ResponseWriter :=
  {| Code := Code w; Header := <[k := v]> (Header w); Body := Body w |}.

(** The status line goes out, unless one has gone out before. *)
Definition sendStatus (code : Z) (w : ResponseWriter) : ResponseWriter :=
  match Code w with
  | Some _ => w
  | None => {| Code := Some code; Header := Header w; Body := Body w |}
  end.

(** [checkWriteHeaderCode] accepts the codes of three digits. *)
Definition validCode (code : Z) : bool := (100 <=? code) && (code <=? 999).

(** [WriteHeader]: only the first call sends a status line, and that call
    panics on a code that [checkWriteHeaderCode] refuses; a later call
    returns at once. *)
Definition WriteHeader (code : Z) (w : ResponseWriter) : res ResponseWriter :=
  match Code w with
  | Some _ => Ret w
  | None =>
      if validCode code then Ret (sendStatus code w)
      else Panic ("invalid WriteHeader code " ++ pretty code)
  end.

(** [Write] sends [200 OK] first if no status line went out yet. *)
Definition Write (b : string) (w : ResponseWriter) : ResponseWriter :=
  let w1 := sendStatus StatusOK w in
  {| Code := Code w1; Header := Header w1; Body := Body w1 ++ b |}.

Definition nl : string := String "010"%char EmptyString.

(** [http.Error]: the content type, the status line, then [error] and a
    newline.  It is called with the codes 404 and 500 only, which
    [WriteHeader] accepts. *)
Definition Error (w : ResponseWriter) (error : string) (code : Z)
    : ResponseWriter :=
  Write (error ++ nl)
    (sendStatus code (SetHeader "Content-Type" "text/plain; charset=utf-8" w)).

Definition NotFound (w : ResponseWriter) : ResponseWriter :=
  Error w "404 page not found" StatusNotFound.

(** The status a client (or the recorder's [Code] field) sees. *)
Definition status (w : ResponseWriter) : Z := default StatusOK (Code w).

(** The calls a [Result] makes on the writer it is given. *)
Inductive WireOp : Type :=
| OpSetHeader (k v : string)
| OpWriteHeader (code : Z)
| OpWrite (b : string).

Definition apply_op (w : ResponseWriter) (op : WireOp) : res ResponseWriter :=
  match op with
  | OpSetHeader k v => Ret (SetHeader k v w)
  | OpWriteHeader code => WriteHeader code w
  | OpWrite b => Ret (Write b w)
  end.

(** The calls in order, up to the first one that panics: the writer as
    they leave it, and that panic. *)
Fixpoint apply_ops (ops : list WireOp) (w : ResponseWriter)
    : ResponseWriter * option string :=
  match ops with
  | [] => (w, None)
  | op :: ops' =>
      match apply_op w op with
      | Ret w1 => apply_ops ops' w1
      | Panic e => (w, Some e)
      end
  end.

End Http.

(** ** controller.go *)

Module Controller.

(** [type mimeTypeFormats map[string]string]; a missing key reads as the
    zero value. *)
Abbreviation mimeTypeFormats := (gmap string string).

Definition MimeTypeFormats : mimeTypeFormats :=
  <["application/json" := "json"]>
  (<["application/xml" := "xml"]>
  (<["text/html" := "html"]>
  (<["text/plain" := "txt"]> ∅))).

Definition Get (m : mimeTypeFormats) (mimeType : string) : string :=
  default "" (m !! mimeType).

(** [Set]; the name is a keyword here. *)
Definition Set_ (m : mimeTypeFormats) (mimeType format : string)
    : mimeTypeFormats :=
  <[mimeType := format]> m.

Definition Del (m : mimeTypeFormats) (mimeType : string) : mimeTypeFormats :=
  delete mimeType m.

(** [type Context map[string]interface{}], with values kept as text. *)
Abbreviation Context := (gmap string string).

Record Response : Type := mkResponse {
  ContentType : string
}.

(** The fields [Render] reads; [Response_] is the field [Response]. *)
Record Controller : Type := mkController {
  Name : string;
  Response_ : Response
}.

Section Render.

(** The template type and the template set of [appConfig], whose code is
    not part of these sources: [TemplateSet.Get] yields nil ([None]) for a
    template it does not have. *)
Context {Template : Type}.

Record Config : Type := mkConfig {
  AppName : string;
  TemplateSet_Get : string -> string -> string -> option Template;
  TemplateSet_Ident : string -> string -> string -> string
}.

Inductive Result : Type :=
| ResultTemplate (t : Template) (ctx : option Context)
| ResultJSON (context : string)
| ResultXML (context : string)
| ResultPlainText (content : string).

(** The global [MimeTypeFormats] and [appConfig] are read by [Render]. *)
Variable formats : mimeTypeFormats.
Variable appConfig : Config.

(** [func (c *Controller) Render(context ...Context) Result]; [ctx] stays
    nil when no argument is given. *)
Definition Render (c : Controller) (context : list Context) : res Result :=
  let! ctx :=
    match context with
    | [] => Ret None
    | [x] => Ret (Some x)
    | _ => Panic "too many arguments"
    end in
  let format := Get formats (ContentType (Response_ c)) in
  if String.eqb format "" then
    Panic ("unknown Content-Type: " ++ ContentType (Response_ c))
  else
    match TemplateSet_Get appConfig (AppName appConfig) (Name c) format with
    | None =>
        Panic ("no such template: "
               ++ TemplateSet_Ident appConfig (AppName appConfig) (Name c) format)
    | Some t => Ret (ResultTemplate t ctx)
    end.

Definition RenderJSON (c : Controller) (context : string) : Result :=
  ResultJSON context.

Definition RenderXML (c : Controller) (context : string) : Result :=
  ResultXML context.

Definition RenderPlainText (c : Controller) (content : string) : Result :=
  ResultPlainText content.

End Render.

Arguments Config : clear implicits.
Arguments Result : clear implicits.

End Controller.

(** ** renderer.go *)

Module Renderer.

(** An [error] result; [None] is nil. *)
Abbreviation error := (option string).

(** [interface{}] values handed to the renderers as data. *)
Inductive Value : Type :=
| VNil
| VData (d : gmap string string)
| VOther (v : string).

Record Response : Type := mkResponse {
  StatusCode : Z;
  ContentType : string;
  Writer : Http.ResponseWriter
}.

Record Context : Type := mkContext {
  Name : string;
  Layout : string;
  Format : string;
  Data : Value;
  Response_ : Response
}.

Definition with_Response (c : Context) (r : Response) : Context :=
  {| Name := Name c; Layout := Layout c; Format := Format c; Data := Data c;
     Response_ := r |}.

Definition with_ContentType (c : Context) (ct : string) : Context :=
  with_Response c
    {| StatusCode := StatusCode (Response_ c); ContentType := ct;
       Writer := Writer (Response_ c) |}.

Definition with_StatusCode (c : Context) (code : Z) : Context :=
  with_Response c
    {| StatusCode := code; ContentType := ContentType (Response_ c);
       Writer := Writer (Response_ c) |}.

Definition with_Writer (c : Context) (w : Http.ResponseWriter) : Context :=
  with_Response c
    {| StatusCode := StatusCode (Response_ c);
       ContentType := ContentType (Response_ c); Writer := w |}.

Definition with_Name (c : Context) (n : string) : Context :=
  {| Name := n; Layout := Layout c; Format := Format c; Data := Data c;
     Response_ := Response_ c |}.

Definition with_Format (c : Context) (f : string) : Context :=
  {| Name := Name c; Layout := Layout c; Format := f; Data := Data c;
     Response_ := Response_ c |}.

Definition with_Data (c : Context) (d : Value) : Context :=
  {| Name := Name c; Layout := Layout c; Format := Format c; Data := d;
     Response_ := Response_ c |}.

(** A template is what [Execute] makes of a context: the bytes or an
    error. *)
Record Template : Type := mkTemplate {
  Execute : Context -> string + string
}.

(** A value of the resource set: a string, a byte slice or something
    else. *)
Inductive Resource : Type :=
| RString (b : string)
| RBytes (b : string)
| ROther.

(** What [c.App] gives the renderers: the configuration, the template set
    ([Template.Get] returns the template or an error) and the resource
    set. *)
Record Application : Type := mkApplication {
  AppName : string;
  AppPath : string;
  Template_Get : string -> string -> string -> string -> Template + string;
  ResourceSet : gmap string Resource
}.

(** A file of the file system: [os.Stat] succeeds on it, [os.Open] may
    still fail. *)
Record File : Type := mkFile {
  content : string;
  openErr : option string
}.

Definition StaticDir : string := "public".

Section Renderers.

Variable formats : gmap string string.
Variable app : Application.
Variable fs : gmap string File.
Variable DetectContentTypeByExt : string -> string.
Variable DetectContentTypeByBody : string -> string.

(** Modelled from the spec: [Context.setData] is not in the sources.  The
    rules are those of the comment on [Render]: data of the Data type is
    merged into [Context.Data], other data replaces it, nil leaves it. *)
Definition setData (c : Context) (data : Value) : Context :=
  match data with
  | VNil => c
  | VData d =>
      match Data c with
      | VData d0 => with_Data c (VData (d ∪ d0))
      | _ => with_Data c (VData d)
      end
  | VOther v => with_Data c (VOther v)
  end.

(** Modelled from the spec: [Context.setContentTypeIfNotExists] is not in
    the sources.  "If the handler has not explicitly set a response
    content type, default to" the given one. *)
Definition setContentTypeIfNotExists (c : Context) (contentType : string)
    : Context :=
  if String.eqb (ContentType (Response_ c)) "" then with_ContentType c contentType
  else c.

(** Modelled from the spec: [Context.setFormatFromContentTypeIfNotExists]
    is not in the sources.  "The concrete output format is derived from a
    fixed mapping of MIME type to format token", the MIME table; "an
    unrecognized content type is a hard error". *)
Definition setFormatFromContentTypeIfNotExists (c : Context)
    : error * Context :=
  let f := Controller.Get formats (ContentType (Response_ c)) in
  if String.eqb f "" then
    (Some ("kocha: unknown Content-Type: " ++ ContentType (Response_ c)),
     with_Format c f)
  else (None, with_Format c f).

(** Modelled from the spec: [Context.render] is not in the sources.  It
    "writes the resulting bytes with the resolved content type": the
    content type header, the status line, the bytes. *)
Definition render (c : Context) (body : string) : error * Context :=
  let r := Response_ c in
  (None,
   with_Writer c
     (Http.Write body
        (Http.sendStatus (StatusCode r)
           (Http.SetHeader "Content-Type" (ContentType r) (Writer r))))).

(** Modelled from the spec: [errorTemplateName] is not in the sources.
    The comment on [RenderError] names the template of status 500 in
    format xml "errors/500.xml". *)
Definition errorTemplateName (statusCode : Z) : string :=
  "errors/" ++ pretty statusCode.

Definition Render (c : Context) (data : Value) : error * Context :=
  let c := setData c data in
  let c := setContentTypeIfNotExists c "text/html" in
  match setFormatFromContentTypeIfNotExists c with
  | (Some err, c) => (Some err, c)
  | (None, c) =>
      match Template_Get app (AppName app) (Layout c) (Name c) (Format c) with
      | inr err => (Some err, c)
      | inl t =>
          match Execute t c with
          | inr err => (Some err, c)
          | inl buf => render c buf
          end
      end
  end.

Definition RenderText (c : Context) (content : string) : error * Context :=
  let c := setContentTypeIfNotExists c "text/plain" in
  render c content.

Definition RenderError (c : Context) (statusCode : Z) (data : Value)
    : error * Context :=
  let c := setData c data in
  let c := setContentTypeIfNotExists c "text/html" in
  match setFormatFromContentTypeIfNotExists c with
  | (Some err, c) => (Some err, c)
  | (None, c) =>
      let c := with_StatusCode c statusCode in
      let c := with_Name c (errorTemplateName statusCode) in
      match Template_Get app (AppName app) (Layout c) (Name c) (Format c) with
      | inr _ =>
          let c := with_ContentType c "text/plain" in
          render c (Http.StatusText statusCode)
      | inl t =>
          match Execute t c with
          | inr err => (Some err, c)
          | inl buf => render c buf
          end
      end
  end.

(** The tail of [SendFile], once [file] is open. *)
Definition send (c : Context) (path file : string) : error * Context :=
  let c := with_ContentType c (DetectContentTypeByExt path) in
  let c :=
    if String.eqb (ContentType (Response_ c)) ""
    then with_ContentType c (DetectContentTypeByBody file)
    else c in
  render c file.

Definition SendFile (c : Context) (path : string) : error * Context :=
  (* filepath.FromSlash is the identity where the separator is '/' *)
  let file :=
    match ResourceSet app !! path with
    | Some (RString b) => Some b
    | Some (RBytes b) => Some b
    | Some ROther => None
    | None => None
    end in
  match file with
  | Some f => send c path f
  | None =>
      let path :=
        if negb (Path.IsAbs path)
        then Path.Join [AppPath app; StaticDir; path]
        else path in
      match fs !! path with
      | None => RenderError c Http.StatusNotFound VNil
      | Some f =>
          match openErr f with
          | Some err => (Some err, c)
          | None => send c path (content f)
          end
      end
  end.

End Renderers.

End Renderer.

(** ** Log records

    [log.Print] writes a line; [runtime.Stack] is kept as an opaque record;
    [logStackAndError] writes the error and the stack as one record. *)

Inductive LogEntry : Type :=
| LogPrint (msg : string)
| LogStack
| LogError (err : string).

(** ** server.go *)

Module Server.

Record Request : Type := mkRequest {
  Method : string;
  URLPath : string
}.

(** A [Result] is the interface value: what its [Proc] does with the
    writer, and the panic it may end in. *)
Record Result : Type := mkResult {
  Proc : list Http.WireOp * option string
}.

(** A [reflect.Value] returned by [method.Call]. *)
Inductive RValue : Type :=
| VResult (r : Result)
| VOther.

(** The fields of the embedded [Controller] that [handler] sets before
    the call; its [Response] wraps the writer of the request. *)
Record Controller : Type := mkController {
  Name : string;
  Request_ : Request
}.

(** What [dispatch] resolves: the controller type and the bound method
    with its arguments.  The method reaches the writer through the
    [Response] of its controller. *)
Record Target : Type := mkTarget {
  TypeName : string;
  method : Controller -> M Http.ResponseWriter (list RValue)
}.

(** What [handler] itself prints to the standard logger, which is shared
    by all requests, and the writer, which belongs to one. *)
Record World : Type := mkWorld {
  logs : list LogEntry;
  writer : Http.ResponseWriter
}.

Definition log_Print (e : LogEntry) : M World unit :=
  mupd (fun s => {| logs := logs s ++ [e]; writer := writer s |}).

Definition on_writer (f : Http.ResponseWriter -> Http.ResponseWriter)
    : M World unit :=
  mupd (fun s => {| logs := logs s; writer := f (writer s) |}).

(** A call that works on the writer. *)
Definition with_writer {A : Type} (f : M Http.ResponseWriter A) : M World A :=
  fun s =>
    let '(r, w) := f (writer s) in
    (r, {| logs := logs s; writer := w |}).

(** [result[0].Interface().(Result).Proc(writer)] *)
Definition proc_first (result : list RValue) : M World unit :=
  match result with
  | [] => mpanic "runtime error: index out of range"
  | VOther :: _ => mpanic "interface conversion: interface is not kocha.Result"
  | VResult r :: _ =>
      with_writer
        (fun w =>
           match Http.apply_ops (fst (Proc r)) w with
           | (w1, Some e) => (Panic e, w1)
           | (w1, None) =>
               match snd (Proc r) with
               | Some e => (Panic e, w1)
               | None => (Ret tt, w1)
               end
           end)
  end.

Section Handler.

(** The router is not part of these sources; [dispatch] reads the route
    table, which is fixed once the application is built. *)
Variable dispatch : Request -> option Target.

Definition handler (req : Request) : M World unit :=
  match dispatch req with
  | None => on_writer Http.NotFound
  | Some t =>
      with_defer
        (do result <- with_writer
                        (method t {| Name := TypeName t; Request_ := req |}) ;
         proc_first result)
        (fun err =>
           match err with
           | Some e =>
               do _ <- log_Print (LogPrint e) ;
               do _ <- log_Print LogStack ;
               on_writer (fun w => Http.Error w "500 Internal Server Error" 500)
           | None => mret tt
           end)
  end.

(** [handler] on a fresh recorder, as [TestServer] calls it: the
    recorder, and the logger as the request leaves it. *)
Definition serve (lg : list LogEntry) (req : Request)
    : Http.ResponseWriter * list LogEntry :=
  let '(_, s) := handler req {| logs := lg; writer := Http.NewRecorder |} in
  (writer s, logs s).

(** Requests served one after the other: the recorders in order. *)
Fixpoint serve_all (lg : list LogEntry) (reqs : list Request)
    : list Http.ResponseWriter * list LogEntry :=
  match reqs with
  | [] => ([], lg)
  | req :: reqs' =>
      let '(w, lg1) := serve lg req in
      let '(ws, lg2) := serve_all lg1 reqs' in
      (w :: ws, lg2)
  end.

End Handler.

End Server.

(** ** kocha.go *)

Module Kocha.

(** The request as [render] reads it: [multipartErr] is the error of
    [request.ParseMultipartForm], if it is one other than
    [http.ErrNotMultipart]. *)
Record Request : Type := mkRequest {
  Method : string;
  URLPath : string;
  multipartErr : option string
}.

(** The fields of [*Response]; the [http.ResponseWriter] it embeds is the
    [writer] of the [World] below. *)
Record Response : Type := mkResponse {
  StatusCode : Z;
  ContentType : string
}.

(** The fields of a [Controller] value that are its own.  [HasResponse]
    tells whether [Request] and [Response], which [render] assigns
    together, are set or nil; the response and the [Context] map they
    and [Context] point to are in the [World] below. *)
Record Controller : Type := mkController {
  Name : string;
  Layout : string;
  HasResponse : bool
}.

(** What a middleware, an action or the error controller reaches through
    the [*Controller] it is given: the controller, the [Context] map and,
    through [cc.Response], the fields of the response and the
    [http.ResponseWriter] it embeds, which they may write to.  For a
    controller without a response [rsp] and [wr] are zero values, and
    what the callee leaves in them is lost. *)
Record Env : Type := mkEnv {
  ctl : Controller;
  ctx : gmap string string;
  rsp : Response;
  wr : Http.ResponseWriter
}.

(** A [Result] is the interface value: the writes of [Proc(response)] and
    the panic it may end in. *)
Record Result : Type := mkResult {
  Proc : Response -> list Http.WireOp * option string
}.

Inductive RValue : Type :=
| VResult (r : Result)
| VOther.

Record Middleware : Type := mkMiddleware {
  Before : M Env unit;
  After : M Env unit
}.

(** How the controller type embeds [Controller]: as a struct, as a
    pointer, or not at all. *)
Inductive FieldKind : Type :=
| FieldStruct
| FieldPtr
| FieldOther.

(** What [Router.dispatch] resolves: the controller value and the bound
    method with its arguments. *)
Record Target : Type := mkTarget {
  kind : FieldKind;
  TypeName : string;
  method : M Env (list RValue)
}.

Record Config : Type := mkConfig {
  DefaultLayout : string;
  Middlewares : list Middleware;
  MaxClientBodySize : Z
}.

Record Application : Type := mkApplication {
  Config_ : Config;
  Router_dispatch : Request -> option Target
}.

(** A call of a hook, with the middleware whose hook it is. *)
Inductive Call : Type :=
| CallBefore (m : Middleware)
| CallAfter (m : Middleware).

(** The locals of [render] ([cc], [response], [result]) with the
    [Context] map of [cc] and the writer of [response], what [render]
    itself writes to the global logger, and the record of the calls it
    makes to the hooks. *)
Record World : Type := mkWorld {
  cc : option Controller;
  context : gmap string string;
  response : Response;
  writer : Http.ResponseWriter;
  result : list RValue;
  logs : list LogEntry;
  calls : list Call
}.

Definition set_cc (c : option Controller) (w : World) : World :=
  {| cc := c; context := context w; response := response w;
     writer := writer w; result := result w; logs := logs w;
     calls := calls w |}.

Definition set_context (m : gmap string string) (w : World) : World :=
  {| cc := cc w; context := m; response := response w;
     writer := writer w; result := result w; logs := logs w;
     calls := calls w |}.

Definition set_response (r : Response) (w : World) : World :=
  {| cc := cc w; context := context w; response := r;
     writer := writer w; result := result w; logs := logs w;
     calls := calls w |}.

Definition set_writer (wr : Http.ResponseWriter) (w : World) : World :=
  {| cc := cc w; context := context w; response := response w;
     writer := wr; result := result w; logs := logs w;
     calls := calls w |}.

Definition set_result (r : list RValue) (w : World) : World :=
  {| cc := cc w; context := context w; response := response w;
     writer := writer w; result := r; logs := logs w;
     calls := calls w |}.

Definition add_log (e : LogEntry) (w : World) : World :=
  {| cc := cc w; context := context w; response := response w;
     writer := writer w; result := result w; logs := logs w ++ [e];
     calls := calls w |}.

Definition add_call (c : Call) (w : World) : World :=
  {| cc := cc w; context := context w; response := response w;
     writer := writer w; result := result w; logs := logs w;
     calls := calls w ++ [c] |}.

Definition nil_dereference : string :=
  "runtime error: invalid memory address or nil pointer dereference".

(** Modelled from the spec: [newResponse] is not in the sources.  A
    response starts with status 200, which [TestServer] expects of an
    action that sets none, and no content type. *)
Definition newResponse : Response :=
  {| StatusCode := Http.StatusOK; ContentType := "" |}.

(** The state in which the body of [render] starts. *)
Definition init (wr : Http.ResponseWriter) (lg : list LogEntry) : World :=
  {| cc := None; context := ∅; response := newResponse; writer := wr;
     result := []; logs := lg; calls := [] |}.

(** What a callee is handed with the controller [c]. *)
Definition env_of (c : Controller) (w : World) : Env :=
  if HasResponse c then
    {| ctl := c; ctx := context w; rsp := response w; wr := writer w |}
  else
    {| ctl := c; ctx := context w;
       rsp := {| StatusCode := 0; ContentType := "" |};
       wr := Http.NewRecorder |}.

(** What the callee has done to the [Context] map and, if [c] has one,
    to the response. *)
Definition absorb (c : Controller) (e : Env) (w : World) : World :=
  let w1 := set_context (ctx e) w in
  if HasResponse c then set_response (rsp e) (set_writer (wr e) w1) else w1.

(** The controller as the callee leaves it; a callee may drop the
    response, and cannot bring back the one of [render]. *)
Definition left_by (c : Controller) (e : Env) : Controller :=
  {| Name := Name (ctl e); Layout := Layout (ctl e);
     HasResponse := HasResponse c && HasResponse (ctl e) |}.

(** A call that is given [cc] and works on what it points to.  [cc] is
    never nil where [render] makes such a call. *)
Definition on_cc {A : Type} (f : M Env A) : M World A :=
  fun w =>
    match cc w with
    | None => (Panic nil_dereference, w)
    | Some c =>
        let '(r, e) := f (env_of c w) in
        (r, set_cc (Some (left_by c e)) (absorb c e w))
    end.

(** A call on a copy of [*cc]: the response and the [Context] map are
    shared with [cc], the fields of the controller are not. *)
Definition on_copy {A : Type} (f : M Env A) : M World A :=
  fun w =>
    match cc w with
    | None => (Panic nil_dereference, w)
    | Some c =>
        let '(r, e) := f (env_of c w) in
        (r, absorb c e w)
    end.

Definition logStackAndError (err : string) : M World unit :=
  mupd (add_log (LogError err)).

(** [for _, m := range app.Config.Middlewares { m.Before(app, cc) }] and
    the same loop over [After]. *)
Fixpoint run_hooks (sel : Middleware -> M Env unit) (mk : Middleware -> Call)
    (ms : list Middleware) : M World unit :=
  match ms with
  | [] => mret tt
  | m :: ms' =>
      do _ <- mupd (add_call (mk m)) ;
      do _ <- on_cc (sel m) ;
      run_hooks sel mk ms'
  end.

(** [response.WriteHeader(response.StatusCode)] *)
Definition write_header : M World unit :=
  fun w =>
    match Http.WriteHeader (StatusCode (response w)) (writer w) with
    | Ret wr1 => (Ret tt, set_writer wr1 w)
    | Panic e => (Panic e, w)
    end.

(** [result[0].Interface().(Result).Proc(response)] *)
Definition proc_first : M World unit :=
  fun w =>
    match result w with
    | [] => (Panic "runtime error: index out of range", w)
    | VOther :: _ =>
        (Panic "interface conversion: interface is not kocha.Result", w)
    | VResult r :: _ =>
        let '(ops, e) := Proc r (response w) in
        let '(wr1, p) := Http.apply_ops ops (writer w) in
        let w1 := set_writer wr1 w in
        match p with
        | Some e1 => (Panic e1, w1)
        | None =>
            match e with
            | Some e => (Panic e, w1)
            | None => (Ret tt, w1)
            end
        end
    end.

Section Render.

(** [NewErrorController(statusCode).Get], whose code is not part of these
    sources, as what it does on a controller that has a response. *)
Variable ErrorController_Get : Z -> M Env Result.

(** Modelled from the spec: [ErrorController.Get] is not in the sources.
    "An error Result is rendered using the application's error-template
    convention", that of [RenderError], which starts from the content
    type of the response of its controller: on a controller whose
    [Response] is nil that is a nil dereference. *)
Definition errorGet (statusCode : Z) : M Env Result :=
  fun e =>
    if HasResponse (ctl e) then ErrorController_Get statusCode e
    else (Panic nil_dereference, e).

Variable app : Application.

(** The body of [render] (kocha.go, lines 175 to 202), from
    [request.Body = ...] to [result = method.Call(args)].  [cc] points to
    a copy of the embedded [Controller] or to a new one, which has no
    request and no response yet when the multipart form is parsed; its
    fields are assigned before the first hook runs.  A controller that
    embeds a struct is called on the copy that
    [ccValue.Set(reflect.ValueOf( *cc))] makes. *)
Definition body (r : Request) (t : Target) : M World unit :=
  match kind t with
  | FieldOther =>
      mpanic "BUG: Controller field must be struct of *kocha.Controller or that pointer"
  | k =>
      do _ <- mupd (set_cc (Some {| Name := ""; Layout := "";
                                    HasResponse := false |})) ;
      match multipartErr r with
      | Some err => mpanic err
      | None =>
          do _ <- mupd (fun w =>
                          set_cc (Some {| Name := TypeName t;
                                          Layout := DefaultLayout (Config_ app);
                                          HasResponse := true |})
                            (set_context ∅ w)) ;
          do _ <- run_hooks Before CallBefore (Middlewares (Config_ app)) ;
          do res <- match k with
                    | FieldStruct => on_copy (method t)
                    | _ => on_cc (method t)
                    end ;
          mupd (set_result res)
      end
  end.

(** [if cc == nil { cc = &Controller{}; cc.Request = request;
    cc.Response = response }] *)
Definition attach : M World unit :=
  fun w =>
    match cc w with
    | None =>
        (Ret tt,
         set_cc (Some {| Name := ""; Layout := ""; HasResponse := true |}) w)
    | Some _ => (Ret tt, w)
    end.

(** The deferred function of [render] (lines 149 to 174), after its own
    [defer]: the block under [if err := recover(); err != nil], which
    puts the Result of the error controller in [result], ... *)
Definition recovery (e : string) : M World unit :=
  do _ <- logStackAndError e ;
  do _ <- attach ;
  do r <- on_cc (errorGet Http.StatusInternalServerError) ;
  mupd (set_result [VResult r]).

(** ... the [After] hooks, ... *)
Definition after_hooks (err : option string) : M World unit :=
  do _ <- match err with
          | Some e => recovery e
          | None => mret tt
          end ;
  run_hooks After CallAfter (Middlewares (Config_ app)).

(** ... and the status line and the Result. *)
Definition deferred (err : option string) : M World unit :=
  do _ <- after_hooks err ;
  do _ <- write_header ;
  proc_first.

(** The innermost deferred function (lines 150 to 156). *)
Definition innermost (err : option string) : M World unit :=
  match err with
  | Some e =>
      do _ <- logStackAndError e ;
      do _ <- mupd (fun w =>
                      set_response
                        {| StatusCode := Http.StatusInternalServerError;
                           ContentType := ContentType (response w) |} w) ;
      (fun w =>
         (Ret tt,
          set_writer
            (Http.Error (writer w) (Http.StatusText (StatusCode (response w)))
               (StatusCode (response w))) w))
  | None => mret tt
  end.

(** [render]: the body under its deferred function, which runs under the
    innermost one.  [wr] is the writer of the request and [lg] the log so
    far. *)
Definition render (wr : Http.ResponseWriter) (lg : list LogEntry)
    (r : Request) (t : Target) : res unit * World :=
  with_defer (body r t)
    (fun err => with_defer (deferred err) innermost)
    (init wr lg).

(** The controller and method [ServeHTTP] puts in place when the router
    finds none: [ErrorController] embeds [*Controller]. *)
Definition notFoundTarget : Target :=
  {| kind := FieldPtr;
     TypeName := "ErrorController";
     method := do r <- errorGet Http.StatusNotFound ; mret [VResult r] |}.

(** [ServeHTTP] (lines 91 to 102). *)
Definition ServeHTTP (wr : Http.ResponseWriter) (lg : list LogEntry)
    (r : Request) : res unit * World :=
  match Router_dispatch app r with
  | None => render wr lg r notFoundTarget
  | Some t => render wr lg r t
  end.

End Render.

End Kocha.

(** ** Predicates on paths *)

Module PathSpec.
Import Path.
Local Open Scope list_scope.

(** Two slashes in a row. *)
Fixpoint has_dslash (l : list ascii) : bool :=
  match l with
  | [] => false
  | c :: t =>
      (Ascii.eqb c slash
       && match t with d :: _ => Ascii.eqb d slash | [] => false end)
      || has_dslash t
  end.

Fixpoint ends_slash (l : list ascii) : bool :=
  match l with
  | [] => false
  | c :: t => match t with [] => Ascii.eqb c slash | _ => ends_slash t end
  end.

Definition starts_slash (l : list ascii) : bool :=
  match l with
  | c :: _ => Ascii.eqb c slash
  | [] => false
  end.

(** What the loop of [Clean] keeps true of its buffer. *)
Definition buffer_ok (rooted : bool) (out : list ascii) (dotdot : nat) : Prop :=
  has_dslash out = false
  /\ (ends_slash out = true -> rooted = true /\ out = [slash])
  /\ (dotdot <= length out)%nat
  /\ (ends_slash (firstn dotdot out) = true -> rooted = true)
  /\ (rooted = true -> dotdot = 1%nat /\ starts_slash out = true).


(** The elements of a cleaned path.  A name is an element that is kept:
    not empty, without a slash, and neither [.] nor [..]. *)
Definition noslash (e : list ascii) : bool :=
  forallb (fun x => negb (Ascii.eqb x slash)) e.

Definition name_ok (e : list ascii) : Prop :=
  e <> [] /\ noslash e = true /\ e <> [dot] /\ e <> [dot; dot].

(** The elements, joined by slashes. *)
Fixpoint join (elems : list (list ascii)) : list ascii :=
  match elems with
  | [] => []
  | e :: es => match es with [] => e | _ => e ++ slash :: join es end
  end.

(** A path in canonical form: the root, if the path is rooted, then [j]
    elements [..] (none if the path is rooted), then names. *)
Definition canonical_elems (rooted : bool) (j : nat)
    (names : list (list ascii)) : list ascii :=
  (if rooted then [slash] else []) ++ join (repeat [dot; dot] j ++ names).

Definition canonical (rooted : bool) (out : list ascii) : Prop :=
  exists (j : nat) (names : list (list ascii)),
    Forall name_ok names
    /\ (rooted = true -> j = 0%nat)
    /\ out = canonical_elems rooted j names.

Definition Canonical (rooted : bool) (s : string) : Prop :=
  s = "."%string \/ canonical rooted (list_ascii_of_string s).

(** What the loop of [Clean] keeps true of its buffer, in terms of
    elements: the buffer is canonical and [dotdot] is the length of its
    part before the names. *)
Definition buffer_canonical (rooted : bool) (out : list ascii) (dotdot : nat)
    : Prop :=
  exists (j : nat) (names : list (list ascii)),
    Forall name_ok names
    /\ (rooted = true -> j = 0%nat)
    /\ out = canonical_elems rooted j names
    /\ dotdot = length (canonical_elems rooted j []).

(** [strings.Contains] and [strings.HasSuffix] as propositions. *)
Definition Contains (s sub : string) : Prop :=
  exists a b : string, s = (a ++ sub ++ b)%string.

Definition HasSuffix (s suffix : string) : Prop :=
  exists a : string, s = (a ++ suffix)%string.

End PathSpec.

(** ** Resolution of the content type and format *)

Module RenderSpec.
Import Renderer.

(** The content type a renderer works with: the one set, or text/html. *)
Definition resolvedContentType (c : Context) : string :=
  if String.eqb (ContentType (Response_ c)) "" then "text/html"
  else ContentType (Response_ c).

(** The format a renderer works with: the one the MIME table gives for
    that content type; empty if there is none. *)
Definition resolvedFormat (formats : gmap string string) (c : Context) : string :=
  Controller.Get formats (resolvedContentType c).

(** The context in which [RenderError] looks up and executes the error
    template. *)
Definition errorContext (formats : gmap string string) (c : Context)
    (statusCode : Z) (data : Value) : Context :=
  let c := setContentTypeIfNotExists (setData c data) "text/html" in
  let c := snd (setFormatFromContentTypeIfNotExists formats c) in
  with_Name (with_StatusCode c statusCode) (errorTemplateName statusCode).

End RenderSpec.

(** ** A test application

    The fixtures of the examples: the routes and templates of
    [TestServer]. *)

Module Fixture.

(** controller.go: the template set holds [root.html]. *)
Definition templateSet (appName name format : string) : option string :=
  if String.eqb name "root" && String.eqb format "html" then Some "tmpl1"
  else None.

Definition appConfig : Controller.Config string :=
  {| Controller.AppName := "testAppName";
     Controller.TemplateSet_Get := templateSet;
     Controller.TemplateSet_Ident :=
       fun appName name format => appName ++ ":" ++ name ++ "." ++ format |}.

Definition rootController : Controller.Controller :=
  {| Controller.Name := "root";
     Controller.Response_ := {| Controller.ContentType := "text/html" |} |}.

(** renderer.go: an application with the template [root.html] and no
    error templates, a resource and a file of the same absolute name. *)
Definition rootTemplate : Renderer.Template :=
  {| Renderer.Execute := fun _ => inl "tmpl1" |}.

Definition templates (appName layout name format : string)
    : Renderer.Template + string :=
  if String.eqb name "root" && String.eqb format "html" then inl rootTemplate
  else inr ("kocha: template not found: " ++ name ++ "." ++ format).

Definition app : Renderer.Application :=
  {| Renderer.AppName := "testAppName";
     Renderer.AppPath := "/srv/app";
     Renderer.Template_Get := templates;
     Renderer.ResourceSet :=
       <["/srv/app/public/logo.txt" := Renderer.RString "embedded"]> ∅ |}.

Definition fs : gmap string Renderer.File :=
  <["/srv/app/public/logo.txt" :=
      {| Renderer.content := "on disk"; Renderer.openErr := None |}]> ∅.

Definition byExt (path : string) : string := "text/plain".
Definition byBody (body : string) : string := "application/octet-stream".

(** A context as the dispatcher hands it to an action. *)
Definition freshContext : Renderer.Context :=
  {| Renderer.Name := "root";
     Renderer.Layout := "";
     Renderer.Format := "";
     Renderer.Data := Renderer.VNil;
     Renderer.Response_ :=
       {| Renderer.StatusCode := 200;
          Renderer.ContentType := "";
          Renderer.Writer := Http.NewRecorder |} |}.

End Fixture.

(** ** The error controller *)

Module ErrorController.
Import Kocha.

(** Modelled from the spec: the [Proc] methods of the Result types are
    not in the sources.  A text Result writes its content "verbatim". *)
Definition ResultText (content : string) : Result :=
  {| Proc := fun _ => ([Http.OpWrite content], None) |}.

(** Modelled from the spec: a template Result writes the output of the
    template; a template that fails is "a render fault". *)
Definition ResultTemplate (t : res string) : Result :=
  {| Proc := fun _ =>
       match t with
       | Ret b => ([Http.OpWrite b], None)
       | Panic e => ([], Some e)
       end |}.

Section Get.

Variable formats : gmap string string.

(** The error templates by name and format. *)
Variable templates : string -> string -> option (res string).

(** Modelled from the spec: [NewErrorController] and [ErrorController.Get]
    are not in the sources.  The error Result follows the error-rendering
    chain of the spec, as [RenderError] of renderer.go does: the content
    type defaults to text/html, a content type without a format is a
    fault, the status code is set, the template named after the status
    code is looked up and, if there is none, the Result is the reason
    phrase as text/plain.  Nothing is written before the Result runs. *)
Definition Get (statusCode : Z) : M Env Result :=
  fun e =>
    let ct :=
      if String.eqb (ContentType (rsp e)) "" then "text/html"
      else ContentType (rsp e) in
    let format := Controller.Get formats ct in
    if String.eqb format "" then
      (Panic ("unknown Content-Type: " ++ ct),
       {| ctl := ctl e; ctx := ctx e;
          rsp := {| StatusCode := StatusCode (rsp e); ContentType := ct |};
          wr := wr e |})
    else
      let name := "errors/" ++ pretty statusCode in
      let c := {| Name := name; Layout := Layout (ctl e);
                  HasResponse := HasResponse (ctl e) |} in
      match templates name format with
      | Some t =>
          (Ret (ResultTemplate t),
           {| ctl := c; ctx := ctx e;
              rsp := {| StatusCode := statusCode; ContentType := ct |};
              wr := wr e |})
      | None =>
          (Ret (ResultText (Http.StatusText statusCode)),
           {| ctl := c; ctx := ctx e;
              rsp := {| StatusCode := statusCode; ContentType := "text/plain" |};
              wr := wr e |})
      end.

End Get.

End ErrorController.

(** ** Properties of middlewares and of the error controller *)

Module DispatchSpec.
Import Kocha.

(** A call that never faults. *)
Definition returns {S A : Type} (f : M S A) : Prop :=
  forall s, is_panic (fst (f s)) = false.

(** A hook that leaves [Response.StatusCode] as it finds it. *)
Definition keeps_status (f : M Env unit) : Prop :=
  forall e, StatusCode (rsp (snd (f e))) = StatusCode (rsp e).

(** An error controller that, when it returns a Result, has set the
    status code it was made for (as [RenderError] does). *)
Definition sets_status (get : Z -> M Env Result) : Prop :=
  forall code e r e', get code e = (Ret r, e') -> StatusCode (rsp e') = code.

(** What a call through [cc] leaves alone: what [render] has logged,
    [result] and the record of the calls; and [cc] stays set. *)
Definition kept (w w' : World) : Prop :=
  logs w' = logs w
  /\ result w' = result w
  /\ calls w' = calls w
  /\ (cc w <> None -> cc w' <> None).

End DispatchSpec.

(** ** A test application for the dispatcher *)

Module App.
Import Kocha.

Definition with_ctx (m : gmap string string) (e : Env) : Env :=
  {| ctl := ctl e; ctx := m; rsp := rsp e; wr := wr e |}.

Definition with_rsp (r : Response) (e : Env) : Env :=
  {| ctl := ctl e; ctx := ctx e; rsp := r; wr := wr e |}.

Definition with_wr (w : Http.ResponseWriter) (e : Env) : Env :=
  {| ctl := ctl e; ctx := ctx e; rsp := rsp e; wr := w |}.

(** A middleware that opens a session before the action and stores it
    afterwards. *)
Definition session : Middleware :=
  {| Before := fun e => (Ret tt, with_ctx (<["session" := "open"]> (ctx e)) e);
     After := fun e =>
       (Ret tt, with_wr (Http.SetHeader "Set-Cookie" "session=stored" (wr e)) e) |}.

(** A middleware that sets the content type header after the action. *)
Definition contentType : Middleware :=
  {| Before := mret tt;
     After := fun e =>
       (Ret tt,
        with_wr (Http.SetHeader "Content-Type" (ContentType (rsp e)) (wr e)) e) |}.

(** A middleware whose [After] faults. *)
Definition failing : Middleware :=
  {| Before := mret tt; After := mpanic "after failed" |}.

(** A middleware that answers every request with status 503, whatever
    came before. *)
Definition maintenance : Middleware :=
  {| Before := mret tt;
     After := fun e =>
       (Ret tt,
        with_rsp {| StatusCode := 503; ContentType := ContentType (rsp e) |} e) |}.

Definition rootAction : M Env (list RValue) :=
  mret [VResult (ErrorController.ResultText "tmpl1")].

Definition errorAction : M Env (list RValue) := mpanic "panic test".

(** An action that picks a content type without a format and faults. *)
Definition pngAction : M Env (list RValue) :=
  fun e =>
    (Panic "panic test",
     with_rsp {| StatusCode := StatusCode (rsp e); ContentType := "image/png" |} e).

(** An action that starts to write its answer and then faults. *)
Definition partialAction : M Env (list RValue) :=
  fun e => (Panic "panic test", with_wr (Http.Write "partial" (wr e)) e).

Definition dispatch (r : Request) : option Target :=
  if String.eqb (URLPath r) "/" then
    Some {| kind := FieldPtr; TypeName := "Root"; method := rootAction |}
  else if String.eqb (URLPath r) "/error" then
    Some {| kind := FieldPtr; TypeName := "Error"; method := errorAction |}
  else if String.eqb (URLPath r) "/png" then
    Some {| kind := FieldStruct; TypeName := "Png"; method := pngAction |}
  else if String.eqb (URLPath r) "/partial" then
    Some {| kind := FieldPtr; TypeName := "Partial"; method := partialAction |}
  else None.

Definition app (ms : list Middleware) : Application :=
  {| Config_ := {| DefaultLayout := "application"; Middlewares := ms;
                   MaxClientBodySize := 10485760 |};
     Router_dispatch := dispatch |}.

Definition get (path : string) : Request :=
  {| Method := "GET"; URLPath := path; multipartErr := None |}.

(** No error templates, as in the fixture of [TestServer]. *)
Definition ErrorGet : Z -> M Env Result :=
  ErrorController.Get Controller.MimeTypeFormats (fun _ _ => None).

Definition serve (ms : list Middleware) (path : string) : res unit * World :=
  ServeHTTP ErrorGet (app ms) Http.NewRecorder [] (get path).

End App.

(** server.go: the routes of [TestServer] that matter here. *)

Module ServerApp.
Import Server.

Definition text (content : string) : Result :=
  {| Proc := ([Http.OpWrite content], None) |}.

Definition dispatch (r : Request) : option Target :=
  if String.eqb (URLPath r) "/" then
    Some {| TypeName := "Root";
            method := fun _ => mret [VResult (text "tmpl1")] |}
  else if String.eqb (URLPath r) "/error" then
    Some {| TypeName := "Error"; method := fun _ => mpanic "panic test" |}
  else None.

Definition get (path : string) : Request :=
  {| Method := "GET"; URLPath := path |}.

End ServerApp.


(** ** Paths as sequences of elements *)

Module PathElems.
Import Path.
Local Open Scope list_scope.

(** The elements, each after a slash. *)
Definition sep_elems (E : list (list ascii)) : list ascii :=
  concat (map (cons slash) E).

End PathElems.

(** Paths none of whose elements is [..]. *)
Module PathDotDot.
Import Path.
Local Open Scope list_scope.

(** No element of [l] is [..]; [start] tells whether an element starts at
    the head of [l], as it does at the head of a path and after every
    slash.  The test for an element [..] is that of [Clean]. *)
Fixpoint no_dotdot_from (start : bool) (l : list ascii) : bool :=
  match l with
  | [] => true
  | c :: l' =>
      negb (start && Ascii.eqb c dot && at_is l 1 dot && ends_elem l 2)
      && no_dotdot_from (Ascii.eqb c slash) l'
  end.

Definition no_dotdot (path : string) : bool :=
  no_dotdot_from true (list_ascii_of_string path).

End PathDotDot.

(** ** util.go: ToCamelCase and ToSnakeCase *)

(** [unicode.IsUpper], [unicode.IsLower], [unicode.ToUpper] and
    [unicode.ToLower] on the ASCII range, where a rune is a byte and the
    letters are [A] to [Z] and [a] to [z]. *)
Module Unicode.

Definition is_ascii (c : ascii) : bool := (nat_of_ascii c <? 128)%nat.

Definition IsUpper (c : ascii) : bool :=
  (65 <=? nat_of_ascii c)%nat && (nat_of_ascii c <=? 90)%nat.

Definition IsLower (c : ascii) : bool :=
  (97 <=? nat_of_ascii c)%nat && (nat_of_ascii c <=? 122)%nat.

Definition ToUpper (c : ascii) : ascii :=
  if IsLower c then ascii_of_nat (nat_of_ascii c - 32) else c.

Definition ToLower (c : ascii) : ascii :=
  if IsUpper c then ascii_of_nat (nat_of_ascii c + 32) else c.

End Unicode.

(** The two functions on ASCII strings, which identifiers and file names
    of an application are.  On such a string [for _, r := range s] visits
    the bytes one by one and [string(result)] is the sequence of the
    runes; a byte from 0x80 on is part of a longer rune in Go and is not
    covered here. *)
Module Case.
Import Unicode.
Local Open Scope list_scope.

Definition ascii_only (s : string) : Prop :=
  forallb is_ascii (list_ascii_of_string s) = true.

Definition underscore : ascii := "_"%char.

(** The loop of [ToCamelCase]: [upper] and [result] after the runes of
    [s]. *)
Fixpoint camel_loop (s : list ascii) (upper : bool) (result : list ascii)
    : list ascii :=
  match s with
  | [] => result
  | r :: s' =>
      if Ascii.eqb r underscore then camel_loop s' true result
      else if upper then camel_loop s' false (result ++ [ToUpper r])
      else camel_loop s' upper (result ++ [r])
  end.

(** [result[0] = unicode.ToUpper(result[0])] is out of range when every
    rune was an underscore, or there was none. *)
Definition ToCamelCase (s : string) : res string :=
  match camel_loop (list_ascii_of_string s) false [] with
  | [] => Panic "runtime error: index out of range"
  | c :: result => Ret (string_of_list_ascii (ToUpper c :: result))
  end.

(** The loop of [ToSnakeCase] over [s[1:]]. *)
Fixpoint snake_loop (s : list ascii) (result : list ascii) : list ascii :=
  match s with
  | [] => result
  | c :: s' =>
      let result := if IsUpper c then result ++ [underscore] else result in
      snake_loop s' (result ++ [ToLower c])
  end.

(** [s[0]] is out of range on the empty string. *)
Definition ToSnakeCase (s : string) : res string :=
  match list_ascii_of_string s with
  | [] => Panic "runtime error: index out of range"
  | c :: rest => Ret (string_of_list_ascii (snake_loop rest [ToLower c]))
  end.

(** A name in camel case: it does not start with a small letter and has
    no underscore. *)
Definition camel_name (s : string) : bool :=
  match list_ascii_of_string s with
  | [] => false
  | c :: rest =>
      negb (IsLower c)
      && forallb (fun x => negb (Ascii.eqb x underscore)) (c :: rest)
  end.

(** The runes after the first one of a name in snake case: no capital
    letter, and a small letter after every underscore. *)
Fixpoint snake_rest (l : list ascii) : bool :=
  match l with
  | [] => true
  | c :: l' =>
      if Ascii.eqb c underscore then
        match l' with
        | d :: l'' => IsLower d && snake_rest l''
        | [] => false
        end
      else negb (IsUpper c) && snake_rest l'
  end.

Definition snake_name (s : string) : bool :=
  match list_ascii_of_string s with
  | [] => false
  | c :: rest =>
      negb (IsUpper c) && negb (Ascii.eqb c underscore) && snake_rest rest
  end.

End Case.

(** ** More of the test application *)

Module AppMore.
Import Kocha.

(** A middleware whose [Before] faults. *)
Definition guard : Middleware :=
  {| Before := mpanic "access denied"; After := mret tt |}.

(** An action without a return value. *)
Definition emptyAction : M Env (list RValue) := mret [].

(** An action that sets the status code and returns a Result that faults
    after its first write. *)
Definition brokenResult : Result :=
  {| Proc := fun _ => ([Http.OpWrite "partial"], Some "broken pipe") |}.

Definition createdAction : M Env (list RValue) :=
  fun e =>
    (Ret [VResult brokenResult],
     App.with_rsp {| StatusCode := 201; ContentType := ContentType (rsp e) |} e).

(** An action that sets a status code that is none. *)
Definition zeroAction : M Env (list RValue) :=
  fun e =>
    (Ret [VResult (ErrorController.ResultText "tmpl1")],
     App.with_rsp {| StatusCode := 0; ContentType := ContentType (rsp e) |} e).

Definition target (m : M Env (list RValue)) : Target :=
  {| kind := FieldPtr; TypeName := "More"; method := m |}.

(** A controller type that does not embed [Controller]. *)
Definition stray (m : M Env (list RValue)) : Target :=
  {| kind := FieldOther; TypeName := "Stray"; method := m |}.

(** A request whose multipart form does not parse. *)
Definition post (path : string) : Request :=
  {| Method := "POST"; URLPath := path;
     multipartErr := Some "multipart: NextPart: EOF" |}.

End AppMore.

(** ** More of the routes of server.go *)

Module ServerMore.
Import Server.

(** A Result that writes and then faults. *)
Definition broken : Result :=
  {| Proc := ([Http.OpWrite "partial"], Some "broken pipe") |}.

Definition dispatch (r : Request) : option Target :=
  if String.eqb (URLPath r) "/broken" then
    Some {| TypeName := "Broken"; method := fun _ => mret [VResult broken] |}
  else if String.eqb (URLPath r) "/none" then
    Some {| TypeName := "None"; method := fun _ => mret [] |}
  else if String.eqb (URLPath r) "/written" then
    (* the action answers by itself and returns nothing *)
    Some {| TypeName := "Written";
            method := fun _ w => (Ret [], Http.Write "done" w) |}
  else ServerApp.dispatch r.

End ServerMore.

(** ** kocha.go: New, validateSessionConfig and SettingEnv *)

Module Setup.

Definition DefaultHttpAddr : string := "127.0.0.1:9100".
Definition DefaultMaxClientBodySize : Z := 1024 * 1024 * 10.

(** What [validateSessionConfig] asks of a middleware: whether its
    dynamic type is [*SessionMiddleware], and then whether the pointer
    is nil, which the type assertion does not test. *)
Inductive Middleware : Type :=
| SessionMiddleware
| NilSessionMiddleware
| OtherMiddleware.

Definition nil_dereference : string :=
  "runtime error: invalid memory address or nil pointer dereference".

Section New.

(** The types and functions that [New] uses and that are not part of
    these sources. *)
Context {SessionStore RouteTable Router Template ResourceSet LoggerConfig
         Logger : Type}.

(** [*SessionConfig]: the field [validateSessionConfig] reads. *)
Record SessionConfig : Type := mkSessionConfig {
  Store : option SessionStore
}.

(** The fields of [Config] that [New] reads or writes. *)
Record Config : Type := mkConfig {
  Addr : string;
  MaxClientBodySize : Z;
  Middlewares : list Middleware;
  Session : option SessionConfig;
  RouteTable_ : RouteTable;
  ResourceSet_ : ResourceSet;
  Logger_ : LoggerConfig
}.

(** [Application]; its [Config] points to the configuration that was
    passed in, which is the [config] of the [World]. *)
Record Application : Type := mkApplication {
  Router_ : option Router;
  Template_ : option Template;
  AppResourceSet : option ResourceSet
}.

(** The configuration that [config] points to, the application that
    [New] builds and the global [Log]. *)
Record World : Type := mkWorld {
  config : Config;
  app : Application;
  Log : option Logger
}.

Definition set_config (c : Config) (w : World) : World :=
  {| config := c; app := app w; Log := Log w |}.

Definition set_app (a : Application) (w : World) : World :=
  {| config := config w; app := a; Log := Log w |}.

Definition set_Log (l : Logger) (w : World) : World :=
  {| config := config w; app := app w; Log := Some l |}.

Definition with_Addr (c : Config) (a : string) : Config :=
  {| Addr := a; MaxClientBodySize := MaxClientBodySize c;
     Middlewares := Middlewares c; Session := Session c;
     RouteTable_ := RouteTable_ c; ResourceSet_ := ResourceSet_ c;
     Logger_ := Logger_ c |}.

Definition with_MaxClientBodySize (c : Config) (n : Z) : Config :=
  {| Addr := Addr c; MaxClientBodySize := n;
     Middlewares := Middlewares c; Session := Session c;
     RouteTable_ := RouteTable_ c; ResourceSet_ := ResourceSet_ c;
     Logger_ := Logger_ c |}.

(** [Validate] of [SessionConfig], called on a receiver that may be
    nil. *)
Variable SessionConfig_Validate : option SessionConfig -> res (option string).

(** [RouteTable.buildRouter] and [newTemplate(app).build], each with its
    result or its error, and [initLogger]. *)
Variable RouteTable_buildRouter : RouteTable -> Router + string.
Variable newTemplate_build : Config -> Application -> Template + string.
Variable initLogger : LoggerConfig -> Logger.

(** The loop of [validateSessionConfig]: the first [*SessionMiddleware]
    decides.  Both error messages are made from [*middleware], which is
    a nil dereference if the pointer is nil. *)
Fixpoint validate_loop (c : Config) (ms : list Middleware)
    : res (option string) :=
  match ms with
  | [] => SessionConfig_Validate (Session c)
  | SessionMiddleware :: _ =>
      match Session c with
      | None =>
          Ret (Some "Because *kocha.Config is nil, kocha.SessionMiddleware cannot be used")
      | Some s =>
          match Store s with
          | None =>
              Ret (Some "Because kocha.Config.Store is nil, kocha.SessionMiddleware cannot be used")
          | Some _ => Ret None
          end
      end
  | NilSessionMiddleware :: _ =>
      match Session c with
      | None => Panic nil_dereference
      | Some s =>
          match Store s with
          | None => Panic nil_dereference
          | Some _ => Ret None
          end
      end
  | OtherMiddleware :: ms' => validate_loop c ms'
  end.

Definition validateSessionConfig : M World (option string) :=
  fun w => (validate_loop (config w) (Middlewares (config w)), w).

Definition buildRouter : M World (option string) :=
  fun w =>
    match RouteTable_buildRouter (RouteTable_ (config w)) with
    | inr err => (Ret (Some err), w)
    | inl router =>
        (Ret None,
         set_app {| Router_ := Some router; Template_ := Template_ (app w);
                    AppResourceSet := AppResourceSet (app w) |} w)
    end.

Definition buildResourceSet : M World (option string) :=
  fun w =>
    (Ret None,
     set_app {| Router_ := Router_ (app w); Template_ := Template_ (app w);
                AppResourceSet := Some (ResourceSet_ (config w)) |} w).

Definition buildTemplate : M World (option string) :=
  fun w =>
    match newTemplate_build (config w) (app w) with
    | inr err => (Ret (Some err), w)
    | inl t =>
        (Ret None,
         set_app {| Router_ := Router_ (app w); Template_ := Some t;
                    AppResourceSet := AppResourceSet (app w) |} w)
    end.

(** [New]: the application, or the error.  The application starts with
    its [Config] alone. *)
Definition New : M World (Application + string) :=
  do _ <- mupd (set_app {| Router_ := None; Template_ := None;
                           AppResourceSet := None |}) ;
  do _ <- mupd (fun w =>
                  if String.eqb (Addr (config w)) ""
                  then set_config (with_Addr (config w) DefaultHttpAddr) w
                  else w) ;
  do _ <- mupd (fun w =>
                  if MaxClientBodySize (config w) <? 1
                  then set_config
                         (with_MaxClientBodySize (config w)
                            DefaultMaxClientBodySize) w
                  else w) ;
  do err <- validateSessionConfig ;
  match err with
  | Some e => mret (inr e)
  | None =>
      do err <- buildResourceSet ;
      match err with
      | Some e => mret (inr e)
      | None =>
          do err <- buildTemplate ;
          match err with
          | Some e => mret (inr e)
          | None =>
              do err <- buildRouter ;
              match err with
              | Some e => mret (inr e)
              | None =>
                  do _ <- mupd (fun w => set_Log (initLogger (Logger_ (config w))) w) ;
                  fun w => (Ret (inl (app w)), w)
              end
          end
      end
  end.

End New.

Arguments SessionConfig : clear implicits.
Arguments Config : clear implicits.
Arguments Application : clear implicits.
Arguments World : clear implicits.

(** The environment of the process.  [os.Getenv] reads a variable that is
    not set as the empty string; [os.Setenv] fails, and sets nothing, on
    a name or a value that the system does not accept. *)
Section Env.

Variable setenv_ok : string -> string -> bool.

Definition Getenv (env : gmap string string) (key : string) : string :=
  default "" (env !! key).

Definition Setenv (env : gmap string string) (key value : string)
    : gmap string string :=
  if setenv_ok key value then <[key := value]> env else env.

(** [SettingEnv]; the error of [os.Setenv] is dropped. *)
Definition SettingEnv (key def : string) : M (gmap string string) string :=
  fun env =>
    let v := Getenv env key in
    if negb (String.eqb v "") then (Ret v, env)
    else (Ret def, Setenv env key def).

End Env.

End Setup.

Module SetupSpec.
Import Setup.

(** The first middleware of the type [*SessionMiddleware], if any. *)
Fixpoint first_session (ms : list Middleware) : option Middleware :=
  match ms with
  | [] => None
  | OtherMiddleware :: ms' => first_session ms'
  | m :: _ => Some m
  end.

End SetupSpec.

(** A configuration for the examples: the session middleware comes
    second, and there is no session configuration. *)
Module SetupFixture.
Import Setup.

Definition config : Config string unit unit unit :=
  {| Addr := ""; MaxClientBodySize := 0;
     Middlewares := [OtherMiddleware; SessionMiddleware];
     Session := None;
     RouteTable_ := tt; ResourceSet_ := tt; Logger_ := tt |}.

Definition world : World string unit unit unit unit unit unit :=
  {| Setup.config := config;
     app := {| Router_ := None; Template_ := None; AppResourceSet := None |};
     Log := None |}.

Definition Validate (s : option (SessionConfig string)) : res (option string) :=
  Ret None.

Definition New : M (World string unit unit unit unit unit unit)
                   (Application unit unit unit + string) :=
  Setup.New Validate (fun _ => inl tt) (fun _ _ => inl tt) (fun _ => tt).

(** What [os.Setenv] accepts on Unix: a name that is not empty and has
    no [=] and no NUL, and a value without NUL. *)
Definition setenv_ok (key value : string) : bool :=
  negb (String.eqb key "")
  && forallb (fun c => negb (Ascii.eqb c "=") && negb (Ascii.eqb c zero))
       (list_ascii_of_string key)
  && forallb (fun c => negb (Ascii.eqb c zero)) (list_ascii_of_string value).

(** The same configuration with a nil pointer for the session
    middleware. *)
Definition nil_world : World string unit unit unit unit unit unit :=
  {| Setup.config :=
       {| Addr := ""; MaxClientBodySize := 0;
          Middlewares := [OtherMiddleware; NilSessionMiddleware];
          Session := None;
          RouteTable_ := tt; ResourceSet_ := tt; Logger_ := tt |};
     app := {| Router_ := None; Template_ := None; AppResourceSet := None |};
     Log := None |}.

End SetupFixture.

(** ** util.go: CopyTemplate, detectConflict and confirmOverwrite *)

Module Scaffold.
Local Open Scope list_scope.

(** How a call ends: it returns, it panics with a [kocha.Error] (the
    usage of its [usager] and the message, as [PanicOnError] builds it),
    or it panics with another value. *)
Inductive outcome (A : Type) : Type :=
| Done (a : A)
| Abort (usage message : string)
| Fault (e : string).

Arguments Done {A} a.
Arguments Abort {A} usage message.
Arguments Fault {A} e.

(** What goes to the standard output: the prompt of [confirmOverwrite]
    and the status lines of [PrintIdentical] and the like, by the message
    and the path they print. *)
Inductive Event : Type :=
| Prompt (dstPath : string)
| Status (message path : string).

(** The file system and the standard output. *)
Record World : Type := mkWorld {
  fs : gmap string Renderer.File;
  stdout : list Event
}.

Definition G (A : Type) : Type := World -> outcome A * World.

Definition gret {A : Type} (a : A) : G A := fun w => (Done a, w).

Definition gbind {A B : Type} (m : G A) (f : A -> G B) : G B :=
  fun w =>
    match m w with
    | (Done a, w1) => f a w1
    | (Abort u e, w1) => (Abort u e, w1)
    | (Fault e, w1) => (Fault e, w1)
    end.

Definition print (e : Event) : G unit :=
  fun w => (Done tt, {| fs := fs w; stdout := stdout w ++ [e] |}).

(** [PanicOnError(usager, format, a...)] *)
Definition PanicOnError {A : Type} (usage message : string) : G A :=
  fun w => (Abort usage message, w).

Definition PrintIdentical (path : string) : G unit := print (Status "identical" path).
Definition PrintConflict (path : string) : G unit := print (Status "conflict" path).
Definition PrintSkip (path : string) : G unit := print (Status "skip" path).
Definition PrintOverwrite (path : string) : G unit := print (Status "overwrite" path).
Definition PrintCreate (path : string) : G unit := print (Status "create" path).

Inductive fileStatus : Type :=
| fileStatusConflict
| fileStatusNoConflict
| fileStatusIdentical.

(** [detectConflict]: [os.Stat] fails on a file that does not exist,
    [ioutil.ReadFile] on one that cannot be opened. *)
Definition detectConflict (usage src dstPath : string) : G fileStatus :=
  fun w =>
    match fs w !! dstPath with
    | None => (Done fileStatusNoConflict, w)
    | Some f =>
        match Renderer.openErr f with
        | Some err => (Abort usage ("abort: failed to read file: " ++ err), w)
        | None =>
            if String.eqb src (Renderer.content f)
            then (Done fileStatusIdentical, w)
            else (Done fileStatusConflict, w)
        end
    end.

(** [unicode.IsSpace] on the ASCII range, and [strings.TrimSpace] and
    [strings.ToUpper] as they are on ASCII strings; on other strings the
    Go functions also trim and map characters beyond that range, which
    these do not. *)
Definition isSpace (c : ascii) : bool :=
  let n := nat_of_ascii c in
  ((9 <=? n) && (n <=? 13))%nat || (n =? 32)%nat.

Fixpoint trim_left (l : list ascii) : list ascii :=
  match l with
  | c :: l' => if isSpace c then trim_left l' else l
  | [] => []
  end.

Definition TrimSpace (s : string) : string :=
  string_of_list_ascii
    (rev (trim_left (rev (trim_left (list_ascii_of_string s))))).

Definition ToUpper (s : string) : string :=
  string_of_list_ascii (map Unicode.ToUpper (list_ascii_of_string s)).

(** The [switch] of [confirmOverwrite] on a line of ASCII text: yes, no,
    or ask again. *)
Definition answer (yesno : string) : option bool :=
  let a := ToUpper (TrimSpace yesno) in
  if String.eqb a "" || String.eqb a "YES" || String.eqb a "Y" then Some true
  else if String.eqb a "NO" || String.eqb a "N" then Some false
  else None.

(** [confirmOverwrite]; [stdin] holds the lines that the reader can
    still read, of ASCII text, and at the end of the input [ReadString]
    returns [io.EOF]. *)
Fixpoint confirmOverwrite (dstPath : string) (stdin : list string) : G bool :=
  gbind (print (Prompt dstPath)) (fun _ =>
    match stdin with
    | [] => fun w => (Fault "EOF", w)
    | yesno :: stdin' =>
        match answer yesno with
        | Some b => gret b
        | None => confirmOverwrite dstPath stdin'
        end
    end).

Section CopyTemplate.

(** [template.ParseFiles] on the file at [srcPath] and [Execute], of the
    Go library: the template or the error, and the output or the
    error. *)
Context {Template Data : Type}.
Variable template_ParseFiles : option Renderer.File -> Template + string.
Variable Template_Execute : Template -> Data -> string + string.

(** The errors of [os.Create] and of [io.Copy] on a path, if the system
    raises one; a copy that fails leaves the bytes it gives. *)
Variable os_Create_err : string -> option string.
Variable io_Copy_err : string -> string -> option (string * string).

Definition write (dstPath content : string) : G unit :=
  fun w =>
    (Done tt,
     {| fs := <[dstPath := {| Renderer.content := content;
                              Renderer.openErr := None |}]> (fs w);
        stdout := stdout w |}).

(** The tail of [CopyTemplate] from [os.Create] on. *)
Definition create (usage dstPath bufFrom : string) (printFunc : string -> G unit)
    : G unit :=
  match os_Create_err dstPath with
  | Some err => PanicOnError usage ("abort: failed to create file: " ++ err)
  | None =>
      gbind (write dstPath "") (fun _ =>
      match io_Copy_err dstPath bufFrom with
      | Some (written, err) =>
          gbind (write dstPath written) (fun _ =>
          PanicOnError usage ("abort: failed to output file: " ++ err))
      | None =>
          gbind (write dstPath bufFrom) (fun _ => printFunc dstPath)
      end)
  end.

Definition CopyTemplate (usage srcPath dstPath : string) (data : Data)
    (stdin : list string) : G unit :=
  fun w =>
    match template_ParseFiles (fs w !! srcPath) with
    | inr err =>
        PanicOnError usage ("abort: failed to parse template: " ++ err) w
    | inl tmpl =>
        match Template_Execute tmpl data with
        | inr err =>
            PanicOnError usage ("abort: failed to process template: " ++ err) w
        | inl bufFrom =>
            gbind (detectConflict usage bufFrom dstPath) (fun status =>
              match status with
              | fileStatusConflict =>
                  gbind (PrintConflict dstPath) (fun _ =>
                  gbind (confirmOverwrite dstPath stdin) (fun ok =>
                  if negb ok then PrintSkip dstPath
                  else create usage dstPath bufFrom PrintOverwrite))
              | fileStatusIdentical => PrintIdentical dstPath
              | fileStatusNoConflict =>
                  create usage dstPath bufFrom PrintCreate
              end) w
        end
    end.

End CopyTemplate.

(** The first line that [confirmOverwrite] takes as an answer. *)
Fixpoint first_answer (stdin : list string) : option bool :=
  match stdin with
  | [] => None
  | yesno :: stdin' =>
      match answer yesno with
      | Some b => Some b
      | None => first_answer stdin'
      end
  end.

End Scaffold.

(** A file system for the examples: a template and a file that a
    generator would overwrite; the template engine pastes the data after
    the text of the template. *)
Module ScaffoldFixture.
Import Scaffold.

Definition ParseFiles (f : option Renderer.File) : string + string :=
  match f with
  | Some file => inl (Renderer.content file)
  | None => inr "no such file or directory"
  end.

Definition Execute (tmpl data : string) : string + string := inl (tmpl ++ data).

Definition file (content : string) : Renderer.File :=
  {| Renderer.content := content; Renderer.openErr := None |}.

Definition world : World :=
  {| fs := <["skeleton/view.html" := file "<h1>"]>
           (<["app/view/user.html" := file "<h2>old"]> ∅);
     stdout := [] |}.

Definition CopyTemplate (stdin : list string) : G unit :=
  Scaffold.CopyTemplate ParseFiles Execute (fun _ => None) (fun _ _ => None)
    "controller NAME" "skeleton/view.html" "app/view/user.html" "User" stdin.

End ScaffoldFixture.

(** ** kocha/generator/controller.go: findRouteASTs and isRouteDefined *)

Module RouteAST.
Local Open Scope list_scope.

(** The expressions of go/ast that the two functions tell apart; the
    selector of a [SelectorExpr] is always an identifier and is kept by
    its name. *)
#[warnings="-register-all"] Inductive Expr : Type :=
| Ident (Name : string)
| CompositeLit (Type_ : option Expr) (Elts : list Expr)
| KeyValueExpr (Key Value : Expr)
| UnaryExpr (X : Expr)
| SelectorExpr (X : Expr) (Sel : string)
| BasicLit (Value : string).

(** [*ast.CompositeLit]: the type, which may be nil, and the elements. *)
Definition CompositeLit_ : Type := option Expr * list Expr.

(** [findRouteASTs]: the elements that are composite literals. *)
Fixpoint findRouteASTs_loop (elts : list Expr) (routeASTs : list CompositeLit_)
    : list CompositeLit_ :=
  match elts with
  | [] => routeASTs
  | c :: elts' =>
      match c with
      | CompositeLit t es => findRouteASTs_loop elts' (routeASTs ++ [(t, es)])
      | _ => findRouteASTs_loop elts' routeASTs
      end
  end.

Definition findRouteASTs (clit : CompositeLit_) : list CompositeLit_ :=
  findRouteASTs_loop (snd clit) [].

(** The body of the inner loop of [isRouteDefined] on one element:
    [true] for [return true], [false] for the next element.  The two type
    assertions without [ok] fault on another type. *)
Definition route_elt (elt : Expr) (routeStructName : string) : res bool :=
  match elt with
  | KeyValueExpr key value =>
      match key with
      | Ident name =>
          if negb (String.eqb name "Controller") then Ret false
          else
            match value with
            | UnaryExpr (CompositeLit (Some (SelectorExpr x sel)) _) =>
                match x with
                | Ident n =>
                    Ret (String.eqb n "controller"
                         && String.eqb sel routeStructName)
                | _ => Panic "interface conversion: ast.Expr is not *ast.Ident"
                end
            | _ => Ret false
            end
      | _ => Panic "interface conversion: ast.Expr is not *ast.Ident"
      end
  | _ => Ret false
  end.

Fixpoint elts_loop (elts : list Expr) (routeStructName : string) : res bool :=
  match elts with
  | [] => Ret false
  | elt :: elts' =>
      let! found := route_elt elt routeStructName in
      if found then Ret true else elts_loop elts' routeStructName
  end.

Fixpoint isRouteDefined (routeASTs : list CompositeLit_)
    (routeStructName : string) : res bool :=
  match routeASTs with
  | [] => Ret false
  | a :: routeASTs' =>
      let! found := elts_loop (snd a) routeStructName in
      if found then Ret true else isRouteDefined routeASTs' routeStructName
  end.

(** The element [Controller: &controller.<name>{...}] of a route. *)
Definition controller_elt (routeStructName : string) (elts : list Expr) : Expr :=
  KeyValueExpr (Ident "Controller")
    (UnaryExpr
       (CompositeLit (Some (SelectorExpr (Ident "controller") routeStructName))
          elts)).

(** The syntax tree of the route that [addRouteToFile] writes (lines 98
    to 102). *)
Definition new_route (routeName routeStructName : string) : CompositeLit_ :=
  (None,
   [KeyValueExpr (Ident "Name") (BasicLit routeName);
    KeyValueExpr (Ident "Path") (BasicLit ("/" ++ routeName));
    controller_elt routeStructName []]).



End RouteAST.

(** * Properties

    ** path.Clean and normPath *)

Section PathFacts.

Import Path PathSpec.
Local Open Scope list_scope.
Local Open Scope nat_scope.

Lemma copy_elem_length (rest : list ascii) :
  length (snd (copy_elem rest)) <= length rest.
Proof.
  induction rest as [|c rest IH]; simpl; [lia|].
  destruct (Ascii.eqb c slash); simpl; [lia|].
  destruct (copy_elem rest) as [e r]; simpl in *; lia.
Qed.

Lemma copy_elem_consumes (c : ascii) (rest : list ascii) :
  Ascii.eqb c slash = false ->
  length (snd (copy_elem (c :: rest))) <= length rest.
Proof.
  intros Hc; simpl; rewrite Hc.
  pose proof (copy_elem_length rest) as H.
  destruct (copy_elem rest) as [e r]; simpl in *; lia.
Qed.

(** Fuel beyond the length of the input is never used. *)
Lemma clean_loop_fuel (f1 f2 : nat) :
  forall (rooted : bool) (rest out : list ascii) (dotdot : nat),
    length rest <= f1 -> length rest <= f2 ->
    clean_loop f1 rooted rest out dotdot = clean_loop f2 rooted rest out dotdot.
Proof.
  revert f2; induction f1 as [|f1 IH]; intros f2 rooted rest out dotdot H1 H2.
  - destruct rest; [|simpl in H1; lia]. destruct f2; reflexivity.
  - destruct rest as [|c rest1]; [destruct f2; reflexivity|].
    destruct f2 as [|f2]; [simpl in H2; lia|].
    simpl in H1, H2.
    cbn [clean_loop].
    destruct (Ascii.eqb c slash) eqn:Hs; [apply IH; lia|].
    destruct (Ascii.eqb c dot && ends_elem (c :: rest1) 1); [apply IH; lia|].
    assert (Hsk : length (skipn 2 (c :: rest1)) <= length rest1).
    { cbn [skipn]. rewrite length_skipn. lia. }
    destruct (Ascii.eqb c dot && at_is (c :: rest1) 1 dot && ends_elem (c :: rest1) 2).
    + destruct (dotdot <? length out); [apply IH; lia|].
      destruct (negb rooted); apply IH; lia.
    + pose proof (copy_elem_consumes c rest1 Hs) as Hc.
      destruct (copy_elem (c :: rest1)) as [e r]; simpl in Hc.
      apply IH; lia.
Qed.

Lemma has_dslash_app (l k : list ascii) :
  has_dslash (l ++ k)
  = has_dslash l || has_dslash k || (ends_slash l && starts_slash k).
Proof.
  induction l as [|c l IH]; simpl.
  - btauto.
  - rewrite IH. destruct l as [|d l]; simpl.
    + destruct k as [|d k]; simpl; btauto.
    + btauto.
Qed.

Lemma ends_slash_app (l k : list ascii) :
  k <> [] -> ends_slash (l ++ k) = ends_slash k.
Proof.
  intros Hk. induction l as [|c l IH]; simpl; [reflexivity|].
  destruct (l ++ k) eqn:E; [|exact IH].
  apply app_eq_nil in E. tauto.
Qed.

Lemma ends_slash_snoc (l : list ascii) (c : ascii) :
  ends_slash (l ++ [c]) = Ascii.eqb c slash.
Proof. rewrite ends_slash_app by discriminate. reflexivity. Qed.

Lemma copy_elem_noslash (rest : list ascii) :
  forallb (fun x => negb (Ascii.eqb x slash)) (fst (copy_elem rest)) = true.
Proof.
  induction rest as [|c rest IH]; simpl; [reflexivity|].
  destruct (Ascii.eqb c slash) eqn:E; simpl; [reflexivity|].
  destruct (copy_elem rest) as [e r]; simpl in *. now rewrite E.
Qed.

Lemma noslash_facts (e : list ascii) :
  forallb (fun x => negb (Ascii.eqb x slash)) e = true ->
  has_dslash e = false /\ ends_slash e = false /\ starts_slash e = false.
Proof.
  induction e as [|c e IH]; simpl; [tauto|].
  intros H. apply andb_true_iff in H as [Hc He].
  apply negb_true_iff in Hc. rewrite Hc. simpl.
  destruct (IH He) as (H1 & H2 & _).
  repeat split; try assumption.
  destruct e; [reflexivity|assumption].
Qed.

Lemma copy_elem_nonempty (c : ascii) (rest : list ascii) :
  Ascii.eqb c slash = false -> fst (copy_elem (c :: rest)) <> [].
Proof.
  intros H. simpl. rewrite H. destruct (copy_elem rest). discriminate.
Qed.

Lemma backtrack_w_spec (out : list ascii) (dotdot : nat) (w : nat) :
  dotdot <= w ->
  let w' := backtrack_w out w dotdot in
  dotdot <= w' <= w /\ (w' = dotdot \/ Ascii.eqb (nth w' out zero) slash = true).
Proof.
  induction w as [|w IH]; intros Hd; simpl.
  - split; [lia|left; lia].
  - destruct (dotdot <? S w) eqn:Hlt; simpl.
    + apply Nat.ltb_lt in Hlt.
      destruct (Ascii.eqb (nth (S w) out zero) slash) eqn:Hs; simpl.
      * split; [lia|right; exact Hs].
      * destruct IH as [Hb Hc]; [lia|]. split; [lia|exact Hc].
    + apply Nat.ltb_ge in Hlt. split; [lia|left; lia].
Qed.

Lemma starts_slash_skipn (out : list ascii) (w : nat) :
  w < length out -> starts_slash (skipn w out) = Ascii.eqb (nth w out zero) slash.
Proof.
  revert w; induction out as [|c out IH]; intros w Hw; simpl in Hw; [lia|].
  destruct w as [|w]; simpl; [reflexivity|]. apply IH. lia.
Qed.

Lemma has_dslash_split (out : list ascii) (w : nat) :
  has_dslash out = false ->
  has_dslash (firstn w out) = false
  /\ (ends_slash (firstn w out) && starts_slash (skipn w out) = false).
Proof.
  intros H. rewrite <- (firstn_skipn w out) in H.
  rewrite has_dslash_app in H.
  apply orb_false_iff in H as [H1 H2]. apply orb_false_iff in H1 as [H1 _].
  split; assumption.
Qed.

Lemma backtrack_ok (rooted : bool) (out : list ascii) (dotdot : nat) :
  buffer_ok rooted out dotdot -> dotdot < length out ->
  buffer_ok rooted (backtrack out dotdot) dotdot.
Proof.
  intros (H1 & H2 & H3 & H4 & H5) Hlt. unfold backtrack.
  destruct (backtrack_w_spec out dotdot (length out - 1)) as [[Hlo Hhi] Hc]; [lia|].
  set (w := backtrack_w out (length out - 1) dotdot) in *.
  destruct (has_dslash_split out w H1) as [Hd He].
  assert (Hf : firstn dotdot (firstn w out) = firstn dotdot out).
  { rewrite firstn_firstn. f_equal. lia. }
  assert (Hroot : rooted = true -> starts_slash (firstn w out) = true).
  { intros Hr. destruct (H5 Hr) as [Hdd Hs].
    destruct out as [|c out]; [discriminate|].
    destruct w; [lia|]. exact Hs. }
  assert (Hend : ends_slash (firstn w out) = true -> rooted = true /\ w = dotdot).
  { intros Hes. destruct Hc as [Hc|Hc].
    - subst w. rewrite Hc in Hes. split; [apply H4; exact Hes|exact Hc].
    - rewrite Hes in He. simpl in He.
      rewrite starts_slash_skipn in He by lia. congruence. }
  repeat split.
  - exact Hd.
  - apply Hend; assumption.
  - destruct (Hend H) as [Hr Hw]. destruct (H5 Hr) as [Hdd Hs].
    rewrite Hw, Hdd. destruct out as [|c out]; [discriminate|].
    simpl in *. apply Ascii.eqb_eq in Hs. subst c.
    destruct out; reflexivity.
  - rewrite length_firstn. lia.
  - rewrite Hf. exact H4.
  - apply H5; assumption.
  - apply Hroot; assumption.
Qed.

Lemma firstn_app_le (l k : list ascii) (n : nat) :
  n <= length l -> firstn n (l ++ k) = firstn n l.
Proof.
  intros H. rewrite firstn_app.
  replace (n - length l) with 0 by lia. simpl. apply app_nil_r.
Qed.

Lemma starts_slash_app (l k : list ascii) :
  l <> [] -> starts_slash (l ++ k) = starts_slash l.
Proof. destruct l; [congruence|reflexivity]. Qed.

(** Appending [/] (if the buffer is not empty) and [..] where nothing is
    left to backtrack over, on a path that is not rooted. *)
Lemma dotdot_ok (out : list ascii) (dotdot : nat) :
  buffer_ok false out dotdot ->
  let out1 := if 0 <? length out then out ++ [slash] else out in
  buffer_ok false (out1 ++ [dot; dot]) (length (out1 ++ [dot; dot])).
Proof.
  intros (H1 & H2 & H3 & H4 & H5) out1.
  assert (He : ends_slash out = false).
  { destruct (ends_slash out) eqn:E; [|reflexivity].
    destruct (H2 eq_refl); discriminate. }
  assert (Hd : has_dslash out1 = false).
  { subst out1. destruct (0 <? length out); [|exact H1].
    rewrite has_dslash_app, H1, He. reflexivity. }
  repeat split.
  - rewrite has_dslash_app, Hd. simpl. btauto.
  - rewrite ends_slash_app in H by discriminate. discriminate.
  - rewrite ends_slash_app in H by discriminate. discriminate.
  - lia.
  - rewrite firstn_all. rewrite ends_slash_app by discriminate. discriminate.
  - discriminate.
  - discriminate.
Qed.

(** Appending a separator where the source does, and an element without
    slashes. *)
Lemma elem_ok (rooted : bool) (out e : list ascii) (dotdot : nat) :
  buffer_ok rooted out dotdot ->
  e <> [] ->
  forallb (fun x => negb (Ascii.eqb x slash)) e = true ->
  let out1 :=
    if (rooted && negb (length out =? 1)) || (negb rooted && negb (length out =? 0))
    then out ++ [slash] else out in
  buffer_ok rooted (out1 ++ e) dotdot.
Proof.
  intros (H1 & H2 & H3 & H4 & H5) Hne Hns out1.
  destruct (noslash_facts e Hns) as (E1 & E2 & E3).
  assert (Hd : has_dslash out1 = false).
  { subst out1.
    destruct ((rooted && negb (length out =? 1))
              || (negb rooted && negb (length out =? 0))) eqn:Hc; [|exact H1].
    rewrite has_dslash_app, H1. simpl.
    destruct (ends_slash out) eqn:E; [|reflexivity].
    destruct (H2 eq_refl) as [Hr Ho]. subst rooted out. discriminate. }
  assert (Hp : exists k, out1 ++ e = out ++ k).
  { subst out1. destruct ((rooted && negb (length out =? 1))
              || (negb rooted && negb (length out =? 0))).
    - exists ([slash] ++ e). now rewrite <- app_assoc.
    - now exists e. }
  destruct Hp as [k Hk].
  repeat split.
  - rewrite has_dslash_app, Hd, E1, E3. btauto.
  - rewrite ends_slash_app in H by assumption. congruence.
  - rewrite ends_slash_app in H by assumption. congruence.
  - rewrite Hk, length_app. lia.
  - rewrite Hk, firstn_app_le by assumption. exact H4.
  - apply H5; assumption.
  - destruct (H5 H) as [_ Hs]. rewrite Hk.
    rewrite starts_slash_app; [exact Hs|]. destruct out; [discriminate|congruence].
Qed.

Lemma clean_loop_ok (fuel : nat) :
  forall (rooted : bool) (rest out : list ascii) (dotdot : nat),
    buffer_ok rooted out dotdot ->
    exists dotdot', buffer_ok rooted (clean_loop fuel rooted rest out dotdot) dotdot'.
Proof.
  induction fuel as [|fuel IH]; intros rooted rest out dotdot Hok.
  - exists dotdot. exact Hok.
  - destruct rest as [|c rest1]; [exists dotdot; exact Hok|].
    cbn [clean_loop].
    destruct (Ascii.eqb c slash) eqn:Hs; [apply IH; exact Hok|].
    destruct (Ascii.eqb c dot && ends_elem (c :: rest1) 1); [apply IH; exact Hok|].
    destruct (Ascii.eqb c dot && at_is (c :: rest1) 1 dot && ends_elem (c :: rest1) 2).
    + destruct (dotdot <? length out) eqn:Hlt.
      * apply Nat.ltb_lt in Hlt. apply IH. apply backtrack_ok; assumption.
      * destruct rooted; simpl; apply IH; [exact Hok|].
        apply (dotdot_ok out dotdot Hok).
    + pose proof (copy_elem_noslash (c :: rest1)) as Hns.
      pose proof (copy_elem_nonempty c rest1 Hs) as Hne.
      destruct (copy_elem (c :: rest1)) as [e r]. simpl in Hns, Hne.
      apply IH. apply elem_ok; assumption.
Qed.


Lemma Clean_ok (p : string) :
  let l := list_ascii_of_string (Clean p) in
  has_dslash l = false /\ (ends_slash l = true -> Clean p = "/"%string).
Proof.
  unfold Clean. destruct (list_ascii_of_string p) as [|c l0] eqn:Hp.
  - simpl. split; [reflexivity|discriminate].
  - set (out := if Ascii.eqb c slash
                then clean_loop (length (c :: l0)) true (skipn 1 (c :: l0)) [slash] 1
                else clean_loop (length (c :: l0)) false (c :: l0) [] 0).
    assert (Hout : exists rooted dd, buffer_ok rooted out dd).
    { subst out. destruct (Ascii.eqb c slash).
      - exists true.
        apply clean_loop_ok. repeat split; try reflexivity; simpl; lia.
      - exists false.
        apply clean_loop_ok. repeat split; try discriminate; simpl; lia. }
    destruct Hout as (rooted & dd & H1 & H2 & _).
    destruct out as [|d out'] eqn:Eo.
    + simpl. split; [reflexivity|discriminate].
    + rewrite list_ascii_of_string_of_list_ascii. split; [exact H1|].
      intros He. destruct (H2 He) as [_ Ho]. rewrite Ho. reflexivity.
Qed.

Lemma list_ascii_of_string_app (a b : string) :
  list_ascii_of_string (a ++ b)
  = list_ascii_of_string a ++ list_ascii_of_string b.
Proof. induction a as [|c a IH]; simpl; [reflexivity|now rewrite IH]. Qed.

Lemma has_dslash_Contains (s : string) :
  has_dslash (list_ascii_of_string s) = false -> ~ Contains s "//".
Proof.
  intros H (a & b & E). subst s.
  rewrite list_ascii_of_string_app, has_dslash_app in H.
  apply orb_false_iff in H as [H _]. apply orb_false_iff in H as [_ H].
  simpl in H. discriminate.
Qed.

End PathFacts.

(** *** The elements of a cleaned path *)

Section CanonFacts.

Import Path PathSpec.
Local Open Scope list_scope.
Local Open Scope nat_scope.

Lemma join_snoc (es : list (list ascii)) (e : list ascii) :
  join (es ++ [e]) = match es with [] => e | _ => join es ++ slash :: e end.
Proof.
  induction es as [|x es IH]; [reflexivity|].
  cbn [app join]. rewrite IH.
  destruct es as [|y es]; [reflexivity|].
  cbn [app]. rewrite <- app_assoc. reflexivity.
Qed.

Lemma join_nil_inv (es : list (list ascii)) :
  Forall (fun e => e <> []) es -> join es = [] -> es = [].
Proof.
  destruct es as [|e es]; [reflexivity|].
  intros H E. inversion H as [|? ? He _]; subst.
  simpl in E. destruct es; [contradiction|].
  destruct e; [contradiction|discriminate].
Qed.

Lemma elems_nonempty (j : nat) (names : list (list ascii)) :
  Forall name_ok names ->
  Forall (fun e => e <> []) (repeat [dot; dot] j ++ names).
Proof.
  intros H. apply Forall_app. split.
  - induction j as [|j IH]; simpl; constructor; [discriminate|exact IH].
  - induction H as [|e es (He & _) _ IH]; constructor; assumption.
Qed.

(** The test of the source for "a separator is needed" is the test for a
    buffer that holds an element. *)
Lemma needs_slash_spec (rooted : bool) (j : nat) (names : list (list ascii)) :
  Forall name_ok names ->
  let out := canonical_elems rooted j names in
  (rooted && negb (length out =? 1)) || (negb rooted && negb (length out =? 0))
  = match repeat [dot; dot] j ++ names with [] => false | _ => true end.
Proof.
  intros H out. subst out. unfold canonical_elems.
  pose proof (elems_nonempty j names H) as Hne.
  destruct (repeat [dot; dot] j ++ names) as [|e es] eqn:E.
  - destruct rooted; reflexivity.
  - assert (Hj : join (e :: es) <> []).
    { intros Hj. apply join_nil_inv in Hj; [discriminate|exact Hne]. }
    destruct (join (e :: es)) as [|c l]; [contradiction|].
    destruct rooted; simpl; reflexivity.
Qed.


Lemma join_length_le (A B : list (list ascii)) :
  length (join A) <= length (join (A ++ B)).
Proof.
  induction B as [|e B IH] using rev_ind.
  - rewrite app_nil_r. lia.
  - rewrite app_assoc, join_snoc.
    destruct (A ++ B) as [|x l] eqn:E.
    + apply app_eq_nil in E as [-> _]. simpl. lia.
    + rewrite length_app. lia.
Qed.

Lemma join_length_lt (A B : list (list ascii)) :
  B <> [] -> Forall (fun e => e <> []) B ->
  length (join A) < length (join (A ++ B)).
Proof.
  intros Hne HB. destruct (exists_last Hne) as (B' & e & ->).
  apply Forall_app in HB as [_ He]. inversion He as [|? ? He' _]; subst.
  rewrite app_assoc, join_snoc.
  pose proof (join_length_le A B') as Hle.
  destruct (A ++ B') as [|x l] eqn:E.
  - apply app_eq_nil in E as [-> _]. simpl. destruct e; [contradiction|simpl; lia].
  - rewrite length_app. cbn [length]. lia.
Qed.

(** [out.w > dotdot] is the test for a buffer that holds a name. *)
Lemma can_backtrack_spec (rooted : bool) (j : nat) (names : list (list ascii)) :
  Forall name_ok names ->
  (length (canonical_elems rooted j []) <? length (canonical_elems rooted j names))
  = match names with [] => false | _ => true end.
Proof.
  intros H. destruct names as [|e names].
  - apply Nat.ltb_irrefl.
  - apply Nat.ltb_lt. unfold canonical_elems. rewrite !length_app.
    apply Nat.add_lt_mono_l. rewrite app_nil_r. apply join_length_lt; [discriminate|].
    induction H as [|x l (Hx & _) _ IH]; constructor; assumption.
Qed.

Lemma noslash_nth (e : list ascii) (i : nat) :
  noslash e = true -> i < length e -> Ascii.eqb (nth i e zero) slash = false.
Proof.
  revert i; induction e as [|c e IH]; intros i H Hi; simpl in Hi; [lia|].
  simpl in H. apply andb_true_iff in H as [Hc He].
  destruct i as [|i]; simpl; [now apply negb_true_iff|]. apply IH; [exact He|lia].
Qed.

(** The loop that backtracks, from index [a + k] over [k] bytes that are
    no slashes, stops at [a]. *)
Lemma backtrack_w_run (out : list ascii) (dotdot a k : nat) :
  (forall i, a < i <= a + k -> Ascii.eqb (nth i out zero) slash = false) ->
  dotdot <= a ->
  dotdot = a \/ Ascii.eqb (nth a out zero) slash = true ->
  backtrack_w out (a + k) dotdot = a.
Proof.
  intros Hns Hd Hstop. induction k as [|k IH].
  - rewrite Nat.add_0_r. destruct a as [|a]; [reflexivity|]. simpl.
    destruct Hstop as [-> | ->].
    + rewrite Nat.ltb_irrefl. reflexivity.
    + rewrite andb_false_r. reflexivity.
  - replace (a + Datatypes.S k) with (Datatypes.S (a + k)) by lia.
    cbn [backtrack_w].
    assert (Hlt : (dotdot <? Datatypes.S (a + k)) = true) by (apply Nat.ltb_lt; lia).
    rewrite Hlt, (Hns (Datatypes.S (a + k))) by lia. simpl.
    apply IH. intros i Hi. apply Hns. lia.
Qed.

Lemma backtrack_last (A e : list ascii) (dotdot : nat) (sep : bool) :
  e <> [] -> noslash e = true ->
  dotdot <= length A ->
  (sep = false -> dotdot = length A) ->
  backtrack (A ++ (if sep then [slash] else []) ++ e) dotdot = A.
Proof.
  intros He Hns Hd Hsep. unfold backtrack.
  set (out := A ++ (if sep then [slash] else []) ++ e).
  assert (Hw : backtrack_w out (length out - 1) dotdot = length A).
  { destruct sep.
    - replace (length out - 1) with (length A + length e)
        by (subst out; rewrite !length_app; simpl; lia).
      apply backtrack_w_run; [|exact Hd|].
      + intros i Hi. subst out.
        rewrite app_nth2 by lia. simpl.
        destruct (i - length A) as [|m] eqn:Em; [lia|].
        apply noslash_nth; [exact Hns|lia].
      + right. subst out. rewrite app_nth2 by lia.
        rewrite Nat.sub_diag. reflexivity.
    - destruct e as [|c e]; [contradiction|].
      replace (length out - 1) with (length A + length e)
        by (subst out; rewrite !length_app; simpl; lia).
      apply backtrack_w_run; [|exact Hd|left; auto].
      intros i Hi. subst out. rewrite app_nth2 by lia. simpl app.
      apply noslash_nth; [exact Hns|simpl; lia]. }
  rewrite Hw. subst out. rewrite firstn_app, firstn_all, Nat.sub_diag.
  simpl. apply app_nil_r.
Qed.


(** The element the default case copies is a name: the cases before it
    took the empty element, [.] and [..]. *)
Lemma copy_elem_name_ok (c : ascii) (rest1 : list ascii) :
  Ascii.eqb c slash = false ->
  Ascii.eqb c dot && ends_elem (c :: rest1) 1 = false ->
  Ascii.eqb c dot && at_is (c :: rest1) 1 dot && ends_elem (c :: rest1) 2 = false ->
  name_ok (fst (copy_elem (c :: rest1))).
Proof.
  intros Hs H1 H2.
  pose proof (copy_elem_noslash (c :: rest1)) as Hns.
  pose proof (copy_elem_nonempty c rest1 Hs) as Hne.
  repeat split; try assumption.
  - intros E. simpl in E. rewrite Hs in E.
    destruct (copy_elem rest1) as [e r] eqn:Ec. simpl in E.
    inversion E; subst c e. rewrite Ascii.eqb_refl in H1.
    unfold ends_elem in H1. cbn [nth_error andb] in H1.
    destruct rest1 as [|d rest2]; [discriminate H1|]. cbn [copy_elem] in Ec.
    rewrite H1 in Ec. destruct (copy_elem rest2). discriminate Ec.
  - intros E. simpl in E. rewrite Hs in E.
    destruct (copy_elem rest1) as [e r] eqn:Ec. simpl in E.
    inversion E; subst c e. rewrite Ascii.eqb_refl in H2.
    unfold at_is, ends_elem in H2. cbn [nth_error andb] in H2.
    destruct rest1 as [|d rest2]; [discriminate Ec|]. cbn [copy_elem] in Ec.
    destruct (Ascii.eqb d slash) eqn:Ed; [discriminate Ec|].
    destruct (copy_elem rest2) as [e2 r2] eqn:Ec2.
    inversion Ec; subst d r e2. rewrite Ascii.eqb_refl in H2.
    cbn [andb] in H2.
    destruct rest2 as [|d2 rest3]; [discriminate H2|]. cbn [copy_elem] in Ec2.
    rewrite H2 in Ec2. destruct (copy_elem rest3). discriminate Ec2.
Qed.

Lemma canonical_elems_snoc (rooted : bool) (j : nat)
    (names : list (list ascii)) (e : list ascii) :
  canonical_elems rooted j (names ++ [e])
  = canonical_elems rooted j names
    ++ (match repeat [dot; dot] j ++ names with [] => [] | _ => [slash] end)
    ++ e.
Proof.
  unfold canonical_elems. rewrite app_assoc, join_snoc.
  destruct (repeat [dot; dot] j ++ names) as [|x l]; cbn [join app].
  - rewrite app_nil_r. reflexivity.
  - rewrite <- !app_assoc. reflexivity.
Qed.

(** The default case keeps the buffer canonical. *)
Lemma canon_elem (rooted : bool) (out e : list ascii) (dotdot : nat) :
  buffer_canonical rooted out dotdot ->
  name_ok e ->
  let out1 :=
    if (rooted && negb (length out =? 1)) || (negb rooted && negb (length out =? 0))
    then out ++ [slash] else out in
  buffer_canonical rooted (out1 ++ e) dotdot.
Proof.
  intros (j & names & Hn & Hr & -> & ->) He out1.
  exists j, (names ++ [e]). repeat split.
  - apply Forall_app. split; [exact Hn|]. constructor; [exact He|constructor].
  - exact Hr.
  - subst out1. rewrite (needs_slash_spec rooted j names Hn).
    rewrite canonical_elems_snoc.
    destruct (repeat [dot; dot] j ++ names); [reflexivity|].
    rewrite <- app_assoc. reflexivity.
Qed.

(** The case of [..] where the buffer holds a name: the last name goes. *)
Lemma canon_backtrack (rooted : bool) (out : list ascii) (dotdot : nat) :
  buffer_canonical rooted out dotdot ->
  (dotdot <? length out) = true ->
  buffer_canonical rooted (backtrack out dotdot) dotdot.
Proof.
  intros (j & names & Hn & Hr & -> & ->) Hlt.
  rewrite (can_backtrack_spec rooted j names Hn) in Hlt.
  destruct names as [|n0 names0] eqn:En; [discriminate|]. rewrite <- En in *.
  assert (Hne : names <> []) by (rewrite En; discriminate).
  destruct (exists_last Hne) as (names' & e & E). rewrite E in *.
  apply Forall_app in Hn as [Hn' He]. inversion He as [|? ? (He1 & He2 & _) _]; subst.
  exists j, names'. repeat split; try assumption.
  rewrite canonical_elems_snoc.
  pose proof (can_backtrack_spec rooted j names' Hn') as Hb.
  destruct (repeat [dot; dot] j ++ names') as [|x l] eqn:Ex.
  - apply app_eq_nil in Ex as [Ej ->].
    apply (backtrack_last _ e _ false); auto.
  - apply (backtrack_last _ e _ true); auto; [|discriminate].
    destruct names'; [rewrite Nat.ltb_irrefl in Hb; lia|].
    apply Nat.ltb_lt in Hb. lia.
Qed.

(** The case of [..] on a path that is not rooted, where the buffer holds
    no name: one more [..] in front. *)
Lemma canon_dotdot (out : list ascii) (dotdot : nat) :
  buffer_canonical false out dotdot ->
  (dotdot <? length out) = false ->
  let out1 := if 0 <? length out then out ++ [slash] else out in
  buffer_canonical false (out1 ++ [dot; dot]) (length (out1 ++ [dot; dot])).
Proof.
  intros (j & names & Hn & Hr & -> & ->) Hlt out1.
  rewrite (can_backtrack_spec false j names Hn) in Hlt.
  destruct names; [|discriminate].
  exists (Datatypes.S j), []. repeat split; [constructor|discriminate| |].
  - subst out1. unfold canonical_elems. cbn [app]. rewrite !app_nil_r.
    change (repeat [dot; dot] (Datatypes.S j))
      with ([dot; dot] :: repeat [dot; dot] j).
    rewrite repeat_cons, join_snoc.
    destruct (repeat [dot; dot] j) as [|x l] eqn:Ej; [reflexivity|].
    assert (Hj : join (x :: l) <> []).
    { intros Hj. apply join_nil_inv in Hj; [discriminate|].
      rewrite <- Ej. clear. induction j; simpl; constructor; [discriminate|assumption]. }
    destruct (join (x :: l)) as [|c t] eqn:Ejn; [contradiction|].
    cbn [length Nat.ltb Nat.leb]. rewrite <- app_assoc. reflexivity.
  - f_equal. subst out1. unfold canonical_elems. cbn [app]. rewrite !app_nil_r.
    change (repeat [dot; dot] (Datatypes.S j))
      with ([dot; dot] :: repeat [dot; dot] j).
    rewrite repeat_cons, join_snoc.
    destruct (repeat [dot; dot] j) as [|x l] eqn:Ej; [reflexivity|].
    assert (Hj : join (x :: l) <> []).
    { intros Hj. apply join_nil_inv in Hj; [discriminate|].
      rewrite <- Ej. clear. induction j; simpl; constructor; [discriminate|assumption]. }
    destruct (join (x :: l)) as [|c t] eqn:Ejn; [contradiction|].
    cbn [length Nat.ltb Nat.leb]. rewrite <- app_assoc. reflexivity.
Qed.

Lemma clean_loop_canonical (fuel : nat) :
  forall (rooted : bool) (rest out : list ascii) (dotdot : nat),
    buffer_canonical rooted out dotdot ->
    exists dotdot',
      buffer_canonical rooted (clean_loop fuel rooted rest out dotdot) dotdot'.
Proof.
  induction fuel as [|fuel IH]; intros rooted rest out dotdot Hok.
  - exists dotdot. exact Hok.
  - destruct rest as [|c rest1]; [exists dotdot; exact Hok|].
    cbn [clean_loop].
    destruct (Ascii.eqb c slash) eqn:Hs; [apply IH; exact Hok|].
    destruct (Ascii.eqb c dot && ends_elem (c :: rest1) 1) eqn:H1;
      [apply IH; exact Hok|].
    destruct (Ascii.eqb c dot && at_is (c :: rest1) 1 dot
              && ends_elem (c :: rest1) 2) eqn:H2.
    + destruct (dotdot <? length out) eqn:Hlt.
      * apply IH. apply canon_backtrack; assumption.
      * destruct rooted; simpl; apply IH; [exact Hok|].
        apply (canon_dotdot out dotdot Hok Hlt).
    + pose proof (copy_elem_name_ok c rest1 Hs H1 H2) as Hn.
      destruct (copy_elem (c :: rest1)) as [e r]. simpl in Hn.
      apply IH. apply canon_elem; assumption.
Qed.

(** The result of [Clean] is [.] or a path in canonical form: rooted if
    the argument is, without empty elements, without [.] elements, and
    with [..] elements only in front of a path that is not rooted. *)
Lemma Clean_canonical (p : string) :
  Clean p = "."%string
  \/ canonical (IsAbs p) (list_ascii_of_string (Clean p)).
Proof.
  unfold Clean, IsAbs. destruct p as [|c s]; [left; reflexivity|].
  cbn [list_ascii_of_string String.prefix].
  assert (Hr : (if Ascii.ascii_dec "/" c then String.prefix "" s else false)
               = Ascii.eqb c slash).
  { destruct (Ascii.ascii_dec "/" c) as [<-|Hne].
    - destruct s; reflexivity.
    - symmetry. apply Ascii.eqb_neq. unfold slash. congruence. }
  rewrite Hr.
  set (l := c :: list_ascii_of_string s).
  destruct (Ascii.eqb c slash) eqn:Hs.
  - destruct (clean_loop_canonical (length l) true (skipn 1 l) [slash] 1)
      as (dd & j & names & Hn & Hj & Ho & _).
    { exists 0, []. repeat split; constructor. }
    destruct (clean_loop (length l) true (skipn 1 l) [slash] 1) as [|d out'] eqn:Eo.
    + left. reflexivity.
    + right. rewrite list_ascii_of_string_of_list_ascii.
      exists j, names. auto.
  - destruct (clean_loop_canonical (length l) false l [] 0)
      as (dd & j & names & Hn & Hj & Ho & _).
    { exists 0, []. repeat split; constructor. }
    destruct (clean_loop (length l) false l [] 0) as [|d out'] eqn:Eo.
    + left. reflexivity.
    + right. rewrite list_ascii_of_string_of_list_ascii.
      exists j, names. auto.
Qed.

End CanonFacts.

(** *** normPath *)

Section UtilFacts.

Import Path PathSpec Util.

Lemma string_length_app (a b : string) :
  String.length (a ++ b) = (String.length a + String.length b)%nat.
Proof. induction a as [|c a IH]; simpl; [reflexivity|now rewrite IH]. Qed.

Lemma string_get_last (q : string) (c : ascii) :
  String.get (String.length q) (q ++ String c "") = Some c.
Proof. induction q as [|d q IH]; simpl; [reflexivity|exact IH]. Qed.

Lemma string_get_lt (p : string) (n : nat) :
  (n < String.length p)%nat -> exists c, String.get n p = Some c.
Proof.
  revert n; induction p as [|d p IH]; intros n H; simpl in H; [lia|].
  destruct n as [|n]; simpl; [now exists d|]. apply IH. lia.
Qed.

Lemma byte_at_last (q : string) (c : ascii) :
  let p := q ++ String c "" in
  byte_at p (Z.of_nat (String.length p) - 1) = Ret c.
Proof.
  intros p. unfold byte_at, p. rewrite string_length_app.
  cbn [String.length].
  replace (Z.of_nat (String.length q + 1) - 1)%Z
    with (Z.of_nat (String.length q)) by lia.
  rewrite Nat2Z.id, string_get_last.
  destruct (Z.of_nat (String.length q) <? 0)%Z eqn:E1; [lia|].
  destruct (Z.of_nat (String.length q + 1) <=? Z.of_nat (String.length q))%Z eqn:E2; [lia|].
  reflexivity.
Qed.

(** [normPath] on a path with a trailing slash, in closed form. *)
Lemma normPath_slash (q : string) :
  normPath (q ++ "/")
  = Ret (if String.eqb (Clean (q ++ "/")) "/" then "/"
         else Clean (q ++ "/") ++ "/").
Proof.
  unfold normPath. rewrite (byte_at_last q "/"%char). simpl.
  destruct (String.eqb (Clean (q ++ "/")) "/") eqn:E; simpl; [|reflexivity].
  apply String.eqb_eq in E. now rewrite E.
Qed.

(** C7: a path that ends in a slash is normalized to the cleaned path
    with one slash after it, or to the root as it is.  The cleaned path
    is in canonical form (rooted if the path is, no empty elements, no
    [.] elements, [..] elements only in front of a path that is not
    rooted) or it is [.]; the result ends in a slash and has no two
    slashes in a row, so the trailing slash is kept and kept single; the
    root stays the root. *)
Theorem normPath_keeps_trailing_slash :
  (forall q : string,
      exists c r : string,
        normPath (q ++ "/") = Ret r
        /\ Canonical (Path.IsAbs (q ++ "/")) c
        /\ (c = "/" /\ r = "/" \/ c <> "/" /\ r = c ++ "/")
        /\ HasSuffix r "/"
        /\ ~ Contains r "//")
  /\ normPath "/" = Ret "/"
  /\ normPath "/a/./b/../c//d/" = Ret "/a/c/d/"
  /\ normPath "a/../" = Ret "./"
  /\ normPath "../a/../../" = Ret "../../"
  /\ normPath "//" = Ret "/".
Proof.
  split; [|repeat split; reflexivity].
  intros q. rewrite normPath_slash.
  destruct (Clean_ok (q ++ "/")) as [Hd He].
  pose proof (Clean_canonical (q ++ "/")) as Hc.
  exists (Clean (q ++ "/")).
  destruct (String.eqb (Clean (q ++ "/")) "/") eqn:E.
  - exists "/". split; [reflexivity|]. split; [exact Hc|].
    apply String.eqb_eq in E. split; [left; auto|]. split.
    + now exists "".
    + apply has_dslash_Contains. reflexivity.
  - exists (Clean (q ++ "/") ++ "/"). split; [reflexivity|]. split; [exact Hc|].
    apply String.eqb_neq in E. split; [right; auto|]. split.
    + now exists (Clean (q ++ "/")).
    + apply has_dslash_Contains.
      rewrite list_ascii_of_string_app, has_dslash_app, Hd. simpl.
      destruct (ends_slash (list_ascii_of_string (Clean (q ++ "/")))) eqn:Ee;
        [|reflexivity].
      destruct (E (He eq_refl)).
Qed.

(** C9: on the empty string the index [p[len(p)-1]] is out of range and
    [normPath] panics; on every other string it returns. *)
Theorem normPath_empty_panics :
  normPath "" = Panic "runtime error: index out of range"
  /\ (forall (c : ascii) (s : string), exists r, normPath (String c s) = Ret r)
  /\ (forall p : string, is_panic (normPath p) = true <-> p = "").
Proof.
  assert (Hret : forall (c : ascii) (s : string),
             exists r, normPath (String c s) = Ret r).
  { intros c s. unfold normPath, byte_at.
    cbn [String.length].
    destruct (Z.of_nat (S (String.length s)) - 1 <? 0) eqn:E1; [lia|].
    destruct (Z.of_nat (S (String.length s)) <=? Z.of_nat (S (String.length s)) - 1)
      eqn:E2; [lia|].
    cbn [orb].
    destruct (string_get_lt (String c s) (Z.to_nat (Z.of_nat (S (String.length s)) - 1)))
      as [d Hd]; [simpl; lia|].
    rewrite Hd. cbn [res_bind].
    destruct (Ascii.eqb d "/" && negb (String.eqb (Clean (String c s)) "/"));
      eauto. }
  split; [reflexivity|]. split; [exact Hret|].
  intros p; split.
  - destruct p as [|c s]; [reflexivity|].
    destruct (Hret c s) as [r Hr]. rewrite Hr. discriminate.
  - intros ->. reflexivity.
Qed.

End UtilFacts.

(** The same on the path [/a/./b/../c//d/]. *)
Lemma normPath_keeps_trailing_slash_witness :
  exists c r : string,
    Util.normPath "/a/./b/../c//d/" = Ret r
    /\ PathSpec.Canonical true c
    /\ (c = "/" /\ r = "/" \/ c <> "/" /\ r = c ++ "/")
    /\ PathSpec.HasSuffix r "/"
    /\ ~ PathSpec.Contains r "//".
Proof.
  destruct normPath_keeps_trailing_slash as [H _].
  exact (H "/a/./b/../c//d").
Defined.

(** The same on the empty path and on [/user/]. *)
Lemma normPath_empty_panics_witness :
  is_panic (Util.normPath "") = true
  /\ exists r, Util.normPath "/user/" = Ret r.
Proof.
  destruct normPath_empty_panics as (_ & H2 & H3).
  split; [apply H3; reflexivity|apply (H2 "/"%char "user/")].
Defined.

(** ** controller.go: Render *)

Section ControllerFacts.

Import Controller.

Context {Template : Type}.
Variable formats : gmap string string.
Variable appConfig : Config Template.

(** C10: [Render] takes at most one context.  With two or more it panics
    with "too many arguments", whatever the controller; with none the
    Result it returns carries a nil context, with one that context; and it
    does return one whenever the content type has a format and the
    template exists. *)
Theorem Render_takes_at_most_one_context (c : Controller) :
  (forall (x y : gmap string string) (rest : list (gmap string string)),
      Render formats appConfig c (x :: y :: rest) = Panic "too many arguments")
  /\ (forall r, Render formats appConfig c [] = Ret r ->
        exists t, r = ResultTemplate t None)
  /\ (forall x r, Render formats appConfig c [x] = Ret r ->
        exists t, r = ResultTemplate t (Some x))
  /\ (forall t,
        Get formats (ContentType (Response_ c)) <> "" ->
        TemplateSet_Get appConfig (AppName appConfig) (Name c)
          (Get formats (ContentType (Response_ c))) = Some t ->
        Render formats appConfig c [] = Ret (ResultTemplate t None)
        /\ forall x, Render formats appConfig c [x]
                     = Ret (ResultTemplate t (Some x))).
Proof.
  unfold Render. repeat split.
  - intros r H. cbn [res_bind] in H.
    destruct (String.eqb _ ""); [discriminate|].
    destruct (TemplateSet_Get _ _ _ _) as [t|]; [|discriminate].
    exists t. congruence.
  - intros x r H. cbn [res_bind] in H.
    destruct (String.eqb _ ""); [discriminate|].
    destruct (TemplateSet_Get _ _ _ _) as [t|]; [|discriminate].
    exists t. congruence.
  - cbn [res_bind]. apply String.eqb_neq in H. rewrite H, H0. reflexivity.
  - intros x. cbn [res_bind]. apply String.eqb_neq in H. rewrite H, H0.
    reflexivity.
Qed.

(** [Render] of controller.go does no defaulting: a content type without
    a format, the empty one included, is a panic. *)
Lemma Render_unknown_content_type (c : Controller)
    (context : list (gmap string string)) :
  (length context <= 1)%nat ->
  Get formats (ContentType (Response_ c)) = "" ->
  Render formats appConfig c context
  = Panic ("unknown Content-Type: " ++ ContentType (Response_ c)).
Proof.
  intros Hl Hg. unfold Render.
  destruct context as [|x [|y rest]]; cbn [res_bind]; try (simpl in Hl; lia);
    rewrite Hg; reflexivity.
Qed.

End ControllerFacts.

(** The same on the root controller of the test application. *)
Lemma Render_takes_at_most_one_context_witness :
  Controller.Render Controller.MimeTypeFormats Fixture.appConfig
    Fixture.rootController []
  = Ret (Controller.ResultTemplate "tmpl1" None)
  /\ forall x,
      Controller.Render Controller.MimeTypeFormats Fixture.appConfig
        Fixture.rootController [x]
      = Ret (Controller.ResultTemplate "tmpl1" (Some x)).
Proof.
  apply (Render_takes_at_most_one_context Controller.MimeTypeFormats
           Fixture.appConfig Fixture.rootController).
  - vm_compute. discriminate.
  - vm_compute. reflexivity.
Defined.

(** The MIME table as it is at start-up. *)
Lemma MimeTypeFormats_Get (mimeType : string) :
  Controller.Get Controller.MimeTypeFormats mimeType
  = if String.eqb mimeType "application/json" then "json"
    else if String.eqb mimeType "application/xml" then "xml"
    else if String.eqb mimeType "text/html" then "html"
    else if String.eqb mimeType "text/plain" then "txt"
    else "".
Proof.
  unfold Controller.Get, Controller.MimeTypeFormats.
  destruct (String.eqb_spec mimeType "application/json") as [->|H1];
    [reflexivity|rewrite lookup_insert_ne by congruence].
  destruct (String.eqb_spec mimeType "application/xml") as [->|H2];
    [reflexivity|rewrite lookup_insert_ne by congruence].
  destruct (String.eqb_spec mimeType "text/html") as [->|H3];
    [reflexivity|rewrite lookup_insert_ne by congruence].
  destruct (String.eqb_spec mimeType "text/plain") as [->|H4];
    [reflexivity|rewrite lookup_insert_ne by congruence].
  rewrite lookup_empty. reflexivity.
Qed.

(** ** renderer.go: Render, RenderError, SendFile *)

Section RendererFacts.

Import Renderer RenderSpec.

Variable formats : gmap string string.
Variable app : Application.

Lemma setData_Response (c : Context) (data : Value) :
  Response_ (setData c data) = Response_ c.
Proof. destruct data; [reflexivity| |reflexivity]. simpl. now destruct (Data c). Qed.

Lemma setData_Format (c : Context) (data : Value) :
  Format (setData c data) = Format c.
Proof. destruct data; [reflexivity| |reflexivity]. simpl. now destruct (Data c). Qed.

Lemma setData_Layout (c : Context) (data : Value) :
  Layout (setData c data) = Layout c.
Proof. destruct data; [reflexivity| |reflexivity]. simpl. now destruct (Data c). Qed.

(** The first three statements of [Render] and [RenderError]: the
    content type and the format they leave, and the error for a content
    type without a format. *)
Lemma resolve_spec (c : Context) (data : Value) :
  let c1 := setContentTypeIfNotExists (setData c data) "text/html" in
  let out := setFormatFromContentTypeIfNotExists formats c1 in
  ContentType (Response_ (snd out)) = resolvedContentType c
  /\ StatusCode (Response_ (snd out)) = StatusCode (Response_ c)
  /\ Writer (Response_ (snd out)) = Writer (Response_ c)
  /\ Layout (snd out) = Layout c
  /\ Format (snd out) = resolvedFormat formats c
  /\ fst out
     = if String.eqb (resolvedFormat formats c) ""
       then Some ("kocha: unknown Content-Type: " ++ resolvedContentType c)
       else None.
Proof.
  unfold setFormatFromContentTypeIfNotExists, setContentTypeIfNotExists,
    resolvedFormat, resolvedContentType.
  rewrite setData_Response.
  destruct (String.eqb (ContentType (Response_ c)) "") eqn:Ect;
    cbn [with_ContentType with_Response Format Response_ ContentType StatusCode
         Writer Layout];
    rewrite ?setData_Response, ?setData_Layout;
    destruct (String.eqb (Controller.Get formats _) "") eqn:Eg;
    cbn [fst snd with_Format Format Response_ ContentType StatusCode Writer
         Layout with_ContentType with_Response];
    rewrite ?setData_Response, ?setData_Layout;
    repeat split; reflexivity.
Qed.


Lemma Render_spec (c : Context) (data : Value) :
  let out := Render formats app c data in
  ContentType (Response_ (snd out)) = resolvedContentType c
  /\ Format (snd out) = resolvedFormat formats c
  /\ (resolvedFormat formats c = "" ->
      fst out = Some ("kocha: unknown Content-Type: " ++ resolvedContentType c)
      /\ Writer (Response_ (snd out)) = Writer (Response_ c)).
Proof.
  destruct (resolve_spec c data) as (Hct & Hsc & Hw & Hl & Hf & He).
  unfold Render.
  destruct (setFormatFromContentTypeIfNotExists formats
              (setContentTypeIfNotExists (setData c data) "text/html"))
    as [err c1].
  cbn [fst snd] in *.
  destruct (String.eqb_spec (resolvedFormat formats c) "") as [E|E]; subst err.
  - cbn [fst snd]. auto.
  - destruct (Template_Get app _ _ _ _) as [t|e]; cbn [fst snd];
      [destruct (Execute t c1) as [buf|e]; cbn [fst snd render with_Writer
         with_Response Response_ ContentType Format]|];
      repeat split; try assumption; intros; contradiction.
Qed.

End RendererFacts.

(** C4: with the MIME table of start-up, [Render] of renderer.go leaves
    text/html as the content type when none was set and keeps one that
    was; the format it works with is what the table gives for that
    content type (json, xml, html, txt for the four types of the table,
    nothing for any other); and for a content type that is none of the
    four it returns the "unknown Content-Type" error with nothing
    written.  [Render] of controller.go panics with that error. *)
Theorem Render_content_type_and_format
    (app : Renderer.Application) (c : Renderer.Context) (data : Renderer.Value) :
  let formats := Controller.MimeTypeFormats in
  let out := Renderer.Render formats app c data in
  let ct := Renderer.ContentType (Renderer.Response_ (snd out)) in
  (Renderer.ContentType (Renderer.Response_ c) = "" -> ct = "text/html")
  /\ (Renderer.ContentType (Renderer.Response_ c) <> "" ->
      ct = Renderer.ContentType (Renderer.Response_ c))
  /\ Renderer.Format (snd out)
     = (if String.eqb ct "application/json" then "json"
        else if String.eqb ct "application/xml" then "xml"
        else if String.eqb ct "text/html" then "html"
        else if String.eqb ct "text/plain" then "txt"
        else "")
  /\ (~ In ct ["application/json"; "application/xml"; "text/html"; "text/plain"] ->
      fst out = Some ("kocha: unknown Content-Type: " ++ ct)
      /\ Renderer.Writer (Renderer.Response_ (snd out))
         = Renderer.Writer (Renderer.Response_ c))
  /\ (forall (cfg : Controller.Config string) (cc : Controller.Controller)
             (context : list (gmap string string)),
        (length context <= 1)%nat ->
        ~ In (Controller.ContentType (Controller.Response_ cc))
            ["application/json"; "application/xml"; "text/html"; "text/plain"] ->
        Controller.Render formats cfg cc context
        = Panic ("unknown Content-Type: "
                 ++ Controller.ContentType (Controller.Response_ cc))).
Proof.
  intros formats out ct.
  destruct (Render_spec formats app c data) as (Hct & Hf & He).
  fold formats out in Hct, Hf, He. fold ct in Hct.
  assert (Hfmt : RenderSpec.resolvedFormat formats c = Controller.Get formats ct).
  { unfold RenderSpec.resolvedFormat. rewrite Hct. reflexivity. }
  assert (Hout : forall x : string,
             ~ In x ["application/json"; "application/xml"; "text/html";
                     "text/plain"] ->
             Controller.Get formats x = "").
  { intros x Hx. unfold formats. rewrite MimeTypeFormats_Get.
    destruct (String.eqb_spec x "application/json") as [->|_];
      [destruct Hx; simpl; auto|].
    destruct (String.eqb_spec x "application/xml") as [->|_];
      [destruct Hx; simpl; auto|].
    destruct (String.eqb_spec x "text/html") as [->|_];
      [destruct Hx; simpl; auto|].
    destruct (String.eqb_spec x "text/plain") as [->|_];
      [destruct Hx; simpl; auto|].
    reflexivity. }
  repeat split.
  - intros E. rewrite Hct. unfold RenderSpec.resolvedContentType.
    now rewrite E.
  - intros E. rewrite Hct. unfold RenderSpec.resolvedContentType.
    apply String.eqb_neq in E. now rewrite E.
  - rewrite Hf, Hfmt. apply MimeTypeFormats_Get.
  - rewrite Hct. apply He. rewrite Hfmt. now apply Hout.
  - apply He. rewrite Hfmt. now apply Hout.
  - intros cfg cc context Hl Hg. apply Render_unknown_content_type; [exact Hl|].
    now apply Hout.
Qed.

(** The same on a fresh context, on one with the content type image/png
    and a format of its own, and on a controller with that content
    type. *)
Lemma Render_content_type_and_format_witness :
  (let out :=
     Renderer.Render Controller.MimeTypeFormats Fixture.app
       Fixture.freshContext Renderer.VNil in
   Renderer.ContentType (Renderer.Response_ (snd out)) = "text/html"
   /\ Renderer.Format (snd out) = "html")
  /\ (let png :=
        Renderer.with_Format
          (Renderer.with_ContentType Fixture.freshContext "image/png") "html" in
      let out :=
        Renderer.Render Controller.MimeTypeFormats Fixture.app png Renderer.VNil in
      Renderer.ContentType (Renderer.Response_ (snd out)) = "image/png"
      /\ fst out = Some "kocha: unknown Content-Type: image/png"
      /\ Renderer.Writer (Renderer.Response_ (snd out)) = Http.NewRecorder)
  /\ Controller.Render Controller.MimeTypeFormats Fixture.appConfig
       {| Controller.Name := "root";
          Controller.Response_ := {| Controller.ContentType := "image/png" |} |}
       []
     = Panic "unknown Content-Type: image/png".
Proof.
  assert (Hpng : ~ In "image/png"
                     ["application/json"; "application/xml"; "text/html";
                      "text/plain"]).
  { simpl. intros [H|[H|[H|[H|[]]]]]; discriminate H. }
  split; [|split].
  - pose proof (Render_content_type_and_format Fixture.app Fixture.freshContext
                  Renderer.VNil) as (H1 & _ & H3 & _).
    split; [apply H1; reflexivity|].
    rewrite H3. rewrite H1 by reflexivity. reflexivity.
  - pose proof (Render_content_type_and_format Fixture.app
                  (Renderer.with_Format
                     (Renderer.with_ContentType Fixture.freshContext "image/png")
                     "html")
                  Renderer.VNil) as (_ & H2 & _ & H4 & _).
    assert (E : Renderer.ContentType
                  (Renderer.Response_
                     (snd (Renderer.Render Controller.MimeTypeFormats Fixture.app
                             (Renderer.with_Format
                                (Renderer.with_ContentType Fixture.freshContext
                                   "image/png") "html") Renderer.VNil)))
                = "image/png").
    { apply H2. discriminate. }
    split; [exact E|].
    rewrite E in H4. apply H4. exact Hpng.
  - pose proof (Render_content_type_and_format Fixture.app Fixture.freshContext
                  Renderer.VNil) as (_ & _ & _ & _ & H5).
    apply (H5 Fixture.appConfig); [simpl; lia|exact Hpng].
Defined.

Section ErrorFacts.

Import Renderer RenderSpec.

Variable formats : gmap string string.
Variable app : Application.

(** Every code of the table of [http.StatusText] has a reason phrase. *)
Lemma StatusText_known (code : Z) :
  In code (map fst Http.statusText) -> Http.StatusText code <> "".
Proof.
  intros H. unfold Http.statusText in H. cbn [map fst] in H.
  repeat (destruct H as [<-|H]; [vm_compute; discriminate|]).
  destruct H.
Qed.

Lemma assoc_unknown (code : Z) (tbl : list (Z * string)) :
  ~ In code (map fst tbl) -> Http.assoc code tbl = "".
Proof.
  induction tbl as [|[k v] tbl IH]; simpl; [reflexivity|].
  intros H. destruct (Z.eqb_spec k code) as [->|Hne]; [tauto|].
  apply IH. tauto.
Qed.

Lemma WriteHeader_valid (code : Z) (w : Http.ResponseWriter) :
  100 <= code <= 999 -> Http.WriteHeader code w = Ret (Http.sendStatus code w).
Proof.
  intros H. unfold Http.WriteHeader, Http.sendStatus, Http.validCode.
  destruct (Http.Code w); [reflexivity|].
  replace ((100 <=? code) && (code <=? 999)) with true by lia. reflexivity.
Qed.

(** C5, as amended: for a status code that [WriteHeader] accepts,
    [RenderError] with a content type that resolves to a format looks up
    the template named after the status code in that format; if there is
    none it sets the content type text/plain and writes the status line
    and the reason phrase of the code, which is not empty exactly for
    the codes [http.StatusText] knows; if there is one it writes what
    the template produces, or returns its error with nothing written.
    With a content type that has no format it returns the error of the
    resolution with nothing written. *)
Theorem RenderError_fallback (c : Context) (statusCode : Z) (data : Value) :
  100 <= statusCode <= 999 ->
  let out := RenderError formats app c statusCode data in
  let w := Writer (Response_ c) in
  let w' := Writer (Response_ (snd out)) in
  (resolvedFormat formats c <> "" ->
   match Template_Get app (AppName app) (Layout c)
           (errorTemplateName statusCode) (resolvedFormat formats c) with
   | inr _ =>
       fst out = None
       /\ ContentType (Response_ (snd out)) = "text/plain"
       /\ StatusCode (Response_ (snd out)) = statusCode
       /\ exists w1,
           Http.WriteHeader statusCode
             (Http.SetHeader "Content-Type" "text/plain" w) = Ret w1
           /\ w' = Http.Write (Http.StatusText statusCode) w1
   | inl t =>
       match Execute t (errorContext formats c statusCode data) with
       | inl buf =>
           fst out = None
           /\ exists w1,
               Http.WriteHeader statusCode
                 (Http.SetHeader "Content-Type" (resolvedContentType c) w)
               = Ret w1
               /\ w' = Http.Write buf w1
       | inr e => fst out = Some e /\ w' = w
       end
   end)
  /\ (resolvedFormat formats c = "" ->
      fst out = Some ("kocha: unknown Content-Type: " ++ resolvedContentType c)
      /\ w' = w)
  /\ (Http.StatusText statusCode <> "" <-> In statusCode (map fst Http.statusText)).
Proof.
  intros Hcode out w w'.
  destruct (resolve_spec formats c data) as (Hct & Hsc & Hw & Hl & Hf & He).
  subst out w w'. unfold RenderError, errorContext.
  destruct (setFormatFromContentTypeIfNotExists formats
              (setContentTypeIfNotExists (setData c data) "text/html"))
    as [err c1].
  cbn [fst snd] in *.
  split; [|split].
  - intros Hne. apply String.eqb_neq in Hne. rewrite Hne in He. subst err.
    cbn [with_Name with_StatusCode with_Response Layout Name Format Response_].
    rewrite Hl, Hf.
    destruct (Template_Get app _ _ _ _) as [t|e].
    + destruct (Execute t _) as [buf|e];
        unfold render, with_Writer, with_Name, with_StatusCode, with_Response;
        cbn [fst snd Response_ Writer StatusCode ContentType];
        rewrite ?Hw, ?Hct; auto.
      split; [reflexivity|]. eexists. split; [now apply WriteHeader_valid|].
      reflexivity.
    + unfold render, with_Writer, with_Name, with_StatusCode, with_ContentType,
        with_Response;
        cbn [fst snd Response_ Writer StatusCode ContentType].
      rewrite Hw. repeat split.
      eexists. split; [now apply WriteHeader_valid|]. reflexivity.
  - intros E. rewrite E in He. cbn in He. subst err. cbn [fst snd]. auto.
  - split; [|apply StatusText_known].
    intros Hne. destruct (in_dec Z.eq_dec statusCode (map fst Http.statusText))
      as [Hin|Hnin]; [exact Hin|].
    destruct Hne. now apply assoc_unknown.
Qed.

End ErrorFacts.

(** The same for status 404 in the test application, which has no error
    templates, on a fresh context and on one with the content type
    image/png. *)
Lemma RenderError_fallback_witness :
  (let out :=
     Renderer.RenderError Controller.MimeTypeFormats Fixture.app
       Fixture.freshContext 404 Renderer.VNil in
   fst out = None
   /\ Renderer.ContentType (Renderer.Response_ (snd out)) = "text/plain"
   /\ Renderer.StatusCode (Renderer.Response_ (snd out)) = 404
   /\ Http.Code (Renderer.Writer (Renderer.Response_ (snd out))) = Some 404
   /\ Http.Body (Renderer.Writer (Renderer.Response_ (snd out))) = "Not Found")
  /\ (let png := Renderer.with_ContentType Fixture.freshContext "image/png" in
      let out :=
        Renderer.RenderError Controller.MimeTypeFormats Fixture.app png 404
          Renderer.VNil in
      fst out = Some "kocha: unknown Content-Type: image/png"
      /\ Renderer.Writer (Renderer.Response_ (snd out)) = Http.NewRecorder).
Proof.
  assert (Hcode : 100 <= 404 <= 999) by lia.
  split.
  - pose proof (RenderError_fallback Controller.MimeTypeFormats Fixture.app
                  Fixture.freshContext 404 Renderer.VNil Hcode) as (H & _ & _).
    assert (Hf : RenderSpec.resolvedFormat Controller.MimeTypeFormats
                   Fixture.freshContext <> "") by (vm_compute; discriminate).
    specialize (H Hf).
    change (Renderer.Template_Get Fixture.app (Renderer.AppName Fixture.app)
              (Renderer.Layout Fixture.freshContext)
              (Renderer.errorTemplateName 404)
              (RenderSpec.resolvedFormat Controller.MimeTypeFormats
                 Fixture.freshContext))
      with (@inr Renderer.Template string
              "kocha: template not found: errors/404.html") in H.
    destruct H as (H1 & H2 & H3 & w1 & H4 & H5).
    split; [exact H1|]. split; [exact H2|]. split; [exact H3|].
    vm_compute in H4. inversion H4; subst w1; clear H4.
    rewrite H5. split; reflexivity.
  - pose proof (RenderError_fallback Controller.MimeTypeFormats Fixture.app
                  (Renderer.with_ContentType Fixture.freshContext "image/png")
                  404 Renderer.VNil Hcode) as (_ & H & _).
    apply H. reflexivity.
Defined.

(** C5, as stated, fails: for a status code without a reason phrase and
    without a template, here 999, which [WriteHeader] accepts,
    [RenderError] returns nil having written the status line and an
    empty body; and a status code of more than three digits cannot be
    sent at all. *)
Lemma RenderError_empty_body :
  (let out :=
     Renderer.RenderError Controller.MimeTypeFormats Fixture.app
       Fixture.freshContext 999 Renderer.VNil in
   Http.WriteHeader 999
     (Http.SetHeader "Content-Type" "text/plain"
        (Renderer.Writer (Renderer.Response_ Fixture.freshContext)))
   = Ret {| Http.Code := Some 999;
            Http.Header := <["Content-Type" := "text/plain"]> ∅;
            Http.Body := "" |}
   /\ fst out = None
   /\ Http.Code (Renderer.Writer (Renderer.Response_ (snd out))) = Some 999
   /\ Http.Body (Renderer.Writer (Renderer.Response_ (snd out))) = "")
  /\ Http.WriteHeader 1000 Http.NewRecorder
     = Panic "invalid WriteHeader code 1000"
  /\ ~ (forall statusCode : Z,
          Http.Body
            (Renderer.Writer
               (Renderer.Response_
                  (snd (Renderer.RenderError Controller.MimeTypeFormats
                          Fixture.app Fixture.freshContext statusCode
                          Renderer.VNil))))
          <> "").
Proof.
  split; [repeat split; vm_compute; reflexivity|].
  split; [vm_compute; reflexivity|].
  intros H. apply (H 999). vm_compute. reflexivity.
Qed.

Section SendFileFacts.

Import Renderer.

Variable formats : gmap string string.
Variable app : Application.
Variable fs : gmap string File.
Variable byExt byBody : string -> string.

(** A string or byte resource under the given path is what [SendFile]
    sends, whether the path is absolute or not. *)
Lemma SendFile_resource (c : Context) (path b : string) :
  ResourceSet app !! path = Some (RString b)
  \/ ResourceSet app !! path = Some (RBytes b) ->
  SendFile formats app fs byExt byBody c path = send byExt byBody c path b.
Proof. unfold SendFile. intros [-> | ->]; reflexivity. Qed.

(** Without such a resource, a relative path is looked up under the
    static directory of the application and an absolute one as it is; a
    file that is there and opens is sent. *)
Lemma SendFile_file (c : Context) (path : string) (f : File) :
  let path' :=
    if Path.IsAbs path then path
    else Path.Join [AppPath app; StaticDir; path] in
  (ResourceSet app !! path = None \/ ResourceSet app !! path = Some ROther) ->
  fs !! path' = Some f ->
  openErr f = None ->
  SendFile formats app fs byExt byBody c path
  = send byExt byBody c path' (content f).
Proof.
  intros path' Hr Hf Ho. unfold SendFile. subst path'.
  destruct Hr as [-> | ->]; destruct (Path.IsAbs path); cbn [negb] in *;
    rewrite Hf, Ho; reflexivity.
Qed.

(** A file that is nowhere is answered by the error renderer with 404. *)
Lemma SendFile_missing (c : Context) (path : string) :
  let path' :=
    if Path.IsAbs path then path
    else Path.Join [AppPath app; StaticDir; path] in
  (ResourceSet app !! path = None \/ ResourceSet app !! path = Some ROther) ->
  fs !! path' = None ->
  SendFile formats app fs byExt byBody c path
  = RenderError formats app c Http.StatusNotFound VNil.
Proof.
  intros path' Hr Hf. unfold SendFile. subst path'.
  destruct Hr as [-> | ->]; destruct (Path.IsAbs path); cbn [negb] in *;
    rewrite Hf; reflexivity.
Qed.

End SendFileFacts.

(** C6: the resource set is consulted before the path is tested for
    being absolute.  Here the absolute path names a file with the content
    "on disk" and, in the resource set, the string "embedded"; [SendFile]
    sends the resource. *)
Theorem SendFile_absolute_path_reads_resource :
  let path := "/srv/app/public/logo.txt" in
  let out :=
    Renderer.SendFile Controller.MimeTypeFormats Fixture.app Fixture.fs
      Fixture.byExt Fixture.byBody Fixture.freshContext path in
  Path.IsAbs path = true
  /\ Renderer.content <$> (Fixture.fs !! path) = Some "on disk"
  /\ fst out = None
  /\ Http.Body (Renderer.Writer (Renderer.Response_ (snd out))) = "embedded".
Proof. repeat split; vm_compute; reflexivity. Qed.
(** ** kocha.go: the dispatcher *)

Section MonadFacts.

Context {S A B : Type}.

Lemma mbind_inv (m : M S A) (f : A -> M S B) (s s' : S) (r : res B) :
  mbind m f s = (r, s') ->
  (exists a s1, m s = (Ret a, s1) /\ f a s1 = (r, s'))
  \/ (exists e, m s = (Panic e, s') /\ r = Panic e).
Proof.
  unfold mbind. destruct (m s) as [[a|e] s1]; intros H.
  - left. eauto.
  - right. inversion H; subst. eauto.
Qed.

Lemma mbind_ret (m : M S A) (f : A -> M S B) (s s1 : S) (a : A) :
  m s = (Ret a, s1) -> mbind m f s = f a s1.
Proof. unfold mbind. now intros ->. Qed.

Lemma mbind_panic (m : M S A) (f : A -> M S B) (s s1 : S) (e : string) :
  m s = (Panic e, s1) -> mbind m f s = (Panic e, s1).
Proof. unfold mbind. now intros ->. Qed.

End MonadFacts.

Section WriterFacts.

Lemma sendStatus_Code (code : Z) (w : Http.ResponseWriter) :
  Http.Code (Http.sendStatus code w) = Some (default code (Http.Code w)).
Proof. unfold Http.sendStatus. destruct (Http.Code w) eqn:E; simpl; congruence. Qed.

Lemma sendStatus_Body (code : Z) (w : Http.ResponseWriter) :
  Http.Body (Http.sendStatus code w) = Http.Body w.
Proof. unfold Http.sendStatus. destruct (Http.Code w); reflexivity. Qed.

(** [WriteHeader] returns on a writer that has sent its status line and
    on a code of three digits, and only then. *)
Lemma WriteHeader_spec (code : Z) (w : Http.ResponseWriter) :
  match Http.WriteHeader code w with
  | Ret w1 =>
      w1 = Http.sendStatus code w
      /\ (Http.Code w = None -> 100 <= code <= 999)
  | Panic e =>
      Http.Code w = None /\ ~ 100 <= code <= 999
      /\ e = "invalid WriteHeader code " ++ pretty code
  end.
Proof.
  unfold Http.WriteHeader, Http.sendStatus, Http.validCode.
  destruct (Http.Code w) eqn:E.
  - split; [reflexivity|discriminate].
  - destruct ((100 <=? code) && (code <=? 999)) eqn:V.
    + split; [reflexivity|]. intros _. lia.
    + repeat split; try reflexivity. lia.
Qed.

Lemma WriteHeader_Code (code : Z) (w w1 : Http.ResponseWriter) :
  Http.WriteHeader code w = Ret w1 ->
  Http.Code w1 = Some (default code (Http.Code w)).
Proof.
  intros H. pose proof (WriteHeader_spec code w) as S. rewrite H in S.
  destruct S as [-> _]. apply sendStatus_Code.
Qed.

Lemma apply_op_Code (op : Http.WireOp) (w w1 : Http.ResponseWriter) (c : Z) :
  Http.apply_op w op = Ret w1 -> Http.Code w = Some c -> Http.Code w1 = Some c.
Proof.
  destruct op; simpl.
  - intros H; inversion H; subst. auto.
  - unfold Http.WriteHeader. intros H Hc. rewrite Hc in H.
    inversion H; subst. exact Hc.
  - intros H; inversion H; subst. intros Hc. unfold Http.Write, Http.sendStatus.
    rewrite Hc. simpl. exact Hc.
Qed.

(** Once a status line is sent, no call of a Result changes it. *)
Lemma apply_ops_Code (ops : list Http.WireOp) (w : Http.ResponseWriter) (c : Z) :
  Http.Code w = Some c -> Http.Code (fst (Http.apply_ops ops w)) = Some c.
Proof.
  revert w. induction ops as [|op ops IH]; intros w H; simpl; [exact H|].
  destruct (Http.apply_op w op) as [w1|e] eqn:E; [|exact H].
  apply IH. eapply apply_op_Code; eauto.
Qed.

(** [http.Error] on a writer: the status line is the one already sent,
    if any, else the given one; the message goes to the body. *)
Lemma Error_spec (w : Http.ResponseWriter) (msg : string) (code : Z) :
  Http.Code (Http.Error w msg code) = Some (default code (Http.Code w))
  /\ Http.Body (Http.Error w msg code) = (Http.Body w ++ msg ++ Http.nl)%string
  /\ Http.Header (Http.Error w msg code) !! "Content-Type"%string
     = Some "text/plain; charset=utf-8"%string.
Proof.
  unfold Http.Error, Http.Write, Http.sendStatus, Http.SetHeader. simpl.
  destruct (Http.Code w) eqn:E; simpl; rewrite ?E; simpl;
    repeat split; try reflexivity; apply lookup_insert_eq.
Qed.

End WriterFacts.

Section DispatchFacts.

Import Kocha DispatchSpec.
Local Open Scope list_scope.

Lemma kept_refl (w : World) : kept w w.
Proof. unfold kept. auto. Qed.

Lemma kept_trans (w1 w2 w3 : World) : kept w1 w2 -> kept w2 w3 -> kept w1 w3.
Proof.
  unfold kept. intros (A1 & A2 & A3 & A4) (B1 & B2 & B3 & B4).
  repeat split; try congruence. auto.
Qed.

Lemma absorb_kept (c : Controller) (e : Env) (w : World) :
  logs (absorb c e w) = logs w
  /\ result (absorb c e w) = result w
  /\ calls (absorb c e w) = calls w
  /\ cc (absorb c e w) = cc w.
Proof. unfold absorb. destruct (HasResponse c); simpl; auto. Qed.

Lemma on_cc_kept {A : Type} (f : M Env A) (w w' : World) (r : res A) :
  on_cc f w = (r, w') -> kept w w'.
Proof.
  unfold on_cc. destruct (cc w) as [c|] eqn:Hc.
  - destruct (f _) as [r0 e]. intros H; inversion H; subst; clear H.
    destruct (absorb_kept c e w) as (A1 & A2 & A3 & A4).
    unfold kept; simpl. repeat split; auto; discriminate.
  - intros H; inversion H; subst. apply kept_refl.
Qed.

Lemma on_copy_kept {A : Type} (f : M Env A) (w w' : World) (r : res A) :
  on_copy f w = (r, w') -> kept w w'.
Proof.
  unfold on_copy. destruct (cc w) as [c|] eqn:Hc.
  - destruct (f _) as [r0 e]. intros H; inversion H; subst; clear H.
    destruct (absorb_kept c e w) as (A1 & A2 & A3 & A4).
    unfold kept; simpl. repeat split; auto. rewrite A4. auto.
  - intros H; inversion H; subst. apply kept_refl.
Qed.

Lemma on_cc_keeps_status (f : M Env unit) (w : World) :
  keeps_status f ->
  StatusCode (response (snd (on_cc f w))) = StatusCode (response w).
Proof.
  intros Hf. unfold on_cc. destruct (cc w) as [c|]; [|reflexivity].
  specialize (Hf (env_of c w)).
  destruct (f _) as [r e]. cbn [snd] in *. unfold absorb, env_of in *.
  destruct (HasResponse c); simpl in *; [exact Hf|reflexivity].
Qed.

(** The loop over the middlewares: the calls it makes are those of the
    first [k] middlewares in order, of all of them if it returns. *)
Lemma run_hooks_spec (sel : Middleware -> M Env unit) (mk : Middleware -> Call)
    (ms : list Middleware) :
  forall (w w' : World) (r : res unit),
    run_hooks sel mk ms w = (r, w') ->
    logs w' = logs w
    /\ result w' = result w
    /\ (cc w <> None -> cc w' <> None)
    /\ exists k, (k <= length ms)%nat
                 /\ calls w' = calls w ++ map mk (firstn k ms)
                 /\ (r = Ret tt -> k = length ms)
                 /\ (forall e, r = Panic e -> (0 < k)%nat).
Proof.
  induction ms as [|m ms IH]; intros w w' r H.
  - inversion H; subst. repeat split; auto.
    exists 0%nat. simpl. rewrite app_nil_r. repeat split; auto. discriminate.
  - cbn [run_hooks] in H. unfold mbind at 1 in H. cbn [mupd] in H.
    apply mbind_inv in H as [(a & w1 & H1 & H2) | (e & H1 & ->)].
    + apply on_cc_kept in H1 as (A1 & A2 & A3 & A4).
      apply IH in H2 as (B1 & B2 & B3 & k & Hk & C2 & R & P).
      simpl in *. repeat split; try congruence; auto.
      exists (Datatypes.S k). split; [simpl; lia|]. split.
      * rewrite C2, A3. simpl. now rewrite <- app_assoc.
      * split; [intros E; simpl; f_equal; auto|]. intros; lia.
    + apply on_cc_kept in H1 as (A1 & A2 & A3 & A4).
      simpl in *. repeat split; try congruence; auto.
      exists 1%nat. split; [simpl; lia|]. split; [rewrite A3; reflexivity|].
      split; [discriminate|]. intros; lia.
Qed.

Lemma run_hooks_keeps_status (sel : Middleware -> M Env unit)
    (mk : Middleware -> Call) (ms : list Middleware) :
  Forall (fun m => keeps_status (sel m)) ms ->
  forall w : World,
    StatusCode (response (snd (run_hooks sel mk ms w)))
    = StatusCode (response w).
Proof.
  induction 1 as [|m ms Hm Hms IH]; intros w; [reflexivity|].
  cbn [run_hooks]. unfold mbind at 1. cbn [mupd].
  unfold mbind.
  pose proof (on_cc_keeps_status (sel m) (add_call (mk m) w) Hm) as Hk.
  destruct (on_cc (sel m) (add_call (mk m) w)) as [[[]|e] w1] eqn:E;
    cbn [snd] in *.
  - rewrite IH. exact Hk.
  - exact Hk.
Qed.

Lemma write_header_spec (w w' : World) (r : res unit) :
  write_header w = (r, w') ->
  calls w' = calls w /\ logs w' = logs w /\ result w' = result w
  /\ response w' = response w
  /\ match r with
     | Ret _ =>
         writer w' = Http.sendStatus (StatusCode (response w)) (writer w)
         /\ Http.WriteHeader (StatusCode (response w)) (writer w)
            = Ret (writer w')
     | Panic e =>
         w' = w /\ Http.Code (writer w) = None
         /\ ~ 100 <= StatusCode (response w) <= 999
     end.
Proof.
  unfold write_header.
  pose proof (WriteHeader_spec (StatusCode (response w)) (writer w)) as S.
  destruct (Http.WriteHeader _ _) as [w1|e]; intros H; inversion H; subst;
    simpl; repeat split; tauto.
Qed.

Lemma proc_first_spec (w w' : World) (r : res unit) :
  proc_first w = (r, w') ->
  calls w' = calls w /\ logs w' = logs w /\ result w' = result w
  /\ response w' = response w
  /\ (forall c, Http.Code (writer w) = Some c -> Http.Code (writer w') = Some c).
Proof.
  unfold proc_first. destruct (result w) as [|[r0|] rest] eqn:E.
  - intros H; inversion H; subst. repeat split; auto.
  - destruct (Proc r0 (response w)) as [ops e].
    pose proof (apply_ops_Code ops (writer w)) as Hc.
    destruct (Http.apply_ops ops (writer w)) as [wr1 [p|]];
      [|destruct e as [e|]]; intros H; inversion H; subst;
      simpl; repeat split; auto.
  - intros H; inversion H; subst. repeat split; auto.
Qed.

(** When [Proc] returns, the writer is as its calls leave it. *)
Lemma proc_first_returns (w w' : World) :
  proc_first w = (Ret tt, w') ->
  exists r0 rest,
    result w = VResult r0 :: rest
    /\ snd (Proc r0 (response w)) = None
    /\ Http.apply_ops (fst (Proc r0 (response w))) (writer w)
       = (writer w', None).
Proof.
  unfold proc_first. destruct (result w) as [|[r0|] rest] eqn:E;
    [discriminate| |discriminate].
  destruct (Proc r0 (response w)) as [ops e] eqn:Ep.
  destruct (Http.apply_ops ops (writer w)) as [wr1 [p|]] eqn:Ea; [discriminate|].
  destruct e as [e|]; [discriminate|].
  intros H; inversion H; subst. exists r0, rest. rewrite Ep. simpl. auto.
Qed.

Lemma innermost_spec (err : option string) (w : World) :
  fst (innermost err w) = Ret tt
  /\ calls (snd (innermost err w)) = calls w
  /\ result (snd (innermost err w)) = result w
  /\ match err with
     | None => snd (innermost err w) = w
     | Some e =>
         logs (snd (innermost err w)) = logs w ++ [LogError e]
         /\ StatusCode (response (snd (innermost err w))) = 500
         /\ writer (snd (innermost err w))
            = Http.Error (writer w) "Internal Server Error" 500
     end.
Proof. destruct err; simpl; repeat split; auto. Qed.

End DispatchFacts.

Section RenderFacts.

Import Kocha DispatchSpec.
Local Open Scope list_scope.

Variable ErrorGet : Z -> M Env Result.
Variable app : Application.

Local Abbreviation ms := (Middlewares (Config_ app)).

(** [render] is its body, then the deferred function on what
    [recover()] gives it, then the innermost one. *)
Lemma render_unfold (wr : Http.ResponseWriter) (lg : list LogEntry)
    (r : Request) (t : Target) :
  let b := body app r t (init wr lg) in
  let d := deferred ErrorGet app (recovered (fst b)) (snd b) in
  render ErrorGet app wr lg r t = innermost (recovered (fst d)) (snd d).
Proof.
  intros b d. subst d b. unfold render, with_defer.
  destruct (body app r t (init wr lg)) as [rb wb]. cbn [fst snd].
  destruct (deferred ErrorGet app (recovered rb) wb) as [rd wd]. reflexivity.
Qed.

Lemma render_returns (wr : Http.ResponseWriter) (lg : list LogEntry)
    (r : Request) (t : Target) :
  fst (render ErrorGet app wr lg r t) = Ret tt.
Proof. rewrite render_unfold. apply innermost_spec. Qed.

(** The body with a controller that does not embed [Controller]. *)
Lemma body_bug (r : Request) (t : Target) (w : World) :
  kind t = FieldOther ->
  body app r t w
  = (Panic "BUG: Controller field must be struct of *kocha.Controller or that pointer",
     w).
Proof. intros K. unfold body. rewrite K. reflexivity. Qed.

(** The body on a form that does not parse: [cc] is set, its request and
    response are not. *)
Lemma body_multipart (r : Request) (t : Target) (w : World) (err : string) :
  kind t <> FieldOther ->
  multipartErr r = Some err ->
  body app r t w
  = (Panic err,
     set_cc (Some {| Name := ""; Layout := ""; HasResponse := false |}) w).
Proof.
  intros K Hm. unfold body. destruct (kind t); try congruence;
    unfold mbind at 1; cbn [mupd]; rewrite Hm; reflexivity.
Qed.

(** The body of [render] logs nothing, and the calls it makes are the
    [Before] hooks of the first [k] middlewares, of all of them unless a
    [Before] hook has faulted. *)
Lemma body_spec (r : Request) (t : Target) (wr : Http.ResponseWriter)
    (lg : list LogEntry) (rb : res unit) (wb : World) :
  body app r t (init wr lg) = (rb, wb) ->
  logs wb = lg
  /\ (rb = Ret tt -> cc wb <> None)
  /\ exists k, (k <= length ms)%nat
               /\ calls wb = map CallBefore (firstn k ms)
               /\ (rb = Ret tt -> k = length ms).
Proof.
  assert (Hgen : forall (call : M World (list RValue)),
             (forall w w' r', call w = (r', w') -> kept w w') ->
             (do _ <- mupd (set_cc (Some {| Name := ""; Layout := "";
                                            HasResponse := false |})) ;
              match multipartErr r with
              | Some err => mpanic err
              | None =>
                  do _ <- mupd (fun w =>
                                  set_cc (Some {| Name := TypeName t;
                                                  Layout := DefaultLayout (Config_ app);
                                                  HasResponse := true |})
                                    (set_context ∅ w)) ;
                  do _ <- run_hooks Before CallBefore ms ;
                  do res <- call ;
                  mupd (set_result res)
              end) (init wr lg) = (rb, wb) ->
             logs wb = lg
             /\ (rb = Ret tt -> cc wb <> None)
             /\ exists k, (k <= length ms)%nat
                          /\ calls wb = map CallBefore (firstn k ms)
                          /\ (rb = Ret tt -> k = length ms)).
  { intros call Hcall H.
    unfold mbind at 1 in H. cbn [mupd] in H.
    destruct (multipartErr r) as [err|] eqn:Hm.
    - inversion H; subst; clear H. simpl. repeat split; try discriminate.
      exists 0%nat. repeat split; [lia|discriminate].
    - unfold mbind at 1 in H. cbn [mupd] in H.
      apply mbind_inv in H as [(a & w1 & H1 & H2) | (e & H1 & ->)].
      + apply run_hooks_spec in H1 as (A1 & A2 & A3 & k & Hk1 & Hc & Hr & _).
        destruct a. specialize (Hr eq_refl). subst k.
        rewrite firstn_all in Hc.
        apply mbind_inv in H2 as [(res & w2 & H2 & H3) | (e & H2 & ->)].
        * apply Hcall in H2 as (B1 & B2 & B3 & B4).
          inversion H3; subst; clear H3. simpl in *.
          repeat split; try congruence.
          -- intros _. apply B4, A3. discriminate.
          -- exists (length ms). rewrite firstn_all.
             repeat split; [lia|congruence].
        * apply Hcall in H2 as (B1 & B2 & B3 & B4). simpl in *.
          repeat split; try congruence; try discriminate.
          exists (length ms). rewrite firstn_all.
          repeat split; [lia|congruence].
      + apply run_hooks_spec in H1 as (A1 & A2 & A3 & k & Hk1 & Hc & Hr & _).
        simpl in *. repeat split; try congruence; try discriminate.
        exists k. repeat split; [exact Hk1|exact Hc|discriminate]. }
  unfold body. destruct (kind t) eqn:K.
  - apply Hgen. intros; eapply on_copy_kept; eauto.
  - apply Hgen. intros; eapply on_cc_kept; eauto.
  - intros H. inversion H; subst; clear H. simpl.
    repeat split; try discriminate.
    exists 0%nat. repeat split; [lia|discriminate].
Qed.

(** The state in which the error controller of the recovery block is
    called, after the fault [e] has been logged. *)
Lemma attach_spec (e : string) (w : World) :
  let w1 := snd (attach (add_log (LogError e) w)) in
  fst (attach (add_log (LogError e) w)) = Ret tt
  /\ logs w1 = logs w ++ [LogError e]
  /\ calls w1 = calls w
  /\ writer w1 = writer w
  /\ response w1 = response w
  /\ cc w1 <> None
  /\ (forall c, cc w = Some c -> cc w1 = Some c)
  /\ (cc w = None ->
      cc w1 = Some {| Name := ""; Layout := ""; HasResponse := true |}).
Proof.
  unfold attach. cbn [add_log cc].
  destruct (cc w) as [c|] eqn:Hc; simpl; repeat split; auto; try discriminate;
    congruence.
Qed.

(** The recovery block, by the outcome of the error controller. *)
Lemma recovery_unfold (e : string) (w : World) :
  recovery ErrorGet e w
  = match on_cc (errorGet ErrorGet Http.StatusInternalServerError)
            (snd (attach (add_log (LogError e) w))) with
    | (Ret r0, w2) => (Ret tt, set_result [VResult r0] w2)
    | (Panic e2, w2) => (Panic e2, w2)
    end.
Proof.
  unfold recovery, logStackAndError. unfold mbind at 1. cbn [mupd].
  unfold mbind at 1.
  destruct (attach_spec e w) as (Hf & _).
  destruct (attach (add_log (LogError e) w)) as [ra w1]. cbn [fst snd] in *.
  subst ra. unfold mbind.
  destruct (on_cc _ w1) as [[r0|e2] w2]; reflexivity.
Qed.

(** The recovery block and the [After] hooks. *)
Lemma after_hooks_fault (e : string) (w : World) :
  after_hooks ErrorGet app (Some e) w
  = match on_cc (errorGet ErrorGet Http.StatusInternalServerError)
            (snd (attach (add_log (LogError e) w))) with
    | (Ret r0, w2) =>
        run_hooks After CallAfter ms (set_result [VResult r0] w2)
    | (Panic e2, w2) => (Panic e2, w2)
    end.
Proof.
  unfold after_hooks. unfold mbind. rewrite recovery_unfold.
  destruct (on_cc _ _) as [[r0|e2] w2]; reflexivity.
Qed.

Lemma after_hooks_normal (w : World) :
  after_hooks ErrorGet app None w = run_hooks After CallAfter ms w.
Proof. reflexivity. Qed.

(** The error controller of [render] returns only on a controller with
    a response, and then it has set the status code. *)
Lemma on_cc_errorGet (code : Z) (w w2 : World) (r0 : Result) :
  on_cc (errorGet ErrorGet code) w = (Ret r0, w2) ->
  (exists c, cc w = Some c /\ HasResponse c = true)
  /\ (sets_status ErrorGet -> StatusCode (response w2) = code).
Proof.
  unfold on_cc. destruct (cc w) as [c|]; [|discriminate].
  unfold errorGet, env_of, absorb.
  destruct (HasResponse c) eqn:Hr; cbn [ctl HasResponse]; rewrite ?Hr;
    [|discriminate].
  destruct (ErrorGet code _) as [r1 e1] eqn:E. intros H.
  inversion H; subst; clear H. split; [eauto|].
  intros Hs. simpl. eapply Hs. exact E.
Qed.

(** On a controller without a response it faults, and nothing has
    changed but that. *)
Lemma on_cc_errorGet_nil (code : Z) (w : World) (c : Controller) :
  cc w = Some c -> HasResponse c = false ->
  let out := on_cc (errorGet ErrorGet code) w in
  fst out = Panic nil_dereference
  /\ kept w (snd out)
  /\ writer (snd out) = writer w
  /\ response (snd out) = response w.
Proof.
  intros Hc Hr out. subst out. unfold on_cc. rewrite Hc.
  unfold errorGet, env_of, absorb. rewrite Hr. cbn [ctl HasResponse].
  rewrite Hr. cbn [fst snd]. unfold kept. simpl. repeat split; auto;
    discriminate.
Qed.

(** The deferred function, by the outcome of its parts. *)
Lemma deferred_unfold (err : option string) (w : World) :
  deferred ErrorGet app err w
  = match after_hooks ErrorGet app err w with
    | (Ret _, w3) =>
        match write_header w3 with
        | (Ret _, w4) => proc_first w4
        | (Panic e2, w4) => (Panic e2, w4)
        end
    | (Panic e2, w3) => (Panic e2, w3)
    end.
Proof.
  unfold deferred, mbind.
  destruct (after_hooks ErrorGet app err w) as [[[]|e2] w3]; [|reflexivity].
  destruct (write_header w3) as [[[]|e2] w4]; reflexivity.
Qed.

(** After the hooks, the deferred function calls no hook and logs
    nothing; when it returns, the status line went out and the first
    value of [result] has been run on the writer. *)
Lemma deferred_spec (err : option string) (w : World) :
  let h := after_hooks ErrorGet app err w in
  let d := deferred ErrorGet app err w in
  calls (snd d) = calls (snd h)
  /\ logs (snd d) = logs (snd h)
  /\ result (snd d) = result (snd h)
  /\ response (snd d) = response (snd h)
  /\ (forall e2, fst h = Panic e2 -> d = (Panic e2, snd h))
  /\ (forall ws,
        fst h = Ret tt ->
        Http.WriteHeader (StatusCode (response (snd h))) (writer (snd h)) = Ret ws ->
        Http.Code (writer (snd d))
        = Some (default (StatusCode (response (snd h)))
                  (Http.Code (writer (snd h)))))
  /\ (fst h = Ret tt ->
      is_panic (Http.WriteHeader (StatusCode (response (snd h))) (writer (snd h)))
      = true ->
      snd d = snd h /\ is_panic (fst d) = true)
  /\ (fst d = Ret tt ->
      fst h = Ret tt
      /\ exists r0 rest ws,
          result (snd h) = VResult r0 :: rest
          /\ Http.WriteHeader (StatusCode (response (snd h))) (writer (snd h))
             = Ret ws
          /\ snd (Proc r0 (response (snd h))) = None
          /\ Http.apply_ops (fst (Proc r0 (response (snd h)))) ws
             = (writer (snd d), None)).
Proof.
  intros h d. subst h d. rewrite deferred_unfold.
  destruct (after_hooks ErrorGet app err w) as [[[]|e2] w3]; cbn [fst snd].
  2:{ repeat split; try discriminate; congruence. }
  destruct (write_header w3) as [[[]|e2] w4] eqn:Ew.
  - apply write_header_spec in Ew as (A1 & A2 & A3 & A4 & A5 & A6).
    destruct (proc_first w4) as [rp w5] eqn:Ep. cbn [fst snd].
    pose proof Ep as Ep'.
    apply proc_first_spec in Ep as (B1 & B2 & B3 & B4 & B5).
    split; [congruence|]. split; [congruence|]. split; [congruence|].
    split; [congruence|].
    split; [intros e3 H; discriminate H|].
    split; [intros ws _ Hws; apply B5; rewrite A5; apply sendStatus_Code|].
    split; [intros _ Hp; rewrite A6 in Hp; discriminate Hp|].
    intros ->. split; [reflexivity|].
    apply proc_first_returns in Ep' as (r0 & rest & R1 & R2 & R3).
    exists r0, rest, (writer w4). rewrite <- A3, <- A4.
    repeat split; try assumption. rewrite A4. exact A6.
  - apply write_header_spec in Ew as (A1 & A2 & A3 & A4 & -> & A6 & A7).
    cbn [fst snd].
    split; [reflexivity|]. split; [reflexivity|]. split; [reflexivity|].
    split; [reflexivity|].
    split; [intros e3 H; discriminate H|].
    split.
    { intros ws _ Hws.
      pose proof (WriteHeader_spec (StatusCode (response w3)) (writer w3)) as S.
      rewrite Hws in S. destruct S as [_ S]. specialize (S A6). contradiction. }
    split; [intros _ _; split; reflexivity|].
    intros H; discriminate H.
Qed.

(** What [render] adds to the deferred function: when that faults, the
    fault is logged, the status code becomes 500 and [http.Error] writes
    its text. *)
Lemma render_spec (wr : Http.ResponseWriter) (lg : list LogEntry)
    (r : Request) (t : Target) :
  let b := body app r t (init wr lg) in
  let d := deferred ErrorGet app (recovered (fst b)) (snd b) in
  let out := render ErrorGet app wr lg r t in
  calls (snd out) = calls (snd d)
  /\ result (snd out) = result (snd d)
  /\ match fst d with
     | Ret _ => snd out = snd d
     | Panic e2 =>
         logs (snd out) = logs (snd d) ++ [LogError e2]
         /\ StatusCode (response (snd out)) = 500
         /\ writer (snd out)
            = Http.Error (writer (snd d)) "Internal Server Error" 500
     end.
Proof.
  intros b d out. subst out. rewrite render_unfold. fold b d.
  destruct (innermost_spec (recovered (fst d)) (snd d)) as (_ & I1 & I2 & I3).
  split; [exact I1|]. split; [exact I2|].
  destruct (fst d) as [[]|e2]; exact I3.
Qed.

(** The hooks after the body: what they log, the calls they make, and
    the status code they leave. *)
Lemma after_hooks_logs (err : option string) (w : World) :
  logs (snd (after_hooks ErrorGet app err w))
  = logs w ++ match err with Some e => [LogError e] | None => [] end.
Proof.
  destruct err as [e|].
  - rewrite after_hooks_fault.
    destruct (attach_spec e w) as (_ & L & _).
    destruct (on_cc _ _) as [[r0|e2] w2] eqn:E;
      apply on_cc_kept in E as (A1 & _); cbn [snd]; [|congruence].
    destruct (run_hooks After CallAfter ms (set_result [VResult r0] w2))
      as [rh w3] eqn:Eh.
    apply run_hooks_spec in Eh as (B1 & _). cbn [snd]. simpl in B1. congruence.
  - rewrite after_hooks_normal, app_nil_r.
    destruct (run_hooks After CallAfter ms w) as [rh w3] eqn:Eh.
    now apply run_hooks_spec in Eh as (B1 & _).
Qed.

Lemma after_hooks_calls (err : option string) (w : World) :
  let h := after_hooks ErrorGet app err w in
  (exists k, (k <= length ms)%nat
             /\ calls (snd h) = calls w ++ map CallAfter (firstn k ms))
  /\ (fst h = Ret tt -> calls (snd h) = calls w ++ map CallAfter ms).
Proof.
  intros h. subst h.
  assert (Hrun : forall w0,
             calls w0 = calls w ->
             let h := run_hooks After CallAfter ms w0 in
             (exists k, (k <= length ms)%nat
                        /\ calls (snd h) = calls w ++ map CallAfter (firstn k ms))
             /\ (fst h = Ret tt -> calls (snd h) = calls w ++ map CallAfter ms)).
  { intros w0 Hc h. subst h.
    destruct (run_hooks After CallAfter ms w0) as [rh w3] eqn:Eh.
    apply run_hooks_spec in Eh as (_ & _ & _ & k & Hk & C & R & _).
    cbn [fst snd]. rewrite Hc in C. split; [eauto|].
    intros ->. rewrite (R eq_refl), firstn_all in C. exact C. }
  destruct err as [e|].
  - rewrite after_hooks_fault.
    destruct (attach_spec e w) as (_ & _ & C1 & _).
    destruct (on_cc _ _) as [[r0|e2] w2] eqn:E;
      apply on_cc_kept in E as (_ & _ & A3 & _).
    + apply Hrun. simpl. congruence.
    + cbn [fst snd]. split; [|discriminate].
      exists 0%nat. split; [lia|]. simpl. rewrite app_nil_r. congruence.
  - rewrite after_hooks_normal. now apply Hrun.
Qed.

(** After a fault of the body, the hooks return only if the error
    controller has returned its Result, which is then in [result]. *)
Lemma after_hooks_fault_returns (e : string) (w : World) :
  let get := on_cc (errorGet ErrorGet Http.StatusInternalServerError)
               (snd (attach (add_log (LogError e) w))) in
  let h := after_hooks ErrorGet app (Some e) w in
  (fst h = Ret tt ->
   exists r0,
     fst get = Ret r0
     /\ result (snd h) = [VResult r0]
     /\ (sets_status ErrorGet ->
         Forall (fun m => keeps_status (After m)) ms ->
         StatusCode (response (snd h)) = 500))
  /\ (forall e2, fst get = Panic e2 -> h = (Panic e2, snd get)).
Proof.
  intros get h. subst get h. rewrite after_hooks_fault.
  destruct (on_cc _ _) as [[r0|e2] w2] eqn:E; cbn [fst snd].
  - split; [|intros e2 H; discriminate H].
    intros Hh. exists r0. split; [reflexivity|].
    destruct (run_hooks After CallAfter ms (set_result [VResult r0] w2))
      as [rh w3] eqn:Eh.
    pose proof Eh as Eh'.
    apply run_hooks_spec in Eh as (_ & B2 & _). cbn [fst snd] in *.
    split; [exact B2|].
    intros Hs Hk.
    pose proof (run_hooks_keeps_status After CallAfter ms Hk
                  (set_result [VResult r0] w2)) as K.
    rewrite Eh' in K. cbn [snd] in K. rewrite K. simpl.
    apply on_cc_errorGet in E as (_ & S). now apply S.
  - split; [intros H; discriminate H|].
    intros e3 H. inversion H; subst. reflexivity.
Qed.

(** The status line of the response, when nothing was sent before
    [render] sends it: the status code of the response if the hooks
    returned and [WriteHeader] accepts the code, and 500 in every other
    case. *)
Lemma render_status (wr : Http.ResponseWriter) (lg : list LogEntry)
    (r : Request) (t : Target) :
  let b := body app r t (init wr lg) in
  let h := after_hooks ErrorGet app (recovered (fst b)) (snd b) in
  let out := render ErrorGet app wr lg r t in
  Http.Code (writer (snd h)) = None ->
  Http.Code (writer (snd out))
  = Some match fst h with
         | Ret _ =>
             if Http.validCode (StatusCode (response (snd h)))
             then StatusCode (response (snd h))
             else 500
         | Panic _ => 500
         end.
Proof.
  intros b h out Hfresh. subst out. rewrite render_unfold. fold b.
  rewrite deferred_unfold. fold h.
  destruct h as [[[]|e2] w3]; cbn [fst snd] in *.
  - destruct (write_header w3) as [[[]|e2] w4] eqn:Ew.
    + apply write_header_spec in Ew as (_ & _ & _ & _ & A5 & A6).
      pose proof (WriteHeader_spec (StatusCode (response w3)) (writer w3)) as S.
      rewrite A6 in S. destruct S as [_ S]. specialize (S Hfresh).
      unfold Http.validCode.
      replace ((100 <=? StatusCode (response w3))
               && (StatusCode (response w3) <=? 999)) with true by lia.
      assert (C4 : Http.Code (writer w4) = Some (StatusCode (response w3))).
      { rewrite A5, sendStatus_Code, Hfresh. reflexivity. }
      destruct (proc_first w4) as [rp w5] eqn:Ep.
      apply proc_first_spec in Ep as (_ & _ & _ & _ & B5).
      specialize (B5 _ C4).
      destruct (innermost_spec (recovered rp) w5) as (_ & _ & _ & I).
      cbn [fst snd]. destruct rp as [[]|e3]; cbn [recovered] in *.
      * rewrite I. exact B5.
      * destruct I as (_ & _ & ->).
        destruct (Error_spec (writer w5) "Internal Server Error" 500) as (-> & _).
        rewrite B5. reflexivity.
    + apply write_header_spec in Ew as (_ & _ & _ & _ & -> & _ & A7).
      unfold Http.validCode.
      replace ((100 <=? StatusCode (response w3))
               && (StatusCode (response w3) <=? 999)) with false by lia.
      cbn [fst snd recovered].
      destruct (innermost_spec (Some e2) w3) as (_ & _ & _ & _ & _ & ->).
      destruct (Error_spec (writer w3) "Internal Server Error" 500) as (-> & _).
      rewrite Hfresh. reflexivity.
  - cbn [recovered].
    destruct (innermost_spec (Some e2) w3) as (_ & _ & _ & _ & _ & ->).
    destruct (Error_spec (writer w3) "Internal Server Error" 500) as (-> & _).
    rewrite Hfresh. reflexivity.
Qed.

(** When the body returns, the form has parsed, the action has returned
    its values, and these are in [result]. *)
Lemma body_returned (r : Request) (t : Target) (w wb : World) :
  body app r t w = (Ret tt, wb) ->
  kind t <> FieldOther
  /\ multipartErr r = None
  /\ exists w0 res w1,
      match kind t with
      | FieldStruct => on_copy (method t) w0
      | _ => on_cc (method t) w0
      end = (Ret res, w1)
      /\ wb = set_result res w1.
Proof.
  unfold body. intros H. destruct (kind t) eqn:K; [| |discriminate H];
    (split; [discriminate|]);
    unfold mbind at 1 in H; cbn [mupd] in H;
    (destruct (multipartErr r) as [err|]; [discriminate H|]);
    (split; [reflexivity|]);
    unfold mbind at 1 in H; cbn [mupd] in H;
    apply mbind_inv in H as [(a & w1 & H1 & H2) | (e & H1 & H2)];
    try discriminate H2;
    apply mbind_inv in H2 as [(res & w2 & H2 & H3) | (e & H2 & H3)];
    try discriminate H3;
    exists w1, res, w2; (split; [exact H2|]); now inversion H3.
Qed.

End RenderFacts.

(** ** server.go: handler *)

Section HandlerFacts.

Import Server.
Local Open Scope list_scope.

Variable dispatch : Request -> option Target.

(** Without a route [handler] answers with [http.NotFound] and touches
    nothing else. *)
Lemma handler_no_match (req : Request) (s : World) :
  dispatch req = None ->
  handler dispatch req s
  = (Ret tt, {| logs := logs s; writer := Http.NotFound (writer s) |}).
Proof. intros H. unfold handler. rewrite H. reflexivity. Qed.

(** A fault of the action is logged, with the stack, and answered with
    [http.Error] on the writer as the action leaves it. *)
Lemma handler_fault (req : Request) (t : Target) (e : string) (s : World)
    (w1 : Http.ResponseWriter) :
  dispatch req = Some t ->
  method t {| Name := TypeName t; Request_ := req |} (writer s) = (Panic e, w1) ->
  handler dispatch req s
  = (Ret tt,
     {| logs := logs s ++ [LogPrint e; LogStack];
        writer := Http.Error w1 "500 Internal Server Error" 500 |}).
Proof.
  intros Hd Hm. unfold handler, with_defer. rewrite Hd.
  unfold mbind at 1, with_writer. rewrite Hm. cbn [recovered].
  unfold mbind, log_Print, on_writer, mupd. simpl.
  rewrite <- app_assoc. reflexivity.
Qed.

Lemma serve_no_match (lg : list LogEntry) (req : Request) :
  dispatch req = None ->
  serve dispatch lg req = (Http.NotFound Http.NewRecorder, lg).
Proof. intros H. unfold serve. rewrite handler_no_match by exact H. reflexivity. Qed.

End HandlerFacts.
(** ** The error controller of the test application *)

Lemma ErrorController_sets_status (formats : gmap string string)
    (templates : string -> string -> option (res string)) :
  DispatchSpec.sets_status (ErrorController.Get formats templates).
Proof.
  intros code e r e'. unfold ErrorController.Get.
  destruct (String.eqb (Controller.Get formats _) ""); [discriminate|].
  destruct (templates _ _); intros H; inversion H; reflexivity.
Qed.

(** ** The dispatcher: faults *)

(** C1, as amended: no fault leaves [render].  When the body of [render]
    faults (a [Before] hook, the action or what precedes them), the
    fault is logged first.  If the deferred function then returns, the
    Result that the error controller of status 500 returned is in
    [result] and has been run after the status line; if it faults in
    turn, that fault is logged too and the response ends with the plain
    text of [http.Error]; if the fault is that of the error controller,
    no [After] hook has run.  The status of the response is 500 if
    nothing had been sent when the [After] hooks were over, the error
    controller has set its status code and the [After] hooks leave the
    status code alone.  A fault of an [After] hook after a body that
    returned is logged and answered with that plain text as well, under
    status 500 if nothing had been sent.  [handler] of server.go logs a
    fault of the action and answers with [http.Error], under status 500
    if the action had sent nothing. *)
Theorem fault_is_answered_with_500 :
  (forall (ErrorGet : Z -> M Kocha.Env Kocha.Result) (app : Kocha.Application)
          (r : Kocha.Request) (t : Kocha.Target)
          (wr : Http.ResponseWriter) (lg : list LogEntry),
      fst (Kocha.render ErrorGet app wr lg r t) = Ret tt)
  /\ (forall (ErrorGet : Z -> M Kocha.Env Kocha.Result) (app : Kocha.Application)
            (r : Kocha.Request) (t : Kocha.Target)
            (wr : Http.ResponseWriter) (lg : list LogEntry) (e : string),
        fst (Kocha.body app r t (Kocha.init wr lg)) = Panic e ->
        let wb := snd (Kocha.body app r t (Kocha.init wr lg)) in
        let get :=
          Kocha.on_cc (Kocha.errorGet ErrorGet 500)
            (snd (Kocha.attach (Kocha.add_log (LogError e) wb))) in
        let h := Kocha.after_hooks ErrorGet app (Some e) wb in
        let d := Kocha.deferred ErrorGet app (Some e) wb in
        let out := Kocha.render ErrorGet app wr lg r t in
        (Http.Code (Kocha.writer (snd h)) = None ->
         DispatchSpec.sets_status ErrorGet ->
         Forall (fun m => DispatchSpec.keeps_status (Kocha.After m))
           (Kocha.Middlewares (Kocha.Config_ app)) ->
         Http.Code (Kocha.writer (snd out)) = Some 500)
        /\ match fst d with
           | Ret _ =>
               Kocha.logs (snd out) = (lg ++ [LogError e])%list
               /\ exists r0 ws,
                   fst get = Ret r0
                   /\ Kocha.result (snd out) = [Kocha.VResult r0]
                   /\ Http.WriteHeader
                        (Kocha.StatusCode (Kocha.response (snd h)))
                        (Kocha.writer (snd h)) = Ret ws
                   /\ Http.apply_ops
                        (fst (Kocha.Proc r0 (Kocha.response (snd h)))) ws
                      = (Kocha.writer (snd out), None)
           | Panic e2 =>
               Kocha.logs (snd out) = (lg ++ [LogError e; LogError e2])%list
               /\ Kocha.writer (snd out)
                  = Http.Error (Kocha.writer (snd d)) "Internal Server Error" 500
           end
        /\ (forall e2, fst get = Panic e2 ->
              fst d = Panic e2 /\ Kocha.calls (snd out) = Kocha.calls wb))
  /\ (forall (ErrorGet : Z -> M Kocha.Env Kocha.Result) (app : Kocha.Application)
            (r : Kocha.Request) (t : Kocha.Target)
            (wr : Http.ResponseWriter) (lg : list LogEntry) (e2 : string),
        fst (Kocha.body app r t (Kocha.init wr lg)) = Ret tt ->
        let h :=
          Kocha.after_hooks ErrorGet app None
            (snd (Kocha.body app r t (Kocha.init wr lg))) in
        let out := Kocha.render ErrorGet app wr lg r t in
        fst h = Panic e2 ->
        Kocha.logs (snd out) = (lg ++ [LogError e2])%list
        /\ Kocha.writer (snd out)
           = Http.Error (Kocha.writer (snd h)) "Internal Server Error" 500
        /\ (Http.Code (Kocha.writer (snd h)) = None ->
            Http.Code (Kocha.writer (snd out)) = Some 500))
  /\ (forall (dispatch : Server.Request -> option Server.Target)
            (req : Server.Request) (t : Server.Target) (e : string)
            (s : Server.World) (w1 : Http.ResponseWriter),
        dispatch req = Some t ->
        Server.method t {| Server.Name := Server.TypeName t;
                           Server.Request_ := req |} (Server.writer s)
        = (Panic e, w1) ->
        Server.handler dispatch req s
        = (Ret tt,
           {| Server.logs := (Server.logs s ++ [LogPrint e; LogStack])%list;
              Server.writer :=
                Http.Error w1 "500 Internal Server Error" 500 |})
        /\ (Http.Code w1 = None ->
            Http.Code (Http.Error w1 "500 Internal Server Error" 500)
            = Some 500)).
Proof.
  split; [|split; [|split]].
  - intros. apply render_returns.
  - intros ErrorGet app r t wr lg e Hbody wb get h d out.
    pose proof (render_status ErrorGet app wr lg r t) as Hst.
    pose proof (render_spec ErrorGet app wr lg r t) as (Hc & Hr & Ho).
    destruct (body_spec app r t wr lg _ _
                (surjective_pairing (Kocha.body app r t (Kocha.init wr lg))))
      as (Lb & _).
    cbv zeta in Hst, Hc, Hr, Ho. rewrite Hbody in Hst, Hc, Hr, Ho.
    cbn [recovered] in Hst, Hc, Hr, Ho. fold wb in Hst, Hc, Hr, Ho, Lb.
    fold h in Hst. fold d in Hc, Hr, Ho. fold out in Hst, Hc, Hr, Ho.
    destruct (after_hooks_fault_returns ErrorGet app e wb) as (Hret & Hpan).
    fold get h in Hret, Hpan.
    pose proof (after_hooks_logs ErrorGet app (Some e) wb) as Hl.
    fold h in Hl. rewrite Lb in Hl.
    destruct (deferred_spec ErrorGet app (Some e) wb)
      as (D1 & D2 & D3 & D4 & D5 & _ & _ & D8).
    fold h d in D1, D2, D3, D4, D5, D8.
    split; [|split].
    + intros Hfresh Hsets Hkeep. rewrite (Hst Hfresh).
      destruct (fst h) as [[]|e2] eqn:Hh; [|reflexivity].
      destruct (Hret eq_refl) as (r0 & _ & _ & S).
      rewrite (S Hsets Hkeep). reflexivity.
    + destruct (fst d) as [[]|e2] eqn:Hd.
      * rewrite Ho. split; [congruence|].
        destruct (D8 eq_refl) as (Hh & r0 & rest & ws & R1 & R2 & R3 & R4).
        destruct (Hret Hh) as (r1 & G1 & G2 & _).
        rewrite G2 in R1. inversion R1; subst r1 rest.
        exists r0, ws. repeat split; try assumption. congruence.
      * destruct Ho as (L & _ & W). split; [|exact W].
        rewrite L, D2, Hl, <- app_assoc. reflexivity.
    + intros e2 Hg. specialize (Hpan e2 Hg).
      assert (Hh : fst h = Panic e2) by (rewrite Hpan; reflexivity).
      rewrite (D5 e2 Hh). split; [reflexivity|].
      rewrite Hc, (D5 e2 Hh), Hpan. cbn [snd].
      pose proof (attach_spec e wb) as AS. cbv zeta in AS.
      destruct AS as (_ & _ & C1 & _).
      clear Hg Hpan Hret. subst get.
      destruct (Kocha.on_cc _ _) as [rg wg] eqn:E.
      cbn [snd]. apply on_cc_kept in E as (_ & _ & A3 & _).
      congruence.
  - intros ErrorGet app r t wr lg e2 Hbody h out Hh.
    pose proof (render_status ErrorGet app wr lg r t) as Hst.
    pose proof (render_spec ErrorGet app wr lg r t) as (_ & _ & Ho).
    destruct (body_spec app r t wr lg _ _
                (surjective_pairing (Kocha.body app r t (Kocha.init wr lg))))
      as (Lb & _).
    cbv zeta in Hst, Ho. rewrite Hbody in Hst, Ho.
    cbn [recovered] in Hst, Ho. fold h in Hst. fold out in Hst, Ho.
    pose proof (after_hooks_logs ErrorGet app None
                  (snd (Kocha.body app r t (Kocha.init wr lg)))) as Hl.
    fold h in Hl. rewrite Lb, app_nil_r in Hl.
    destruct (deferred_spec ErrorGet app None
                (snd (Kocha.body app r t (Kocha.init wr lg))))
      as (_ & _ & _ & _ & D5 & _).
    fold h in D5. rewrite (D5 e2 Hh) in Ho. cbn [fst snd] in Ho.
    destruct Ho as (L & _ & W).
    split; [congruence|]. split; [exact W|].
    intros Hfresh. rewrite (Hst Hfresh), Hh. reflexivity.
  - intros dispatch req t e s w1 Hd Hm.
    split; [now apply (handler_fault dispatch req t)|].
    intros Hc.
    destruct (Error_spec w1 "500 Internal Server Error" 500) as (-> & _).
    rewrite Hc. reflexivity.
Qed.

(** The same on the test applications: an action that faults, an [After]
    hook that faults, and the faulting action of server.go. *)
Lemma fault_is_answered_with_500_witness :
  (let out := App.serve [App.session; App.contentType] "/error" in
   fst out = Ret tt
   /\ Http.Code (Kocha.writer (snd out)) = Some 500
   /\ Kocha.logs (snd out) = [LogError "panic test"])
  /\ (let out := App.serve [App.failing; App.session] "/" in
      Http.Code (Kocha.writer (snd out)) = Some 500
      /\ Kocha.logs (snd out) = [LogError "after failed"])
  /\ Server.serve ServerApp.dispatch [] (ServerApp.get "/error")
     = (Http.Error Http.NewRecorder "500 Internal Server Error" 500,
        [LogPrint "panic test"; LogStack]).
Proof.
  destruct fault_is_answered_with_500 as (H1 & H2 & H4 & H3).
  split; [|split].
  - set (t := {| Kocha.kind := Kocha.FieldPtr; Kocha.TypeName := "Error";
                 Kocha.method := App.errorAction |}).
    change (App.serve [App.session; App.contentType] "/error")
      with (Kocha.render App.ErrorGet (App.app [App.session; App.contentType])
              Http.NewRecorder [] (App.get "/error") t).
    split; [apply H1|].
    assert (Hk : Forall (fun m => DispatchSpec.keeps_status (Kocha.After m))
                   (Kocha.Middlewares
                      (Kocha.Config_ (App.app [App.session; App.contentType])))).
    { repeat constructor. }
    assert (Hb : fst (Kocha.body (App.app [App.session; App.contentType])
                        (App.get "/error") t (Kocha.init Http.NewRecorder []))
                 = Panic "panic test") by (vm_compute; reflexivity).
    pose proof (H2 App.ErrorGet (App.app [App.session; App.contentType])
                  (App.get "/error") t Http.NewRecorder [] "panic test" Hb)
      as (Hcode & Hlog & _).
    split.
    + apply Hcode; [vm_compute; reflexivity| |exact Hk].
      apply ErrorController_sets_status.
    + vm_compute. reflexivity.
  - set (t := {| Kocha.kind := Kocha.FieldPtr; Kocha.TypeName := "Root";
                 Kocha.method := App.rootAction |}).
    change (App.serve [App.failing; App.session] "/")
      with (Kocha.render App.ErrorGet (App.app [App.failing; App.session])
              Http.NewRecorder [] (App.get "/") t).
    assert (Hb : fst (Kocha.body (App.app [App.failing; App.session])
                        (App.get "/") t (Kocha.init Http.NewRecorder []))
                 = Ret tt) by (vm_compute; reflexivity).
    assert (Ha : fst (Kocha.after_hooks App.ErrorGet
                        (App.app [App.failing; App.session]) None
                        (snd (Kocha.body (App.app [App.failing; App.session])
                                (App.get "/") t (Kocha.init Http.NewRecorder []))))
                 = Panic "after failed") by (vm_compute; reflexivity).
    pose proof (H4 App.ErrorGet (App.app [App.failing; App.session])
                  (App.get "/") t Http.NewRecorder [] "after failed"
                  Hb Ha) as (Hlog & _ & Hcode).
    split; [|exact Hlog]. apply Hcode. vm_compute. reflexivity.
  - unfold Server.serve.
    destruct (H3 ServerApp.dispatch (ServerApp.get "/error")
                {| Server.TypeName := "Error";
                   Server.method := fun _ => mpanic "panic test" |}
                "panic test"
                {| Server.logs := []; Server.writer := Http.NewRecorder |}
                Http.NewRecorder eq_refl eq_refl) as (-> & _).
    reflexivity.
Defined.

(** C1, as stated, fails.  An action that has started to write its
    answer and then faults is answered under the status already sent,
    200; and after an action that faults, an [After] hook that sets the
    status code decides the status, here 503. *)
Lemma fault_answered_with_another_status :
  (let t := {| Kocha.kind := Kocha.FieldPtr; Kocha.TypeName := "Partial";
               Kocha.method := App.partialAction |} in
   let out := App.serve [App.session] "/partial" in
   fst (Kocha.body (App.app [App.session]) (App.get "/partial") t
          (Kocha.init Http.NewRecorder [])) = Panic "panic test"
   /\ Http.Code (Kocha.writer (snd out)) = Some 200
   /\ Http.Body (Kocha.writer (snd out)) = "partialInternal Server Error"
   /\ Kocha.logs (snd out) = [LogError "panic test"])
  /\ (let t := {| Kocha.kind := Kocha.FieldPtr; Kocha.TypeName := "Error";
                  Kocha.method := App.errorAction |} in
      let out := App.serve [App.maintenance] "/error" in
      fst (Kocha.body (App.app [App.maintenance]) (App.get "/error") t
             (Kocha.init Http.NewRecorder [])) = Panic "panic test"
      /\ Http.Code (Kocha.writer (snd out)) = Some 503
      /\ Kocha.logs (snd out) = [LogError "panic test"]).
Proof. repeat split; vm_compute; reflexivity. Qed.

(** ** The dispatcher: After hooks *)

(** C2, as amended: when the recovery block, if the body has faulted,
    and every [After] hook return, the calls that [render] makes to the
    hooks are those to the [Before] hooks of the first [k] middlewares,
    of all of them if the body has returned, followed by those to the
    [After] hooks of all the middlewares, once each and in the order of
    [Config.Middlewares]. *)
Theorem After_hooks_run_once_in_order
    (ErrorGet : Z -> M Kocha.Env Kocha.Result) (app : Kocha.Application)
    (r : Kocha.Request) (t : Kocha.Target)
    (wr : Http.ResponseWriter) (lg : list LogEntry) :
  let ms := Kocha.Middlewares (Kocha.Config_ app) in
  let b := Kocha.body app r t (Kocha.init wr lg) in
  let h := Kocha.after_hooks ErrorGet app (recovered (fst b)) (snd b) in
  let out := Kocha.render ErrorGet app wr lg r t in
  fst h = Ret tt ->
  exists k,
    (k <= length ms)%nat
    /\ Kocha.calls (snd out)
       = (map Kocha.CallBefore (firstn k ms) ++ map Kocha.CallAfter ms)%list
    /\ (fst b = Ret tt -> k = length ms).
Proof.
  intros ms b h out Hh.
  pose proof (render_spec ErrorGet app wr lg r t) as (Hc & _).
  destruct (deferred_spec ErrorGet app (recovered (fst b)) (snd b))
    as (D1 & _).
  destruct (after_hooks_calls ErrorGet app (recovered (fst b)) (snd b))
    as (_ & A).
  destruct (body_spec app r t wr lg _ _ (surjective_pairing b))
    as (_ & _ & k & Hk & Cb & Kb).
  exists k. split; [exact Hk|]. split; [|exact Kb].
  fold b in Hc. fold out in Hc. fold h in D1, A.
  rewrite Hc, D1, (A Hh), Cb. reflexivity.
Qed.

(** The same on the test application with two middlewares and an action
    that faults. *)
Lemma After_hooks_run_once_in_order_witness :
  let ms := [App.session; App.contentType] in
  let t := {| Kocha.kind := Kocha.FieldPtr; Kocha.TypeName := "Error";
              Kocha.method := App.errorAction |} in
  fst (Kocha.body (App.app ms) (App.get "/error") t
         (Kocha.init Http.NewRecorder [])) = Panic "panic test"
  /\ exists k,
      Kocha.calls
        (snd (Kocha.render App.ErrorGet (App.app ms) Http.NewRecorder []
                (App.get "/error") t))
      = (map Kocha.CallBefore (firstn k ms)
         ++ [Kocha.CallAfter App.session; Kocha.CallAfter App.contentType])%list.
Proof.
  intros ms t. split; [vm_compute; reflexivity|].
  destruct (After_hooks_run_once_in_order App.ErrorGet (App.app ms)
              (App.get "/error") t Http.NewRecorder [])
    as (k & _ & H & _).
  - vm_compute. reflexivity.
  - exists k. exact H.
Defined.

(** C2, as stated, fails: the [After] hook of the first middleware
    faults, and the [After] hook of the second is never called, whatever
    the error controller is. *)
Lemma After_hook_skipped_after_faulting_After :
  Kocha.Middlewares (Kocha.Config_ (App.app [App.failing; App.session]))
  = [App.failing; App.session]
  /\ forall ErrorGet : Z -> M Kocha.Env Kocha.Result,
      let w :=
        snd (Kocha.ServeHTTP ErrorGet (App.app [App.failing; App.session])
               Http.NewRecorder [] (App.get "/")) in
      Kocha.calls w
      = [Kocha.CallBefore App.failing; Kocha.CallBefore App.session;
         Kocha.CallAfter App.failing]
      /\ ~ In (Kocha.CallAfter App.session) (Kocha.calls w)
      /\ Kocha.logs w = [LogError "after failed"].
Proof.
  split; [reflexivity|].
  intros ErrorGet w.
  assert (Hc : Kocha.calls w
               = [Kocha.CallBefore App.failing; Kocha.CallBefore App.session;
                  Kocha.CallAfter App.failing]) by (vm_compute; reflexivity).
  split; [exact Hc|]. split; [|vm_compute; reflexivity].
  rewrite Hc. intros [H|[H|[H|[]]]]; try discriminate H.
  apply (f_equal (fun c =>
                    match c with
                    | Kocha.CallAfter m =>
                        fst (Kocha.After m
                               {| Kocha.ctl := {| Kocha.Name := "";
                                                  Kocha.Layout := "";
                                                  Kocha.HasResponse := true |};
                                  Kocha.ctx := ∅;
                                  Kocha.rsp := Kocha.newResponse;
                                  Kocha.wr := Http.NewRecorder |})
                    | Kocha.CallBefore _ => Ret tt
                    end)) in H.
  discriminate H.
Qed.

(** Nor is any [After] hook called when the action picks a content type
    without a format and faults: the error controller faults in turn. *)
Example After_hooks_skipped_when_error_controller_faults :
  let w := snd (App.serve [App.session; App.contentType] "/png") in
  Kocha.calls w
  = [Kocha.CallBefore App.session; Kocha.CallBefore App.contentType]
  /\ Kocha.logs w
     = [LogError "panic test"; LogError "unknown Content-Type: image/png"]
  /\ Http.Code (Kocha.writer w) = Some 500.
Proof. repeat split; vm_compute; reflexivity. Qed.

(** ** The dispatcher: requests without a route *)

Section NotFoundFacts.

Import Kocha DispatchSpec.

Variable ErrorGet : Z -> M Env Result.
Variable app : Application.

(** When the body of [render] returns on the error controller of status
    404, the status code of the response is 404. *)
Lemma body_notFound_status (r : Request) (w wb : World) :
  sets_status ErrorGet ->
  body app r (notFoundTarget ErrorGet) w = (Ret tt, wb) ->
  StatusCode (response wb) = 404.
Proof.
  intros Hs Hb. apply body_returned in Hb as (_ & _ & w0 & res & w1 & Hc & ->).
  cbn [kind notFoundTarget method] in Hc. simpl.
  revert Hc. unfold on_cc. destruct (cc w0) as [c|]; [|discriminate].
  unfold mbind, errorGet, env_of, absorb.
  destruct (HasResponse c) eqn:Hr; cbn [ctl HasResponse]; rewrite ?Hr;
    [|discriminate].
  destruct (ErrorGet Http.StatusNotFound _) as [[r1|e1] e'] eqn:E;
    [|discriminate].
  cbn [mret]. intros H. inversion H; subst; clear H. simpl.
  eapply Hs. exact E.
Qed.

End NotFoundFacts.

(** C3, as amended: for a request without a route [ServeHTTP] runs
    [render] on the error controller of status 404.  When the body of
    [render] returns, that is when the form parses, every [Before] hook
    returns and the error controller returns its Result, and every
    [After] hook returns, every middleware has been called before and
    after, in the order of [Config.Middlewares]; and the status line is
    404 if nothing had been sent when the [After] hooks were over, the
    error controller has set its status code and the [After] hooks
    leave the status code alone.  [handler] of server.go, which knows no
    middleware, answers with [http.NotFound] and does nothing else. *)
Theorem no_match_is_answered_with_404 :
  (forall (ErrorGet : Z -> M Kocha.Env Kocha.Result) (app : Kocha.Application)
          (r : Kocha.Request) (wr : Http.ResponseWriter) (lg : list LogEntry),
      Kocha.Router_dispatch app r = None ->
      let ms := Kocha.Middlewares (Kocha.Config_ app) in
      let t := Kocha.notFoundTarget ErrorGet in
      let b := Kocha.body app r t (Kocha.init wr lg) in
      let h := Kocha.after_hooks ErrorGet app None (snd b) in
      let out := Kocha.ServeHTTP ErrorGet app wr lg r in
      out = Kocha.render ErrorGet app wr lg r t
      /\ (fst b = Ret tt ->
          Kocha.multipartErr r = None
          /\ (fst h = Ret tt ->
              Kocha.calls (snd out)
              = (map Kocha.CallBefore ms ++ map Kocha.CallAfter ms)%list
              /\ (Http.Code (Kocha.writer (snd h)) = None ->
                  DispatchSpec.sets_status ErrorGet ->
                  Forall (fun m => DispatchSpec.keeps_status (Kocha.After m)) ms ->
                  Http.Code (Kocha.writer (snd out)) = Some 404))))
  /\ (forall (dispatch : Server.Request -> option Server.Target)
            (req : Server.Request) (s : Server.World),
        dispatch req = None ->
        Server.handler dispatch req s
        = (Ret tt,
           {| Server.logs := Server.logs s;
              Server.writer := Http.NotFound (Server.writer s) |})
        /\ (Http.Code (Server.writer s) = None ->
            Http.Code (Http.NotFound (Server.writer s)) = Some 404)).
Proof.
  split.
  - intros ErrorGet app r wr lg Hd ms t b h out.
    assert (Ho : out = Kocha.render ErrorGet app wr lg r t).
    { subst out. unfold Kocha.ServeHTTP. rewrite Hd. reflexivity. }
    split; [exact Ho|]. intros Hb.
    pose proof (surjective_pairing b) as Eb. rewrite Hb in Eb.
    destruct (body_returned app r t _ _ Eb) as (_ & Hm & _).
    split; [exact Hm|]. intros Hh.
    pose proof (render_spec ErrorGet app wr lg r t) as (Hc & _).
    pose proof (render_status ErrorGet app wr lg r t) as Hst.
    destruct (deferred_spec ErrorGet app (recovered (fst b)) (snd b))
      as (D1 & _).
    destruct (after_hooks_calls ErrorGet app (recovered (fst b)) (snd b))
      as (_ & A).
    destruct (body_spec app r t wr lg _ _ (surjective_pairing b))
      as (_ & _ & k & Hk & Cb & Kb).
    cbv zeta in Hst. fold b in Hc, Hst. rewrite Hb in D1, A, Hst.
    cbn [recovered] in D1, A, Hst. fold h in D1, A, Hst.
    rewrite Ho. split.
    + rewrite Hc. fold b. rewrite Hb. cbn [recovered]. rewrite D1, (A Hh), Cb.
      rewrite (Kb Hb), firstn_all. reflexivity.
    + intros Hfresh Hs Hkeep. rewrite (Hst Hfresh), Hh.
      pose proof (run_hooks_keeps_status Kocha.After Kocha.CallAfter ms Hkeep
                    (snd b)) as K.
      change (Kocha.run_hooks Kocha.After Kocha.CallAfter ms (snd b)) with h in K.
      rewrite K, (body_notFound_status ErrorGet app r _ _ Hs Eb).
      reflexivity.
  - intros dispatch req s H. split; [now apply handler_no_match|].
    intros Hc. unfold Http.NotFound.
    destruct (Error_spec (Server.writer s) "404 page not found"
                Http.StatusNotFound) as (E & _).
    rewrite E, Hc. reflexivity.
Qed.

(** The same on the test applications and the path [/missing]. *)
Lemma no_match_is_answered_with_404_witness :
  (let out := App.serve [App.session; App.contentType] "/missing" in
   Kocha.calls (snd out)
   = [Kocha.CallBefore App.session; Kocha.CallBefore App.contentType;
      Kocha.CallAfter App.session; Kocha.CallAfter App.contentType]
   /\ Http.Code (Kocha.writer (snd out)) = Some 404)
  /\ Server.handler ServerApp.dispatch (ServerApp.get "/missing")
       {| Server.logs := []; Server.writer := Http.NewRecorder |}
     = (Ret tt,
        {| Server.logs := [];
           Server.writer := Http.NotFound Http.NewRecorder |}).
Proof.
  destruct no_match_is_answered_with_404 as (H1 & H2).
  split.
  - destruct (H1 App.ErrorGet (App.app [App.session; App.contentType])
                (App.get "/missing") Http.NewRecorder [] eq_refl)
      as (_ & H).
    destruct H as (_ & H); [vm_compute; reflexivity|].
    destruct H as (Hc & Hs); [vm_compute; reflexivity|].
    split; [exact Hc|].
    apply Hs; [vm_compute; reflexivity|apply ErrorController_sets_status|].
    repeat constructor.
  - apply (H2 ServerApp.dispatch (ServerApp.get "/missing")). reflexivity.
Defined.

(** C3, as stated, fails: for a request without a route [ServeHTTP]
    calls the [Before] hook of both middlewares, whatever the error
    controller is. *)
Lemma no_match_calls_the_middlewares :
  Kocha.Router_dispatch (App.app [App.session; App.contentType])
    (App.get "/missing") = None
  /\ forall ErrorGet : Z -> M Kocha.Env Kocha.Result,
      exists l,
        Kocha.calls
          (snd (Kocha.ServeHTTP ErrorGet (App.app [App.session; App.contentType])
                  Http.NewRecorder [] (App.get "/missing")))
        = Kocha.CallBefore App.session :: Kocha.CallBefore App.contentType :: l.
Proof.
  split; [reflexivity|]. intros ErrorGet.
  set (app := App.app [App.session; App.contentType]).
  set (t := Kocha.notFoundTarget ErrorGet).
  change (Kocha.ServeHTTP ErrorGet app Http.NewRecorder [] (App.get "/missing"))
    with (Kocha.render ErrorGet app Http.NewRecorder [] (App.get "/missing") t).
  pose proof (render_spec ErrorGet app Http.NewRecorder [] (App.get "/missing") t)
    as (Hc & _).
  set (b := Kocha.body app (App.get "/missing") t (Kocha.init Http.NewRecorder []))
    in *.
  destruct (deferred_spec ErrorGet app (recovered (fst b)) (snd b)) as (D1 & _).
  destruct (after_hooks_calls ErrorGet app (recovered (fst b)) (snd b))
    as ((k & _ & A) & _).
  rewrite Hc, D1, A.
  assert (Cb : Kocha.calls (snd b)
               = [Kocha.CallBefore App.session; Kocha.CallBefore App.contentType]).
  { subst b. unfold Kocha.body. cbn [Kocha.kind t Kocha.notFoundTarget].
    unfold mbind at 1. cbn [mupd]. cbn [Kocha.multipartErr App.get].
    unfold mbind at 1. cbn [mupd].
    set (w0 := Kocha.set_cc _ _).
    assert (Hrh : fst (Kocha.run_hooks Kocha.Before Kocha.CallBefore
                         (Kocha.Middlewares (Kocha.Config_ app)) w0) = Ret tt
                  /\ Kocha.calls
                       (snd (Kocha.run_hooks Kocha.Before Kocha.CallBefore
                               (Kocha.Middlewares (Kocha.Config_ app)) w0))
                     = [Kocha.CallBefore App.session;
                        Kocha.CallBefore App.contentType]).
    { split; vm_compute; reflexivity. }
    unfold mbind at 1.
    destruct (Kocha.run_hooks Kocha.Before Kocha.CallBefore _ w0)
      as [rh wh]. cbn [fst snd] in Hrh.
    destruct Hrh as [-> Hwh].
    unfold mbind.
    destruct (Kocha.on_cc _ wh) as [[res|e] w1] eqn:E;
      apply on_cc_kept in E as (_ & _ & A3 & _); cbn [snd]; simpl; congruence. }
  rewrite Cb. eexists. reflexivity.
Qed.

(** C8: a request without a route leaves the logger, the state that
    [handler] shares between requests, as it was and is answered with
    the response of [http.NotFound], status 404; served any number of
    times in a row it is answered the same every time. *)
Theorem unmatched_request_is_idempotent
    (dispatch : Server.Request -> option Server.Target)
    (req : Server.Request) (lg : list LogEntry) (n : nat) :
  dispatch req = None ->
  Server.serve dispatch lg req = (Http.NotFound Http.NewRecorder, lg)
  /\ Server.serve_all dispatch lg (repeat req n)
     = (repeat (Http.NotFound Http.NewRecorder) n, lg)
  /\ Http.status (Http.NotFound Http.NewRecorder) = 404.
Proof.
  intros H. split; [now apply serve_no_match|]. split; [|reflexivity].
  induction n as [|n IH]; [reflexivity|].
  cbn [repeat Server.serve_all]. rewrite serve_no_match by exact H.
  rewrite IH. reflexivity.
Qed.

(** The same on the routes of the test and the path [/missing], twice. *)
Lemma unmatched_request_is_idempotent_witness :
  Server.serve_all ServerApp.dispatch [] (repeat (ServerApp.get "/missing") 2)
  = ([Http.NotFound Http.NewRecorder; Http.NotFound Http.NewRecorder], [])
  /\ Http.status (Http.NotFound Http.NewRecorder) = 404.
Proof.
  apply (unmatched_request_is_idempotent ServerApp.dispatch
           (ServerApp.get "/missing") [] 2).
  reflexivity.
Defined.

(** ** The scenarios of the test

    [TestServer] on the model: a route with a template, no route, and an
    action that faults, through [handler] of server.go and through
    [ServeHTTP] of kocha.go with two middlewares. *)

Example TestServer_handler :
  map Http.status
    (fst (Server.serve_all ServerApp.dispatch []
            (map ServerApp.get ["/"; "/missing"; "/missing"; "/error"])))
  = [200; 404; 404; 500].
Proof. vm_compute. reflexivity. Qed.

Example TestServer_ServeHTTP :
  map (fun path =>
         let w := Kocha.writer (snd (App.serve [App.session; App.contentType] path)) in
         (Http.status w, Http.Body w))
    ["/"; "/missing"; "/error"]
  = [(200, "tmpl1"); (404, "Not Found"); (500, "Internal Server Error")].
Proof. vm_compute. reflexivity. Qed.

(** ** More on path.Clean and normPath *)

Section CleanFixed.

Import Path PathSpec PathElems.
Local Open Scope list_scope.
Local Open Scope nat_scope.

Lemma join_cons_sep (e : list ascii) (E : list (list ascii)) :
  join (e :: E) = e ++ sep_elems E.
Proof.
  revert e; induction E as [|x E IH]; intros e.
  - simpl. symmetry. apply app_nil_r.
  - change (join (e :: x :: E)) with (e ++ slash :: join (x :: E)).
    rewrite IH. reflexivity.
Qed.

Lemma clean_loop_nil (f : nat) (rooted : bool) (out : list ascii) (dd : nat) :
  clean_loop f rooted [] out dd = out.
Proof. destruct f; reflexivity. Qed.

Lemma copy_elem_app (e rest : list ascii) :
  noslash e = true ->
  starts_slash rest = true \/ rest = [] ->
  copy_elem (e ++ rest) = (e, rest).
Proof.
  intros He Hr. induction e as [|c e IH]; cbn [app].
  - destruct Hr as [Hr | ->]; [|reflexivity].
    destruct rest as [|d rest]; [discriminate|]. simpl in *. now rewrite Hr.
  - simpl in He. apply andb_true_iff in He as [Hc He].
    apply negb_true_iff in Hc. cbn [copy_elem]. rewrite Hc, (IH He). reflexivity.
Qed.

Lemma step_slash (f : nat) (rooted : bool) (rest out : list ascii) (dd : nat) :
  clean_loop (Datatypes.S f) rooted (slash :: rest) out dd
  = clean_loop f rooted rest out dd.
Proof. reflexivity. Qed.

(** The iteration of the loop on a name: the default case. *)
Lemma step_name (f : nat) (rooted : bool) (e rest out : list ascii) (dd : nat) :
  name_ok e ->
  starts_slash rest = true \/ rest = [] ->
  clean_loop (Datatypes.S f) rooted (e ++ rest) out dd
  = clean_loop f rooted rest
      ((if (rooted && negb (length out =? 1)) || (negb rooted && negb (length out =? 0))
        then out ++ [slash] else out) ++ e) dd.
Proof.
  intros (Hne & Hns & Hd & Hdd) Hr.
  pose proof (copy_elem_app e rest Hns Hr) as Hc.
  destruct e as [|c e']; [contradiction|].
  pose proof Hns as Hns'. cbn [noslash forallb] in Hns'.
  apply andb_true_iff in Hns' as [Hc0 Hns'']. apply negb_true_iff in Hc0.
  cbn [app] in *. cbn [clean_loop]. rewrite Hc0.
  assert (H1 : Ascii.eqb c dot && ends_elem (c :: e' ++ rest) 1 = false).
  { destruct (Ascii.eqb_spec c dot) as [->|]; [|reflexivity].
    destruct e' as [|d e'']; [contradiction Hd; reflexivity|].
    cbn [forallb] in Hns''. apply andb_true_iff in Hns'' as [Hd0 _].
    apply negb_true_iff in Hd0. unfold ends_elem. simpl. exact Hd0. }
  assert (H2 : Ascii.eqb c dot && at_is (c :: e' ++ rest) 1 dot
               && ends_elem (c :: e' ++ rest) 2 = false).
  { destruct (Ascii.eqb_spec c dot) as [->|]; [|reflexivity].
    destruct e' as [|d e'']; [contradiction Hd; reflexivity|].
    unfold at_is. simpl.
    destruct (Ascii.eqb_spec d dot) as [->|]; [|reflexivity].
    destruct e'' as [|x e3]; [contradiction Hdd; reflexivity|].
    cbn [forallb] in Hns''. apply andb_true_iff in Hns'' as [_ Hx].
    apply andb_true_iff in Hx as [Hx _]. apply negb_true_iff in Hx.
    unfold ends_elem. simpl. exact Hx. }
  rewrite H1, H2, Hc. reflexivity.
Qed.

(** The iteration on [..] where nothing can be backtracked over, on a
    path that is not rooted. *)
Lemma step_dotdot (f : nat) (rest out : list ascii) (dd : nat) :
  (dd <? length out) = false ->
  starts_slash rest = true \/ rest = [] ->
  clean_loop (Datatypes.S f) false ([dot; dot] ++ rest) out dd
  = let out2 := (if 0 <? length out then out ++ [slash] else out) ++ [dot; dot] in
    clean_loop f false rest out2 (length out2).
Proof.
  intros Hlt Hr. cbn [app clean_loop].
  assert (H3 : ends_elem (dot :: dot :: rest) 2 = true).
  { unfold ends_elem. simpl. destruct Hr as [Hr | ->]; [|reflexivity].
    destruct rest; [discriminate|]. exact Hr. }
  replace (Ascii.eqb dot slash) with false by reflexivity.
  replace (Ascii.eqb dot dot && ends_elem (dot :: dot :: rest) 1) with false
    by reflexivity.
  replace (Ascii.eqb dot dot && at_is (dot :: dot :: rest) 1 dot) with true
    by reflexivity.
  rewrite H3, Hlt. reflexivity.
Qed.

Lemma sep_elems_starts (E : list (list ascii)) (t : list ascii) :
  t = [] \/ t = [slash] ->
  starts_slash (sep_elems E ++ t) = true \/ sep_elems E ++ t = [].
Proof.
  intros Ht. destruct E as [|e E]; simpl.
  - destruct Ht as [-> | ->]; [right|left]; reflexivity.
  - left. reflexivity.
Qed.

(** The loop on names, from a canonical buffer: the names are added. *)
Lemma run_names (names2 : list (list ascii)) :
  forall (f : nat) (rooted : bool) (j : nat) (names : list (list ascii))
         (t : list ascii),
    Forall name_ok names -> Forall name_ok names2 ->
    t = [] \/ t = [slash] ->
    length (sep_elems names2 ++ t) <= f ->
    clean_loop f rooted (sep_elems names2 ++ t)
      (canonical_elems rooted j names) (length (canonical_elems rooted j []))
    = canonical_elems rooted j (names ++ names2).
Proof.
  induction names2 as [|e names2 IH]; intros f rooted j names t Hn Hn2 Ht Hf.
  - rewrite app_nil_r. simpl. destruct Ht as [-> | ->].
    + apply clean_loop_nil.
    + destruct f as [|f]; [simpl in Hf; lia|].
      cbn [clean_loop]. rewrite Ascii.eqb_refl. apply clean_loop_nil.
  - inversion Hn2 as [|? ? He Hn2']; subst.
    unfold sep_elems in *. cbn [map concat] in *. fold (sep_elems names2) in *.
    rewrite <- !app_assoc in *. cbn [app] in *.
    destruct He as (Hne & Hrest).
    destruct f as [|[|f]]; [simpl in Hf; lia| |].
    { destruct e; [contradiction|]. simpl in Hf. lia. }
    rewrite step_slash.
    rewrite step_name;
      [|split; assumption|apply sep_elems_starts; exact Ht].
    rewrite (needs_slash_spec rooted j names Hn).
    replace ((if match repeat [dot; dot] j ++ names with
                 | [] => false
                 | _ :: _ => true
                 end
              then canonical_elems rooted j names ++ [slash]
              else canonical_elems rooted j names) ++ e)
      with (canonical_elems rooted j (names ++ [e])).
    2:{ rewrite canonical_elems_snoc.
        destruct (repeat [dot; dot] j ++ names); [reflexivity|].
        rewrite <- app_assoc. reflexivity. }
    rewrite IH; try assumption.
    + rewrite <- app_assoc. reflexivity.
    + apply Forall_app. split; [exact Hn|]. constructor; [split; assumption|constructor].
    + simpl in Hf. rewrite length_app in Hf.
      destruct e; [contradiction|]. simpl in Hf. lia.
Qed.

Lemma sep_elems_cons (e : list ascii) (E : list (list ascii)) (t : list ascii) :
  sep_elems (e :: E) ++ t = slash :: e ++ sep_elems E ++ t.
Proof.
  unfold sep_elems. cbn [map concat]. rewrite <- app_assoc. reflexivity.
Qed.

Lemma sep_elems_app (A B : list (list ascii)) :
  sep_elems (A ++ B) = sep_elems A ++ sep_elems B.
Proof. unfold sep_elems. rewrite map_app, concat_app. reflexivity. Qed.

Lemma dotdots_succ (j : nat) :
  canonical_elems false (Datatypes.S j) []
  = (if 0 <? length (canonical_elems false j [])
     then canonical_elems false j [] ++ [slash]
     else canonical_elems false j []) ++ [dot; dot].
Proof.
  unfold canonical_elems. cbn [app]. rewrite !app_nil_r.
  change (repeat [dot; dot] (Datatypes.S j))
    with ([dot; dot] :: repeat [dot; dot] j).
  rewrite repeat_cons, join_snoc.
  destruct j as [|j]; [reflexivity|].
  change (repeat [dot; dot] (Datatypes.S j))
    with ([dot; dot] :: repeat [dot; dot] j).
  rewrite join_cons_sep. cbn [app length Nat.ltb Nat.leb].
  rewrite <- !app_assoc. reflexivity.
Qed.

(** The loop on [..] elements, on a path that is not rooted and from a
    buffer of [..] elements: they are added. *)
Lemma run_dotdots (k : nat) :
  forall (f j : nat) (rest : list ascii),
    starts_slash rest = true \/ rest = [] ->
    length (sep_elems (repeat [dot; dot] k) ++ rest) <= f ->
    clean_loop f false (sep_elems (repeat [dot; dot] k) ++ rest)
      (canonical_elems false j []) (length (canonical_elems false j []))
    = clean_loop (length rest) false rest
        (canonical_elems false (j + k) []) (length (canonical_elems false (j + k) [])).
Proof.
  induction k as [|k IH]; intros f j rest Hr Hf.
  - rewrite Nat.add_0_r. apply clean_loop_fuel; [exact Hf|lia].
  - change (sep_elems (repeat [dot; dot] (Datatypes.S k)) ++ rest)
      with (slash :: [dot; dot] ++ (sep_elems (repeat [dot; dot] k) ++ rest)) in *.
    destruct f as [|[|f]]; [simpl in Hf; lia|simpl in Hf; lia|].
    rewrite step_slash.
    rewrite step_dotdot.
    + cbv zeta. rewrite <- dotdots_succ, Nat.add_succ_r.
      apply (IH f (Datatypes.S j) rest Hr). simpl in Hf. lia.
    + apply Nat.ltb_irrefl.
    + destruct k; [exact Hr|left; reflexivity].
Qed.

Lemma canonical_nonrooted_first (j : nat) (names : list (list ascii)) :
  Forall name_ok names ->
  starts_slash (canonical_elems false j names) = false.
Proof.
  intros H. unfold canonical_elems. cbn [app].
  destruct j as [|j].
  - cbn [repeat app]. destruct H as [|e es (He & Hs & _) _]; [reflexivity|].
    rewrite join_cons_sep. destruct e as [|c e]; [contradiction|].
    simpl in Hs. apply andb_true_iff in Hs as [Hc _].
    apply negb_true_iff in Hc. exact Hc.
  - cbn [repeat app]. rewrite join_cons_sep. reflexivity.
Qed.

(** [Clean] leaves a canonical path as it is, and drops one slash after
    it. *)
Lemma Clean_canonical_fixed (rooted : bool) (j : nat)
    (names : list (list ascii)) (t : list ascii) :
  Forall name_ok names ->
  (rooted = true -> j = 0) ->
  t = [] \/ t = [slash] ->
  canonical_elems rooted j names <> [] ->
  Clean (string_of_list_ascii (canonical_elems rooted j names ++ t))
  = string_of_list_ascii (canonical_elems rooted j names).
Proof.
  intros Hn Hj Ht Hne. unfold Clean.
  rewrite list_ascii_of_string_of_list_ascii.
  destruct rooted.
  - rewrite (Hj eq_refl) in *. clear Hj.
    unfold canonical_elems at 1. cbn [repeat app].
    rewrite Ascii.eqb_refl. cbn [skipn].
    set (f := length (slash :: join names ++ t)).
    assert (Hf : Datatypes.S (length (join names ++ t)) <= f) by (subst f; simpl; lia).
    clearbody f.
    assert (E : clean_loop f true (join names ++ t) [slash] 1
                = canonical_elems true 0 names).
    { destruct names as [|e E].
      - cbn [join app]. destruct Ht as [-> | ->].
        + apply clean_loop_nil.
        + destruct f; [lia|]. cbn [clean_loop]. rewrite Ascii.eqb_refl.
          apply clean_loop_nil.
      - rewrite join_cons_sep, <- app_assoc.
        destruct f as [|f]; [lia|].
        rewrite (clean_loop_fuel (Datatypes.S f) f); [| |].
        + rewrite <- step_slash, <- sep_elems_cons.
          apply (run_names (e :: E) (Datatypes.S f) true 0 [] t);
            [constructor|exact Hn|exact Ht|].
          rewrite sep_elems_cons.
          rewrite join_cons_sep, <- app_assoc in Hf. simpl in *. lia.
        + rewrite join_cons_sep, <- app_assoc in Hf. lia.
        + rewrite join_cons_sep, <- app_assoc in Hf. lia. }
    change (drop 0 (join names ++ t)) with (join names ++ t). rewrite E.
    destruct (canonical_elems true 0 names) eqn:E2; [contradiction|reflexivity].
  - pose proof (canonical_nonrooted_first j names Hn) as Hfirst.
    destruct (canonical_elems false j names) as [|c l] eqn:Eo; [contradiction|].
    cbn [app]. simpl in Hfirst. rewrite Hfirst.
    change (c :: l ++ t) with ((c :: l) ++ t). rewrite <- Eo.
    set (f := length (canonical_elems false j names ++ t)).
    assert (Hf : length (canonical_elems false j names ++ t) <= f) by (subst f; lia).
    clearbody f.
    assert (E : clean_loop f false (canonical_elems false j names ++ t) [] 0
                = canonical_elems false j names).
    { unfold canonical_elems at 1. unfold canonical_elems in Hf. cbn [app] in *.
      destruct (repeat [dot; dot] j ++ names) as [|x L] eqn:EL.
      { unfold canonical_elems in Eo. rewrite EL in Eo. discriminate Eo. }
      rewrite join_cons_sep, <- app_assoc in *.
      rewrite (clean_loop_fuel f (Datatypes.S f)); [|exact Hf|lia].
      rewrite <- step_slash, <- sep_elems_cons.
      change (@nil ascii) with (canonical_elems false 0 []) at 1.
      change 0 with (length (canonical_elems false 0 [])) at 1.
      rewrite <- EL, sep_elems_app, <- app_assoc.
      rewrite run_dotdots.
      - cbn [Nat.add].
        rewrite (run_names names _ false j [] t);
          [reflexivity|constructor|exact Hn|exact Ht|lia].
      - apply sep_elems_starts. exact Ht.
      - rewrite app_assoc, <- sep_elems_app, EL, sep_elems_cons.
        simpl. lia. }
    rewrite E, Eo. reflexivity.
Qed.

End CleanFixed.

Section NormPathFacts.

Import Path PathSpec PathElems Util.

Lemma string_snoc_inv (p : string) :
  p <> "" -> exists (q : string) (c : ascii), p = q ++ String c "".
Proof.
  induction p as [|d p IH]; intros H; [contradiction|].
  destruct p as [|e p].
  - exists "", d. reflexivity.
  - destruct IH as (q & c & E); [discriminate|].
    exists (String d q), c. rewrite E. reflexivity.
Qed.

Lemma IsAbs_spec (s : string) :
  IsAbs s = starts_slash (list_ascii_of_string s).
Proof.
  unfold IsAbs. destruct s as [|c s]; [reflexivity|].
  cbn [list_ascii_of_string String.prefix starts_slash].
  destruct (Ascii.ascii_dec "/" c) as [<-|Hne].
  - destruct s; reflexivity.
  - symmetry. apply Ascii.eqb_neq. unfold slash. congruence.
Qed.

Lemma string_of_list_ascii_inj_nonempty (l : list ascii) :
  l <> [] -> string_of_list_ascii l <> "".
Proof. destruct l; [contradiction|discriminate]. Qed.

Lemma Clean_nonempty (p : string) : Clean p <> "".
Proof.
  unfold Clean. destruct (list_ascii_of_string p) as [|c l]; [discriminate|].
  match goal with |- match ?o with _ => _ end <> _ => destruct o end;
    discriminate.
Qed.

(** [Clean] is idempotent, also with one slash after the cleaned path. *)
Lemma Clean_Clean (p : string) (t : string) :
  t = "" \/ t = "/" ->
  Clean (Clean p ++ t) = Clean p.
Proof.
  intros Ht. destruct (Clean_canonical p) as [E | (j & names & Hn & Hj & E)].
  - rewrite E. destruct Ht as [-> | ->]; reflexivity.
  - pose proof (Clean_nonempty p) as Hne.
    assert (Hs : (Clean p ++ t)%string
                 = string_of_list_ascii
                     (canonical_elems (IsAbs p) j names ++ list_ascii_of_string t)).
    { rewrite <- E, <- list_ascii_of_string_app.
      symmetry. apply string_of_list_ascii_of_string. }
    rewrite Hs, Clean_canonical_fixed; try assumption.
    + rewrite <- E. apply string_of_list_ascii_of_string.
    + destruct Ht as [-> | ->]; [left|right]; reflexivity.
    + intros E0. rewrite E0 in E. destruct (Clean p); [contradiction|discriminate E].
Qed.

(** [normPath] on a path that is not empty, in closed form. *)
Lemma normPath_snoc (q : string) (c : ascii) :
  let p := q ++ String c "" in
  normPath p
  = Ret (if Ascii.eqb c "/" && negb (String.eqb (Clean p) "/")
         then Clean p ++ "/" else Clean p).
Proof.
  intros p. unfold normPath.
  pose proof (byte_at_last q c) as Hb. cbv zeta in Hb. fold p in Hb.
  rewrite Hb. cbn [res_bind].
  destruct (Ascii.eqb c "/" && negb (String.eqb (Clean p) "/")); reflexivity.
Qed.

Lemma ends_slash_string_snoc (q : string) (c : ascii) :
  ends_slash (list_ascii_of_string (q ++ String c "")) = Ascii.eqb c slash.
Proof. rewrite list_ascii_of_string_app. apply ends_slash_snoc. Qed.

Lemma HasSuffix_slash (s : string) :
  HasSuffix s "/" <-> ends_slash (list_ascii_of_string s) = true.
Proof.
  split.
  - intros (a & ->). apply ends_slash_string_snoc.
  - intros H. destruct s as [|d s]; [discriminate H|].
    destruct (string_snoc_inv (String d s)) as (q & c & E); [discriminate|].
    rewrite E in *. rewrite ends_slash_string_snoc in H.
    apply Ascii.eqb_eq in H. subst c. now exists q.
Qed.

Lemma Clean_IsAbs (p : string) : IsAbs (Clean p) = IsAbs p.
Proof.
  rewrite !IsAbs_spec. unfold Clean.
  destruct (list_ascii_of_string p) as [|c l]; [reflexivity|].
  cbn [starts_slash]. destruct (Ascii.eqb c slash) eqn:Hc.
  - destruct (clean_loop_ok (length (c :: l)) true (skipn 1 (c :: l)) [slash] 1)
      as (dd & _ & _ & _ & _ & H).
    { repeat split; try reflexivity; simpl; try lia; discriminate. }
    destruct (H eq_refl) as [_ Hs].
    destruct (clean_loop _ _ _ _ _) as [|x out]; [discriminate Hs|].
    rewrite list_ascii_of_string_of_list_ascii. exact Hs.
  - destruct (clean_loop_canonical (length (c :: l)) false (c :: l) [] 0)
      as (dd & j & names & Hn & _ & E & _).
    { exists 0%nat, []. repeat split; try reflexivity; constructor. }
    destruct (clean_loop _ _ _ _ _) as [|x out] eqn:Eo; [reflexivity|].
    rewrite list_ascii_of_string_of_list_ascii, E.
    apply canonical_nonrooted_first. exact Hn.
Qed.

(** X1: [normPath] is idempotent: a normalized path is normalized to
    itself. *)
Theorem normPath_idempotent (p r : string) :
  normPath p = Ret r -> normPath r = Ret r.
Proof.
  intros H. destruct p as [|d p]; [discriminate H|].
  destruct (string_snoc_inv (String d p)) as (q & c & E); [discriminate|].
  rewrite E in H. rewrite normPath_snoc in H. rewrite <- E in H.
  set (P := String d p) in *.
  destruct (Ascii.eqb c "/" && negb (String.eqb (Clean P) "/")) eqn:Hb.
  - injection H as <-. apply andb_true_iff in Hb as [_ Hb].
    rewrite normPath_slash, Clean_Clean by (now right).
    apply negb_true_iff in Hb. rewrite Hb. reflexivity.
  - injection H as <-.
    destruct (string_snoc_inv (Clean P) (Clean_nonempty P)) as (q' & c' & E').
    rewrite E' at 1. rewrite normPath_snoc. rewrite <- E'.
    pose proof (Clean_Clean P "" (or_introl eq_refl)) as Hcc.
    assert (Hr : (Clean P ++ "")%string = Clean P).
    { generalize (Clean P). intros s.
      induction s as [|x s IH]; [reflexivity|].
      change (String x (s ++ "") = String x s). now rewrite IH. }
    rewrite Hr in Hcc. rewrite Hcc.
    destruct (Ascii.eqb c' "/") eqn:Hc'; [|reflexivity].
    destruct (Clean_ok P) as [_ He].
    rewrite E' in He at 1. rewrite ends_slash_string_snoc in He.
    rewrite (He Hc'). reflexivity.
Qed.

(** X2: the result of [normPath] ends in a slash exactly if the path
    does or the result is the root: a trailing slash is kept, and none is
    added to a path that has none. *)
Theorem normPath_trailing_slash_iff (p r : string) :
  normPath p = Ret r ->
  (HasSuffix r "/" <-> HasSuffix p "/" \/ r = "/").
Proof.
  intros H. destruct p as [|d p]; [discriminate H|].
  destruct (string_snoc_inv (String d p)) as (q & c & E); [discriminate|].
  rewrite E in H. rewrite normPath_snoc in H. rewrite <- E in H.
  set (P := String d p) in *.
  destruct (Clean_ok P) as [_ He].
  destruct (Ascii.eqb c "/") eqn:Hc.
  - apply Ascii.eqb_eq in Hc. subst c. split; [intros _; left; now exists q|].
    intros _. cbn [andb] in H.
    destruct (String.eqb (Clean P) "/") eqn:Hb; injection H as <-.
    + apply String.eqb_eq in Hb. rewrite Hb. now exists "".
    + now exists (Clean P).
  - cbn [andb] in H. injection H as <-. split.
    + intros Hs. right. apply He. apply HasSuffix_slash. exact Hs.
    + intros [Hs | ->]; [|now exists ""].
      apply HasSuffix_slash in Hs. rewrite E, ends_slash_string_snoc in Hs.
      unfold slash in Hs. congruence.
Qed.

(** X3: [normPath] keeps a rooted path rooted and a path that is not
    rooted so, and its result never has two slashes in a row. *)
Theorem normPath_keeps_rootedness (p r : string) :
  normPath p = Ret r ->
  IsAbs r = IsAbs p /\ ~ Contains r "//".
Proof.
  intros H. destruct p as [|d p]; [discriminate H|].
  destruct (string_snoc_inv (String d p)) as (q & c & E); [discriminate|].
  rewrite E in H. rewrite normPath_snoc in H. rewrite <- E in H.
  set (P := String d p) in *.
  destruct (Clean_ok P) as [Hd He].
  destruct (Ascii.eqb c "/" && negb (String.eqb (Clean P) "/")) eqn:Hb;
    injection H as <-.
  - apply andb_true_iff in Hb as [_ Hb]. apply negb_true_iff in Hb.
    apply String.eqb_neq in Hb. split.
    + rewrite <- (Clean_IsAbs P). rewrite !IsAbs_spec.
      rewrite list_ascii_of_string_app.
      pose proof (Clean_nonempty P) as Hne.
      destruct (Clean P); [contradiction|reflexivity].
    + apply has_dslash_Contains.
      rewrite list_ascii_of_string_app, has_dslash_app, Hd. simpl.
      destruct (ends_slash (list_ascii_of_string (Clean P))) eqn:Ee;
        [|reflexivity].
      destruct (Hb (He eq_refl)).
  - split; [apply Clean_IsAbs|apply has_dslash_Contains; exact Hd].
Qed.

End NormPathFacts.

(** The same on the path [a//b/../c/]. *)
Lemma normPath_idempotent_witness :
  Util.normPath "a//b/../c/" = Ret "a/c/" /\ Util.normPath "a/c/" = Ret "a/c/".
Proof.
  split; [reflexivity|].
  apply (normPath_idempotent "a//b/../c/" "a/c/"). reflexivity.
Defined.

(** The same on the paths [/a/.] and [/a/./]. *)
Lemma normPath_trailing_slash_iff_witness :
  (PathSpec.HasSuffix "/a" "/" <-> PathSpec.HasSuffix "/a/." "/" \/ "/a" = "/")
  /\ (PathSpec.HasSuffix "/a/" "/" <-> PathSpec.HasSuffix "/a/./" "/" \/ "/a/" = "/").
Proof.
  split.
  - apply (normPath_trailing_slash_iff "/a/." "/a"). reflexivity.
  - apply (normPath_trailing_slash_iff "/a/./" "/a/"). reflexivity.
Defined.

(** The same on the path [../a//b/]. *)
Lemma normPath_keeps_rootedness_witness :
  Path.IsAbs "../a/b/" = Path.IsAbs "../a//b/"
  /\ ~ PathSpec.Contains "../a/b/" "//".
Proof.
  apply (normPath_keeps_rootedness "../a//b/" "../a/b/"). reflexivity.
Defined.

(** ** ToCamelCase and ToSnakeCase *)

Section CaseFacts.

Import Unicode Case.
Local Open Scope list_scope.

Ltac by_cases c :=
  destruct c as [[] [] [] [] [] [] [] []]; vm_compute; try reflexivity;
  try discriminate; try (intros; discriminate); try (intros; reflexivity).

Lemma ToUpper_ToLower (c : ascii) : IsLower c = false -> ToUpper (ToLower c) = c.
Proof. by_cases c. Qed.

Lemma ToLower_ToUpper (c : ascii) : IsUpper c = false -> ToLower (ToUpper c) = c.
Proof. by_cases c. Qed.

Lemma ToLower_not_upper (c : ascii) : IsUpper c = false -> ToLower c = c.
Proof. unfold ToLower. now intros ->. Qed.

Lemma ToLower_upper (c : ascii) :
  IsUpper c = true ->
  Ascii.eqb (ToLower c) underscore = false /\ ToUpper (ToLower c) = c.
Proof. by_cases c; intros _; split; reflexivity. Qed.

Lemma ToUpper_lower (c : ascii) :
  IsLower c = true ->
  Ascii.eqb (ToUpper c) underscore = false
  /\ IsUpper (ToUpper c) = true /\ ToLower (ToUpper c) = c.
Proof. by_cases c; intros _; repeat split; reflexivity. Qed.

Lemma ToUpper_underscore (c : ascii) :
  Ascii.eqb (ToUpper c) underscore = Ascii.eqb c underscore.
Proof. by_cases c. Qed.

Lemma ToLower_underscore (c : ascii) :
  Ascii.eqb (ToLower c) underscore = Ascii.eqb c underscore.
Proof. by_cases c. Qed.

Lemma IsLower_ToUpper (c : ascii) : IsLower (ToUpper c) = false.
Proof. by_cases c. Qed.

Lemma IsUpper_ToLower (c : ascii) : IsUpper (ToLower c) = false.
Proof. by_cases c. Qed.

Lemma IsUpper_ToUpper (c : ascii) :
  IsUpper c = false -> IsLower c = false -> IsUpper (ToUpper c) = false.
Proof. by_cases c. Qed.

Lemma camel_loop_acc (s : list ascii) :
  forall (upper : bool) (result : list ascii),
    camel_loop s upper result = result ++ camel_loop s upper [].
Proof.
  induction s as [|r s IH]; intros upper result; cbn [camel_loop].
  - symmetry. apply app_nil_r.
  - destruct (Ascii.eqb r underscore); [apply IH|].
    destruct upper; rewrite IH, (IH _ ([] ++ _)), <- app_assoc; reflexivity.
Qed.

Lemma snake_loop_acc (s : list ascii) :
  forall result : list ascii,
    snake_loop s result = result ++ snake_loop s [].
Proof.
  induction s as [|c s IH]; intros result; cbn [snake_loop].
  - symmetry. apply app_nil_r.
  - rewrite IH, (IH (_ ++ _)).
    destruct (IsUpper c); cbn [app]; rewrite <- !app_assoc; reflexivity.
Qed.

(** What the loop of [ToCamelCase] yields has no underscore. *)
Lemma camel_loop_no_underscore (s : list ascii) :
  forall upper : bool,
    forallb (fun x => negb (Ascii.eqb x underscore)) (camel_loop s upper []) = true.
Proof.
  induction s as [|r s IH]; intros upper; cbn [camel_loop]; [reflexivity|].
  destruct (Ascii.eqb r underscore) eqn:E; [apply IH|].
  destruct upper; rewrite camel_loop_acc; cbn [app forallb].
  - rewrite ToUpper_underscore, E, IH. reflexivity.
  - rewrite E, IH. reflexivity.
Qed.

(** It is empty exactly on underscores. *)
Lemma camel_loop_nil (s : list ascii) :
  forall upper : bool,
    camel_loop s upper [] = [] <-> forallb (fun x => Ascii.eqb x underscore) s = true.
Proof.
  induction s as [|r s IH]; intros upper; cbn [camel_loop forallb]; [tauto|].
  destruct (Ascii.eqb r underscore) eqn:E; [apply IH|].
  cbn [andb]. split; [|discriminate].
  destruct upper; rewrite camel_loop_acc; discriminate.
Qed.

Lemma snake_loop_no_upper (s : list ascii) :
  forallb (fun x => negb (IsUpper x)) (snake_loop s []) = true.
Proof.
  induction s as [|c s IH]; cbn [snake_loop]; [reflexivity|].
  rewrite snake_loop_acc, forallb_app, IH, andb_true_r.
  destruct (IsUpper c); cbn [app forallb]; rewrite IsUpper_ToLower; reflexivity.
Qed.

(** The loop of [ToCamelCase] undoes the loop of [ToSnakeCase] on runes
    without underscore. *)
Lemma camel_snake_loop (s : list ascii) :
  forallb (fun x => negb (Ascii.eqb x underscore)) s = true ->
  camel_loop (snake_loop s []) false [] = s.
Proof.
  induction s as [|c s IH]; [reflexivity|].
  cbn [forallb snake_loop]. intros H. apply andb_true_iff in H as [Hc Hs].
  apply negb_true_iff in Hc.
  rewrite snake_loop_acc. destruct (IsUpper c) eqn:Hu; cbn [app camel_loop].
  - destruct (ToLower_upper c Hu) as [H1 H2].
    replace (Ascii.eqb underscore underscore) with true by reflexivity.
    rewrite H1, H2, camel_loop_acc, (IH Hs). reflexivity.
  - rewrite (ToLower_not_upper c Hu), Hc, camel_loop_acc, (IH Hs). reflexivity.
Qed.

(** The loop of [ToSnakeCase] undoes the loop of [ToCamelCase] on the
    rest of a name in snake case. *)
Lemma snake_camel_loop (n : nat) :
  forall s : list ascii,
    (length s <= n)%nat ->
    snake_rest s = true ->
    snake_loop (camel_loop s false []) [] = s.
Proof.
  induction n as [|n IH]; intros s Hn Hs.
  - destruct s; [reflexivity|simpl in Hn; lia].
  - destruct s as [|c s]; [reflexivity|].
    cbn [snake_rest] in Hs. cbn [camel_loop].
    destruct (Ascii.eqb c underscore) eqn:E.
    + apply Ascii.eqb_eq in E. subst c.
      destruct s as [|d s]; [discriminate Hs|].
      apply andb_true_iff in Hs as [Hd Hs].
      destruct (ToUpper_lower d Hd) as (H1 & H2 & H3).
      cbn [camel_loop].
      assert (Hdu : Ascii.eqb d underscore = false) by (revert Hd; by_cases d).
      rewrite Hdu, camel_loop_acc. cbn [app snake_loop].
      rewrite H2, H3, snake_loop_acc. cbn [app].
      rewrite IH; [reflexivity|simpl in Hn; lia|exact Hs].
    + apply andb_true_iff in Hs as [Hc Hs]. apply negb_true_iff in Hc.
      rewrite camel_loop_acc. cbn [app snake_loop].
      rewrite Hc, (ToLower_not_upper c Hc), snake_loop_acc. cbn [app].
      rewrite IH; [reflexivity|simpl in Hn; lia|exact Hs].
Qed.

(** X4: [ToCamelCase] faults exactly on a string of underscores, the
    empty string among them; otherwise it returns a string without
    underscore that does not start with a small letter. *)
Theorem ToCamelCase_faults_on_underscores (s : string) :
  ascii_only s ->
  (is_panic (ToCamelCase s) = true
   <-> forallb (fun x => Ascii.eqb x underscore) (list_ascii_of_string s) = true)
  /\ (forall r, ToCamelCase s = Ret r ->
        exists c l,
          list_ascii_of_string r = c :: l
          /\ IsLower c = false
          /\ forallb (fun x => negb (Ascii.eqb x underscore)) (c :: l) = true).
Proof.
  intros _. unfold ToCamelCase.
  pose proof (camel_loop_nil (list_ascii_of_string s) false) as Hn.
  pose proof (camel_loop_no_underscore (list_ascii_of_string s) false) as Hu.
  destruct (camel_loop (list_ascii_of_string s) false []) as [|c l].
  - split; [|discriminate]. split; [intros _; now apply Hn|reflexivity].
  - split.
    + split; [discriminate|]. intros H. apply Hn in H. discriminate H.
    + intros r Hr.
      assert (E : r = string_of_list_ascii (ToUpper c :: l)) by congruence.
      subst r. exists (ToUpper c), l.
      rewrite list_ascii_of_string_of_list_ascii. split; [reflexivity|].
      split; [apply IsLower_ToUpper|].
      cbn [forallb] in *. rewrite ToUpper_underscore. exact Hu.
Qed.

(** X5: [ToSnakeCase] faults on the empty string and on no other; what
    it returns has no capital letter. *)
Theorem ToSnakeCase_faults_on_empty (s : string) :
  ascii_only s ->
  (is_panic (ToSnakeCase s) = true <-> s = "")
  /\ (forall r, ToSnakeCase s = Ret r ->
        forallb (fun x => negb (IsUpper x)) (list_ascii_of_string r) = true).
Proof.
  intros _. unfold ToSnakeCase. destruct s as [|c s].
  - split; [tauto|discriminate].
  - cbn [list_ascii_of_string]. split.
    + split; discriminate.
    + intros r Hr.
      assert (E : r = string_of_list_ascii (snake_loop (list_ascii_of_string s) [ToLower c]))
        by congruence.
      subst r. rewrite list_ascii_of_string_of_list_ascii.
      rewrite snake_loop_acc. cbn [app forallb].
      rewrite IsUpper_ToLower. apply snake_loop_no_upper.
Qed.

(** X6: [ToCamelCase] is the inverse of [ToSnakeCase] on names in camel
    case. *)
Theorem ToCamelCase_of_ToSnakeCase (s : string) :
  ascii_only s ->
  camel_name s = true ->
  (let! r := ToSnakeCase s in ToCamelCase r) = Ret s.
Proof.
  intros _. unfold camel_name, ToSnakeCase.
  rewrite <- (string_of_list_ascii_of_string s) at 3.
  destruct (list_ascii_of_string s) as [|c rest]; [discriminate|].
  intros H. apply andb_true_iff in H as [Hl Hu]. apply negb_true_iff in Hl.
  cbn [forallb] in Hu. apply andb_true_iff in Hu as [Hc Hu].
  apply negb_true_iff in Hc.
  cbn [res_bind]. unfold ToCamelCase.
  rewrite list_ascii_of_string_of_list_ascii, snake_loop_acc.
  cbn [app camel_loop]. rewrite ToLower_underscore, Hc.
  rewrite camel_loop_acc, (camel_snake_loop rest Hu). cbn [app].
  rewrite (ToUpper_ToLower c Hl). reflexivity.
Qed.

(** X7: [ToSnakeCase] is the inverse of [ToCamelCase] on names in snake
    case. *)
Theorem ToSnakeCase_of_ToCamelCase (s : string) :
  ascii_only s ->
  snake_name s = true ->
  (let! r := ToCamelCase s in ToSnakeCase r) = Ret s.
Proof.
  intros _. unfold snake_name, ToCamelCase.
  rewrite <- (string_of_list_ascii_of_string s) at 3.
  destruct (list_ascii_of_string s) as [|c rest]; [discriminate|].
  intros H. apply andb_true_iff in H as [H Hr].
  apply andb_true_iff in H as [Hu Hc].
  apply negb_true_iff in Hu. apply negb_true_iff in Hc.
  cbn [camel_loop]. rewrite Hc, camel_loop_acc. cbn [app res_bind].
  unfold ToSnakeCase. rewrite list_ascii_of_string_of_list_ascii.
  rewrite (ToLower_ToUpper c Hu), snake_loop_acc.
  rewrite (snake_camel_loop (length rest) rest (le_n _) Hr). reflexivity.
Qed.

End CaseFacts.

(** The same on the strings [__] and [foo_bar]. *)
Lemma ToCamelCase_faults_on_underscores_witness :
  is_panic (Case.ToCamelCase "__") = true
  /\ Case.ToCamelCase "foo_bar" = Ret "FooBar".
Proof.
  split.
  - apply (ToCamelCase_faults_on_underscores "__"); reflexivity.
  - destruct (ToCamelCase_faults_on_underscores "foo_bar" eq_refl) as [_ H].
    reflexivity.
Defined.

(** The same on the empty string and on [FooBar]. *)
Lemma ToSnakeCase_faults_on_empty_witness :
  is_panic (Case.ToSnakeCase "") = true
  /\ Case.ToSnakeCase "FooBar" = Ret "foo_bar".
Proof.
  split.
  - apply (ToSnakeCase_faults_on_empty ""); reflexivity.
  - reflexivity.
Defined.

(** The same on the name [HTTPServer2]. *)
Lemma ToCamelCase_of_ToSnakeCase_witness :
  Case.ToSnakeCase "HTTPServer2" = Ret "h_t_t_p_server2"
  /\ Case.ToCamelCase "h_t_t_p_server2" = Ret "HTTPServer2".
Proof.
  split; [reflexivity|].
  apply (ToCamelCase_of_ToSnakeCase "HTTPServer2"); reflexivity.
Defined.

(** The same on the name [user_account2]. *)
Lemma ToSnakeCase_of_ToCamelCase_witness :
  Case.ToCamelCase "user_account2" = Ret "UserAccount2"
  /\ Case.ToSnakeCase "UserAccount2" = Ret "user_account2".
Proof.
  split; [reflexivity|].
  apply (ToSnakeCase_of_ToCamelCase "user_account2"); reflexivity.
Defined.

(** ** More on render of kocha.go *)

Section RenderMore.

Import Kocha DispatchSpec.
Local Open Scope list_scope.

Variable ErrorGet : Z -> M Env Result.
Variable app : Application.

Local Abbreviation ms := (Middlewares (Config_ app)).

Lemma on_cc_returns {A : Type} (f : M Env A) (w : World) :
  returns f -> cc w <> None -> is_panic (fst (on_cc f w)) = false.
Proof.
  intros Hf Hc. unfold on_cc. destruct (cc w) as [c|]; [|congruence].
  specialize (Hf (env_of c w)). destruct (f _) as [r e]. exact Hf.
Qed.

(** The hooks up to the first one that faults are called, and no other. *)
Lemma run_hooks_fault_at (sel : Middleware -> M Env unit)
    (mk : Middleware -> Call)
    (ms1 : list Middleware) (m : Middleware) (ms2 : list Middleware) :
  Forall (fun m => returns (sel m)) ms1 ->
  (forall e, is_panic (fst (sel m e)) = true) ->
  forall w : World,
    cc w <> None ->
    exists e w',
      run_hooks sel mk (ms1 ++ m :: ms2) w = (Panic e, w')
      /\ calls w' = calls w ++ map mk (ms1 ++ [m]).
Proof.
  intros Hret Hm. induction Hret as [|m1 ms1 Hm1 _ IH]; intros w Hc.
  - cbn [List.app run_hooks]. unfold mbind at 1. cbn [mupd]. unfold mbind.
    assert (Hp : is_panic (fst (on_cc (sel m) (add_call (mk m) w))) = true).
    { unfold on_cc. cbn [cc add_call]. destruct (cc w) as [c|]; [|reflexivity].
      specialize (Hm (env_of c (add_call (mk m) w))).
      destruct (sel m _) as [r0 e0]. exact Hm. }
    destruct (on_cc (sel m) (add_call (mk m) w)) as [[[]|e] w1] eqn:E;
      [discriminate Hp|].
    exists e, w1. split; [reflexivity|].
    apply on_cc_kept in E as (_ & _ & E & _). rewrite E. reflexivity.
  - cbn [List.app run_hooks]. unfold mbind at 1. cbn [mupd]. unfold mbind at 1.
    pose proof (on_cc_returns (sel m1) (add_call (mk m1) w) Hm1 Hc) as Hr.
    destruct (on_cc (sel m1) (add_call (mk m1) w)) as [[[]|e] w1] eqn:E;
      [|discriminate Hr].
    apply on_cc_kept in E as (_ & _ & E & F).
    destruct (IH w1 (F Hc)) as (e & w' & H1 & H2).
    exists e, w'. split; [exact H1|].
    rewrite H2, E. cbn [add_call calls map List.app].
    rewrite <- app_assoc. reflexivity.
Qed.

(** The calls of [render] are those of the body, then those of the
    hooks after it. *)
Lemma render_calls (r : Request) (t : Target)
    (wr : Http.ResponseWriter) (lg : list LogEntry) :
  let b := body app r t (init wr lg) in
  let h := after_hooks ErrorGet app (recovered (fst b)) (snd b) in
  calls (snd (render ErrorGet app wr lg r t)) = calls (snd h).
Proof.
  intros b h.
  pose proof (render_spec ErrorGet app wr lg r t) as (Hc & _).
  destruct (deferred_spec ErrorGet app (recovered (fst b)) (snd b)) as (D1 & _).
  fold b in Hc. fold h in D1. congruence.
Qed.

(** X8: every [After] hook runs, in order, also where its own [Before]
    hook did not, as long as the recovery block and the [After] hooks
    return: when the controller field has the wrong type no [Before]
    hook runs, and when a [Before] hook faults the later ones do not
    run.  When the form cannot be parsed no hook runs at all: the
    controller has no response then, the error controller faults, and
    the answer is that of the innermost recovery. *)
Theorem After_hooks_run_without_their_Before (r : Request) (t : Target)
    (wr : Http.ResponseWriter) (lg : list LogEntry) :
  let b := body app r t (init wr lg) in
  let h := after_hooks ErrorGet app (recovered (fst b)) (snd b) in
  let w := snd (render ErrorGet app wr lg r t) in
  (kind t = FieldOther -> fst h = Ret tt -> calls w = map CallAfter ms)
  /\ (forall (ms1 : list Middleware) (m : Middleware) (ms2 : list Middleware),
        kind t <> FieldOther ->
        multipartErr r = None ->
        ms = ms1 ++ m :: ms2 ->
        Forall (fun m => returns (Before m)) ms1 ->
        (forall e, is_panic (fst (Before m e)) = true) ->
        fst h = Ret tt ->
        calls w = map CallBefore (ms1 ++ [m]) ++ map CallAfter ms)
  /\ (forall err : string,
        kind t <> FieldOther ->
        multipartErr r = Some err ->
        calls w = []
        /\ logs w = lg ++ [LogError err; LogError nil_dereference]
        /\ (Http.Code wr = None -> Http.Code (writer w) = Some 500)).
Proof.
  intros b h w. subst w. rewrite (render_calls r t wr lg). fold b h.
  destruct (after_hooks_calls ErrorGet app (recovered (fst b)) (snd b))
    as (_ & A). fold h in A.
  split; [|split].
  - intros K Hh. rewrite (A Hh). subst b. rewrite (body_bug app r t _ K).
    reflexivity.
  - intros ms1 m ms2 Hk Hm Hms Hb Hf Hh. rewrite (A Hh). f_equal.
    set (w0 := set_cc (Some {| Name := TypeName t;
                               Layout := DefaultLayout (Config_ app);
                               HasResponse := true |})
                 (set_context ∅
                    (set_cc (Some {| Name := ""; Layout := "";
                                     HasResponse := false |})
                       (init wr lg)))).
    destruct (run_hooks_fault_at Before CallBefore ms1 m ms2 Hb Hf w0)
      as (e & w' & H1 & H2); [discriminate|].
    rewrite <- Hms in H1.
    assert (E : b = (Panic e, w')).
    { subst b. unfold body. rewrite Hm.
      destruct (kind t); [| |contradiction]; unfold mbind at 1;
        cbn [mupd]; unfold mbind at 1; cbn [mupd]; fold w0;
        unfold mbind at 1; rewrite H1; reflexivity. }
    rewrite E. cbn [snd]. rewrite H2. reflexivity.
  - intros err Hk Hm.
    pose proof (render_spec ErrorGet app wr lg r t) as (_ & _ & Ho).
    pose proof (render_status ErrorGet app wr lg r t) as Hst.
    cbv zeta in Ho, Hst. fold b in Ho, Hst. fold h in Hst.
    pose proof (deferred_spec ErrorGet app (recovered (fst b)) (snd b))
      as (_ & D2 & _ & _ & D5 & _). fold h in D2, D5.
    pose proof (after_hooks_logs ErrorGet app (recovered (fst b)) (snd b)) as Hl.
    fold h in Hl.
    assert (Eb : b = (Panic err,
                      set_cc (Some {| Name := ""; Layout := "";
                                      HasResponse := false |}) (init wr lg))).
    { subst b. now apply body_multipart. }
    assert (Eh : fst h = Panic nil_dereference
                 /\ calls (snd h) = []
                 /\ writer (snd h) = wr).
    { subst h. rewrite Eb. cbn [fst snd recovered].
      rewrite after_hooks_fault.
      set (w0 := set_cc _ (init wr lg)).
      assert (Ea : snd (attach (add_log (LogError err) w0))
                   = add_log (LogError err) w0) by reflexivity.
      rewrite Ea.
      destruct (on_cc_errorGet_nil ErrorGet Http.StatusInternalServerError
                  (add_log (LogError err) w0)
                  {| Name := ""; Layout := ""; HasResponse := false |}
                  eq_refl eq_refl) as (G1 & (_ & _ & G3 & _) & G4 & _).
      destruct (on_cc _ _) as [rg wg]. cbn [fst snd] in *. subst rg.
      cbn [fst snd]. auto. }
    destruct Eh as (Hh & Hc & Hw).
    split; [exact Hc|]. rewrite (D5 _ Hh) in Ho. cbn [fst snd] in Ho.
    destruct Ho as (L & _ & _). split.
    + rewrite L, Hl, Eb. cbn [fst snd recovered logs set_cc init].
      rewrite <- app_assoc. reflexivity.
    + intros Hfresh. rewrite Hst by congruence. rewrite Hh. reflexivity.
Qed.

(** X9: after a body that returned and [After] hooks that returned, on
    a response of which nothing has been sent, the status line is sent
    before the Result runs and carries the status code the hooks have
    left, if [WriteHeader] accepts it: a Result that faults, or a return
    value that is no Result, is logged and answered with the text of
    [http.Error], but under the status line already sent, not 500.  A
    status code that [WriteHeader] refuses is a fault before anything is
    sent, and is answered under status 500. *)
Theorem status_line_precedes_the_Result (r : Request) (t : Target)
    (wr : Http.ResponseWriter) (lg : list LogEntry) :
  let b := body app r t (init wr lg) in
  let h := after_hooks ErrorGet app None (snd b) in
  let d := deferred ErrorGet app None (snd b) in
  let out := render ErrorGet app wr lg r t in
  let code := StatusCode (response (snd h)) in
  fst b = Ret tt ->
  fst h = Ret tt ->
  Http.Code (writer (snd h)) = None ->
  (100 <= code <= 999 ->
   Http.Code (writer (snd out)) = Some code
   /\ (fst d = Ret tt -> logs (snd out) = lg)
   /\ (forall e2, fst d = Panic e2 ->
         logs (snd out) = lg ++ [LogError e2]
         /\ writer (snd out)
            = Http.Error (writer (snd d)) "Internal Server Error" 500)
   /\ (result (snd b) = [] \/ (exists rest, result (snd b) = VOther :: rest) ->
       (exists e2, fst d = Panic e2)
       /\ Http.Body (writer (snd out))
          = (Http.Body (writer (snd h)) ++ "Internal Server Error" ++ Http.nl)%string))
  /\ (~ 100 <= code <= 999 ->
      Http.Code (writer (snd out)) = Some 500
      /\ logs (snd out) = lg ++ [LogError ("invalid WriteHeader code " ++ pretty code)]
      /\ writer (snd out)
         = Http.Error (writer (snd h)) "Internal Server Error" 500)
  /\ (Forall (fun m => keeps_status (After m)) ms ->
      code = StatusCode (response (snd b))).
Proof.
  intros b h d out code Hb Hh Hfresh.
  pose proof (render_spec ErrorGet app wr lg r t) as (_ & _ & Ho).
  pose proof (render_status ErrorGet app wr lg r t) as Hst.
  cbv zeta in Ho, Hst. fold b in Ho, Hst. rewrite Hb in Ho, Hst.
  cbn [recovered] in Ho, Hst. fold h in Hst. fold d out in Ho. fold out in Hst.
  specialize (Hst Hfresh). rewrite Hh in Hst. fold code in Hst.
  destruct (body_spec app r t wr lg _ _ (surjective_pairing b)) as (Lb & _).
  pose proof (after_hooks_logs ErrorGet app None (snd b)) as Hl.
  fold h in Hl. rewrite Lb, app_nil_r in Hl.
  pose proof (deferred_unfold ErrorGet app None (snd b)) as Hd.
  fold d h in Hd.
  destruct (deferred_spec ErrorGet app None (snd b)) as (_ & D2 & _).
  fold h d in D2.
  assert (Rh : result (snd h) = result (snd b)).
  { subst h. rewrite after_hooks_normal.
    destruct (run_hooks After CallAfter ms (snd b)) as [rh wh] eqn:E.
    now apply run_hooks_spec in E as (_ & R & _). }
  rewrite (surjective_pairing h), Hh in Hd.
  pose proof (WriteHeader_spec code (writer (snd h))) as S.
  unfold write_header in Hd. fold code in Hd.
  split; [|split].
  - intros Hv. unfold Http.validCode in Hst.
    replace ((100 <=? code) && (code <=? 999)) with true in Hst by lia.
    split; [exact Hst|].
    destruct (Http.WriteHeader code (writer (snd h))) as [ws|e0];
      [|destruct S as (_ & S & _); contradiction].
    split; [|split].
    + intros Hr. rewrite Hr in Ho. rewrite Ho, D2. exact Hl.
    + intros e2 Hp. rewrite Hp in Ho. destruct Ho as (L & _ & W).
      split; [congruence|exact W].
    + intros Hres. unfold proc_first in Hd. cbn [result set_writer] in Hd.
      rewrite Rh in Hd.
      assert (exists e2, d = (Panic e2, set_writer ws (snd h))) as (e2 & Ed).
      { destruct Hres as [E | (rest & E)]; rewrite E in Hd; eauto. }
      rewrite Ed in Ho. cbn [fst snd] in Ho. destruct Ho as (_ & _ & W).
      split; [exists e2; now rewrite Ed|].
      rewrite W.
      destruct (Error_spec (writer (set_writer ws (snd h)))
                  "Internal Server Error" 500) as (_ & -> & _).
      cbn [writer set_writer]. destruct S as [-> _].
      rewrite sendStatus_Body. reflexivity.
  - intros Hv. unfold Http.validCode in Hst.
    replace ((100 <=? code) && (code <=? 999)) with false in Hst by lia.
    split; [exact Hst|].
    destruct (Http.WriteHeader code (writer (snd h))) as [ws|e0].
    + destruct S as [_ S]. specialize (S Hfresh). contradiction.
    + destruct S as (_ & _ & ->). rewrite Hd in Ho. cbn [fst snd] in Ho.
      destruct Ho as (L & _ & W). split; [congruence|exact W].
  - intros Hk. subst code h. rewrite after_hooks_normal.
    apply run_hooks_keeps_status. exact Hk.
Qed.

End RenderMore.

(** The same on the test application: the [Before] hook of the second of
    three middlewares faults; the controller does not embed
    [Controller]; the form does not parse. *)
Lemma After_hooks_run_without_their_Before_witness :
  let ms := [App.session; AppMore.guard; App.contentType] in
  Kocha.calls
    (snd (Kocha.render App.ErrorGet (App.app ms) Http.NewRecorder []
            (App.get "/") (AppMore.target App.rootAction)))
  = [Kocha.CallBefore App.session; Kocha.CallBefore AppMore.guard;
     Kocha.CallAfter App.session; Kocha.CallAfter AppMore.guard;
     Kocha.CallAfter App.contentType]
  /\ Kocha.calls
       (snd (Kocha.render App.ErrorGet (App.app ms) Http.NewRecorder []
               (App.get "/") (AppMore.stray App.rootAction)))
     = [Kocha.CallAfter App.session; Kocha.CallAfter AppMore.guard;
        Kocha.CallAfter App.contentType]
  /\ (let w :=
        snd (Kocha.render App.ErrorGet (App.app ms) Http.NewRecorder []
               (AppMore.post "/") (AppMore.target App.rootAction)) in
      Kocha.calls w = []
      /\ Kocha.logs w
         = [LogError "multipart: NextPart: EOF";
            LogError Kocha.nil_dereference]
      /\ Http.Code (Kocha.writer w) = Some 500).
Proof.
  intros ms. split; [|split].
  - destruct (After_hooks_run_without_their_Before App.ErrorGet (App.app ms)
                (App.get "/") (AppMore.target App.rootAction)
                Http.NewRecorder []) as (_ & H & _).
    apply (H [App.session] AppMore.guard [App.contentType]).
    + discriminate.
    + reflexivity.
    + reflexivity.
    + repeat constructor.
    + reflexivity.
    + vm_compute. reflexivity.
  - destruct (After_hooks_run_without_their_Before App.ErrorGet (App.app ms)
                (App.get "/") (AppMore.stray App.rootAction)
                Http.NewRecorder []) as (H & _).
    apply H; [reflexivity|vm_compute; reflexivity].
  - destruct (After_hooks_run_without_their_Before App.ErrorGet (App.app ms)
                (AppMore.post "/") (AppMore.target App.rootAction)
                Http.NewRecorder []) as (_ & _ & H).
    destruct (H "multipart: NextPart: EOF") as (H1 & H2 & H3);
      [discriminate|reflexivity|].
    split; [exact H1|]. split; [exact H2|]. apply H3. reflexivity.
Defined.

(** The same on the test application: an action that sets status 201 and
    whose Result faults after a write, an action without return value,
    and an action that sets status 0. *)
Lemma status_line_precedes_the_Result_witness :
  (let out :=
     Kocha.render App.ErrorGet (App.app [App.session]) Http.NewRecorder []
       (App.get "/") (AppMore.target AppMore.createdAction) in
   Http.Code (Kocha.writer (snd out)) = Some 201
   /\ Kocha.logs (snd out) = [LogError "broken pipe"])
  /\ (let out :=
        Kocha.render App.ErrorGet (App.app [App.session]) Http.NewRecorder []
          (App.get "/") (AppMore.target AppMore.emptyAction) in
      Http.Code (Kocha.writer (snd out)) = Some 200
      /\ Http.Body (Kocha.writer (snd out))
         = "Internal Server Error" ++ Http.nl)
  /\ (let out :=
        Kocha.render App.ErrorGet (App.app [App.session]) Http.NewRecorder []
          (App.get "/") (AppMore.target AppMore.zeroAction) in
      Http.Code (Kocha.writer (snd out)) = Some 500
      /\ Kocha.logs (snd out) = [LogError "invalid WriteHeader code 0"]).
Proof.
  split; [|split].
  - destruct (status_line_precedes_the_Result App.ErrorGet
                (App.app [App.session]) (App.get "/")
                (AppMore.target AppMore.createdAction) Http.NewRecorder [])
      as (H & _).
    + vm_compute. reflexivity.
    + vm_compute. reflexivity.
    + vm_compute. reflexivity.
    + destruct H as (H1 & _ & H3 & _); [vm_compute; split; discriminate|].
      split; [exact H1|].
      apply (H3 "broken pipe"). vm_compute. reflexivity.
  - destruct (status_line_precedes_the_Result App.ErrorGet
                (App.app [App.session]) (App.get "/")
                (AppMore.target AppMore.emptyAction) Http.NewRecorder [])
      as (H & _).
    + vm_compute. reflexivity.
    + vm_compute. reflexivity.
    + vm_compute. reflexivity.
    + destruct H as (H1 & _ & _ & H4); [vm_compute; split; discriminate|].
      split; [exact H1|].
      destruct H4 as (_ & H4); [left; vm_compute; reflexivity|].
      rewrite H4. vm_compute. reflexivity.
  - destruct (status_line_precedes_the_Result App.ErrorGet
                (App.app [App.session]) (App.get "/")
                (AppMore.target AppMore.zeroAction) Http.NewRecorder [])
      as (_ & H & _).
    + vm_compute. reflexivity.
    + vm_compute. reflexivity.
    + vm_compute. reflexivity.
    + destruct H as (H1 & H2 & _); [vm_compute; intros [H _]; now apply H|].
      split; [exact H1|exact H2].
Defined.

(** ** More on handler of server.go *)

Section HandlerMore.

Import Server.

Variable dispatch : Request -> option Target.

(** The outcome of the Result, by that of its calls on the writer. *)
Lemma proc_first_Result (r : Result) (rest : list RValue) (s : World) :
  proc_first (VResult r :: rest) s
  = let w1 := fst (Http.apply_ops (fst (Proc r)) (writer s)) in
    match snd (Http.apply_ops (fst (Proc r)) (writer s)), snd (Proc r) with
    | None, None => (Ret tt, {| logs := logs s; writer := w1 |})
    | Some e, _ | None, Some e => (Panic e, {| logs := logs s; writer := w1 |})
    end.
Proof.
  unfold proc_first, with_writer.
  destruct (Http.apply_ops (fst (Proc r)) (writer s)) as [w1 [e|]];
    [reflexivity|].
  destruct (snd (Proc r)); reflexivity.
Qed.

(** What the deferred function does with a fault. *)
Lemma handler_recovers (s : World) (e : string) :
  (do _ <- log_Print (LogPrint e) ;
   do _ <- log_Print LogStack ;
   on_writer (fun w => Http.Error w "500 Internal Server Error" 500)) s
  = (Ret tt,
     {| logs := logs s ++ [LogPrint e; LogStack];
        writer := Http.Error (writer s) "500 Internal Server Error" 500 |}).
Proof.
  unfold mbind, log_Print, on_writer, mupd. cbn [logs writer].
  rewrite <- app_assoc. reflexivity.
Qed.

(** X10: [handler] stops every fault.  After an action that returned a
    Result, a Result that returns leaves the log alone; a Result that
    faults is logged and answered with the text of [http.Error], under
    status 500 only if nothing has been sent before; an action that
    returns no Result is answered with that text as well, under status
    500 if the action has sent nothing and under the status it has sent
    otherwise. *)
Theorem handler_stops_every_fault (req : Request) (s : World) :
  let out := handler dispatch req s in
  fst out = Ret tt
  /\ (forall (t : Target) (r : Result) (rest : list RValue)
            (w0 : Http.ResponseWriter),
        dispatch req = Some t ->
        method t {| Name := TypeName t; Request_ := req |} (writer s)
        = (Ret (VResult r :: rest), w0) ->
        let w1 := fst (Http.apply_ops (fst (Proc r)) w0) in
        match snd (Http.apply_ops (fst (Proc r)) w0), snd (Proc r) with
        | None, None => snd out = {| logs := logs s; writer := w1 |}
        | Some e, _ | None, Some e =>
            snd out
            = {| logs := logs s ++ [LogPrint e; LogStack];
                 writer := Http.Error w1 "500 Internal Server Error" 500 |}
            /\ Http.Code (writer (snd out)) = Some (default 500 (Http.Code w1))
        end)
  /\ (forall (t : Target) (res : list RValue) (w0 : Http.ResponseWriter),
        dispatch req = Some t ->
        method t {| Name := TypeName t; Request_ := req |} (writer s)
        = (Ret res, w0) ->
        res = [] \/ (exists rest, res = VOther :: rest) ->
        Http.Code (writer (snd out)) = Some (default 500 (Http.Code w0))
        /\ Http.Body (writer (snd out))
           = (Http.Body w0 ++ "500 Internal Server Error" ++ Http.nl)%string
        /\ exists e, logs (snd out) = (logs s ++ [LogPrint e; LogStack])%list).
Proof.
  intros out.
  destruct (dispatch req) as [t|] eqn:Hd.
  2:{ subst out. unfold handler. rewrite Hd.
      split; [reflexivity|]. split; intros; discriminate. }
  assert (Eo : out
               = match method t {| Name := TypeName t; Request_ := req |}
                         (writer s) with
                 | (Ret res, w0) =>
                     match proc_first res {| logs := logs s; writer := w0 |} with
                     | (Ret _, s2) => (Ret tt, s2)
                     | (Panic e, s2) =>
                         (Ret tt,
                          {| logs := logs s2 ++ [LogPrint e; LogStack];
                             writer := Http.Error (writer s2)
                                         "500 Internal Server Error" 500 |})
                     end
                 | (Panic e, w0) =>
                     (Ret tt,
                      {| logs := logs s ++ [LogPrint e; LogStack];
                         writer := Http.Error w0
                                     "500 Internal Server Error" 500 |})
                 end).
  { subst out. unfold handler. rewrite Hd.
    unfold with_defer. unfold mbind at 1, with_writer at 1.
    destruct (method t _ (writer s)) as [[res|e] w0].
    - destruct (proc_first res _) as [[[]|e] s2]; cbn [recovered];
        [reflexivity|apply handler_recovers].
    - cbn [recovered]. apply handler_recovers. }
  clearbody out.
  destruct (method t {| Name := TypeName t; Request_ := req |} (writer s))
    as [[res|e] w0] eqn:Hm.
  2:{ subst out. split; [reflexivity|].
      split; [intros t0 ? ? ? [= <-] H|intros t0 ? ? [= <-] H];
        rewrite Hm in H; discriminate H. }
  split; [|split].
  - subst out. now destruct (proc_first res _) as [[[]|e] s2].
  - intros t0 r rest w0' [= <-] H. rewrite Hm in H. injection H as -> <-.
    cbv zeta. rewrite proc_first_Result in Eo. cbv zeta in Eo.
    cbn [logs writer] in Eo.
    destruct (snd (Http.apply_ops _ _)) as [e|];
      [|destruct (snd (Proc r)) as [e|]]; subst out;
      cbn [fst snd logs writer]; try reflexivity;
      (split; [reflexivity|]); apply Error_spec.
  - intros t0 res0 w0' [= <-] H Hres. rewrite Hm in H. injection H as <- <-.
    destruct (Error_spec w0 "500 Internal Server Error" 500)
      as (E1 & E2 & _).
    destruct Hres as [-> | (rest & ->)];
      cbn [proc_first mpanic] in Eo; subst out;
      cbn [fst snd logs writer]; rewrite E1, E2; eauto.
Qed.

End HandlerMore.

(** The same on a route whose Result writes and then faults, on one
    whose action returns nothing, and on one whose action has answered
    by itself and returns nothing. *)
Lemma handler_stops_every_fault_witness :
  (let out :=
     Server.handler ServerMore.dispatch (ServerApp.get "/broken")
       {| Server.logs := []; Server.writer := Http.NewRecorder |} in
   Http.Code (Server.writer (snd out)) = Some 200)
  /\ (let out :=
        Server.handler ServerMore.dispatch (ServerApp.get "/none")
          {| Server.logs := []; Server.writer := Http.NewRecorder |} in
      Http.Code (Server.writer (snd out)) = Some 500)
  /\ (let out :=
        Server.handler ServerMore.dispatch (ServerApp.get "/written")
          {| Server.logs := []; Server.writer := Http.NewRecorder |} in
      Http.Code (Server.writer (snd out)) = Some 200
      /\ Http.Body (Server.writer (snd out))
         = "done500 Internal Server Error" ++ Http.nl).
Proof.
  split; [|split].
  - destruct (handler_stops_every_fault ServerMore.dispatch
                (ServerApp.get "/broken")
                {| Server.logs := []; Server.writer := Http.NewRecorder |})
      as (_ & H & _).
    specialize (H _ ServerMore.broken [] Http.NewRecorder eq_refl eq_refl).
    destruct H as (_ & H). exact H.
  - destruct (handler_stops_every_fault ServerMore.dispatch
                (ServerApp.get "/none")
                {| Server.logs := []; Server.writer := Http.NewRecorder |})
      as (_ & _ & H).
    apply (H _ [] Http.NewRecorder eq_refl eq_refl). left; reflexivity.
  - destruct (handler_stops_every_fault ServerMore.dispatch
                (ServerApp.get "/written")
                {| Server.logs := []; Server.writer := Http.NewRecorder |})
      as (_ & _ & H).
    destruct (H _ [] (Http.Write "done" Http.NewRecorder) eq_refl eq_refl)
      as (H1 & H2 & _); [left; reflexivity|].
    split; [exact H1|exact H2].
Defined.

(** ** MimeTypeFormats and Render of controller.go *)

Section MimeFacts.

Import Controller.

Context {Template : Type}.
Variable appConfig : Config Template.

Lemma Get_Set_eq (m : gmap string string) (mimeType format : string) :
  Get (Set_ m mimeType format) mimeType = format.
Proof. unfold Get, Set_. rewrite lookup_insert_eq. reflexivity. Qed.

Lemma Get_Set_ne (m : gmap string string) (k k' format : string) :
  k <> k' -> Get (Set_ m k format) k' = Get m k'.
Proof. intros H. unfold Get, Set_. rewrite lookup_insert_ne by exact H. reflexivity. Qed.

Lemma Get_Del_eq (m : gmap string string) (mimeType : string) :
  Get (Del m mimeType) mimeType = "".
Proof. unfold Get, Del. rewrite lookup_delete_eq. reflexivity. Qed.

Lemma Get_Del_ne (m : gmap string string) (k k' : string) :
  k <> k' -> Get (Del m k) k' = Get m k'.
Proof. intros H. unfold Get, Del. rewrite lookup_delete_ne by exact H. reflexivity. Qed.

(** [Render] depends on the table through [Get] alone. *)
Lemma Render_ext (m1 m2 : gmap string string) (c : Controller)
    (context : list (gmap string string)) :
  Get m1 (ContentType (Response_ c)) = Get m2 (ContentType (Response_ c)) ->
  Render m1 appConfig c context = Render m2 appConfig c context.
Proof. intros H. unfold Render. rewrite H. reflexivity. Qed.

(** X11: [Render] follows the table of formats.  A content type that is
    set to a format is rendered with the template of that format; one
    that is deleted, or set to the empty format, is unknown; setting or
    deleting another content type changes nothing. *)
Theorem Render_follows_MimeTypeFormats (m : gmap string string)
    (c : Controller) (context : list (gmap string string)) :
  (length context <= 1)%nat ->
  let mimeType := ContentType (Response_ c) in
  (forall (format : string) (t : Template),
      format <> "" ->
      TemplateSet_Get appConfig (AppName appConfig) (Name c) format = Some t ->
      Render (Set_ m mimeType format) appConfig c context
      = Ret (ResultTemplate t (head context)))
  /\ Render (Del m mimeType) appConfig c context
     = Panic ("unknown Content-Type: " ++ mimeType)
  /\ Render (Set_ m mimeType "") appConfig c context
     = Panic ("unknown Content-Type: " ++ mimeType)
  /\ (forall other format : string,
        other <> mimeType ->
        Render (Set_ m other format) appConfig c context
        = Render m appConfig c context
        /\ Render (Del m other) appConfig c context
           = Render m appConfig c context).
Proof.
  intros Hlen mimeType. split; [|split; [|split]].
  - intros format t Hf Ht. unfold Render. fold mimeType.
    rewrite Get_Set_eq.
    destruct (String.eqb format "") eqn:E;
      [apply String.eqb_eq in E; contradiction|].
    rewrite Ht.
    destruct context as [|x [|y rest]]; [reflexivity|reflexivity|].
    simpl in Hlen. lia.
  - apply Render_unknown_content_type; [exact Hlen|apply Get_Del_eq].
  - apply Render_unknown_content_type; [exact Hlen|apply Get_Set_eq].
  - intros other format Hne. split; apply Render_ext.
    + apply Get_Set_ne. exact Hne.
    + apply Get_Del_ne. exact Hne.
Qed.

End MimeFacts.

(** The same on the initial table and the controller [root] of the
    fixture, whose content type is [text/html]. *)
Lemma Render_follows_MimeTypeFormats_witness :
  Controller.Render
    (Controller.Del Controller.MimeTypeFormats "text/html")
    Fixture.appConfig Fixture.rootController []
  = Panic "unknown Content-Type: text/html"
  /\ Controller.Render
       (Controller.Set_ Controller.MimeTypeFormats "text/html" "")
       Fixture.appConfig Fixture.rootController []
     = Panic "unknown Content-Type: text/html".
Proof.
  destruct (Render_follows_MimeTypeFormats Fixture.appConfig
              Controller.MimeTypeFormats Fixture.rootController [])
    as (_ & H1 & H2 & _).
  - simpl. lia.
  - split; [exact H1|exact H2].
Defined.

(** ** New, validateSessionConfig and SettingEnv of kocha.go *)

Section SetupFacts.

Import Setup.

Context {SessionStore RouteTable Router Template ResourceSet LoggerConfig
         Logger : Type}.

Local Abbreviation Config' := (Config SessionStore RouteTable ResourceSet LoggerConfig).
Local Abbreviation World' :=
  (World SessionStore RouteTable Router Template ResourceSet LoggerConfig Logger).

Variable Validate : option (SessionConfig SessionStore) -> res (option string).
Variable buildRouter : RouteTable -> Router + string.
Variable build : Config' -> Application Router Template ResourceSet -> Template + string.
Variable initLogger : LoggerConfig -> Logger.

Local Abbreviation New' := (New Validate buildRouter build initLogger).

(** The loop, by the first session middleware of the list: it does not
    reach [Validate] if there is one. *)
Lemma validate_loop_first
    (V : option (SessionConfig SessionStore) -> res (option string))
    (c : Config') (ms : list Middleware) :
  validate_loop V c ms
  = match SetupSpec.first_session ms with
    | None => V (Session c)
    | Some m => validate_loop V c [m]
    end.
Proof.
  induction ms as [|m ms IH]; [reflexivity|].
  destruct m; [reflexivity|reflexivity|exact IH].
Qed.

Lemma first_session_not_Other (ms : list Middleware) :
  SetupSpec.first_session ms <> Some OtherMiddleware.
Proof.
  induction ms as [|m ms IH]; [discriminate|]. destruct m; try discriminate.
  exact IH.
Qed.

Ltac new_cases w :=
  unfold New, mbind, mupd, mret, validateSessionConfig, Setup.buildRouter,
    buildResourceSet, buildTemplate;
  cbn [config app Log set_config set_app set_Log with_Addr
       with_MaxClientBodySize Addr MaxClientBodySize Middlewares Session
       RouteTable_ ResourceSet_ Logger_];
  destruct (String.eqb (Addr (config w)) "") eqn:?E1;
  cbn [config app Log set_config set_app set_Log with_Addr
       with_MaxClientBodySize Addr MaxClientBodySize Middlewares Session
       RouteTable_ ResourceSet_ Logger_];
  destruct (MaxClientBodySize (config w) <? 1) eqn:?E2;
  cbn [config app Log set_config set_app set_Log with_Addr
       with_MaxClientBodySize Addr MaxClientBodySize Middlewares Session
       RouteTable_ ResourceSet_ Logger_].

(** X12: [New] fills in the address and the body size limit of the
    configuration it is given, whether it then succeeds, fails or
    faults, and touches nothing else of it; the global logger is set
    exactly when it succeeds. *)
Theorem New_sets_defaults (w : World') :
  let out := New' w in
  let c := config w in
  let c' := config (snd out) in
  Addr c' = (if String.eqb (Addr c) "" then DefaultHttpAddr else Addr c)
  /\ MaxClientBodySize c'
     = (if MaxClientBodySize c <? 1 then DefaultMaxClientBodySize
        else MaxClientBodySize c)
  /\ Addr c' <> "" /\ 1 <= MaxClientBodySize c'
  /\ Middlewares c' = Middlewares c /\ Session c' = Session c
  /\ RouteTable_ c' = RouteTable_ c /\ ResourceSet_ c' = ResourceSet_ c
  /\ Logger_ c' = Logger_ c
  /\ match fst out with
     | Ret (inl a) =>
         Log (snd out) = Some (initLogger (Logger_ c))
         /\ AppResourceSet a = Some (ResourceSet_ c)
         /\ Router_ a <> None /\ Template_ a <> None
     | _ => Log (snd out) = Log w
     end.
Proof.
  intros out c c'. subst out c c'.
  assert (Hne : String.eqb (Addr (config w)) "" = false -> Addr (config w) <> "").
  { intros E. apply String.eqb_neq. exact E. }
  new_cases w;
    match goal with
    | |- context [validate_loop ?V ?c ?ms] =>
        destruct (validate_loop V c ms) as [[e|]|e]
    end;
    cbn [fst snd config app Log set_app set_config set_Log];
    repeat match goal with
      | |- context [match build ?c ?a with _ => _ end] =>
          destruct (build c a) as [t|e];
          cbn [fst snd config app Log set_app set_config set_Log
               Router_ Template_ AppResourceSet]
      | |- context [match buildRouter ?r with _ => _ end] =>
          destruct (buildRouter r) as [router|e];
          cbn [fst snd config app Log set_app set_config set_Log
               Router_ Template_ AppResourceSet]
      end;
    cbn [Addr MaxClientBodySize Middlewares Session RouteTable_ ResourceSet_
         Logger_ with_Addr with_MaxClientBodySize];
    repeat split; auto; try discriminate;
    try (unfold DefaultMaxClientBodySize; lia).
Qed.

(** X13: the first session middleware of the list decides, wherever it
    stands.  If the session configuration or its store is nil, [New]
    fails with an error, before a template or a router is built and
    without a call of [Validate], and panics if that middleware is a
    nil pointer, which the error message dereferences; if neither is
    nil, [Validate] is not called.  Without a session middleware
    [Validate] decides. *)
Theorem SessionMiddleware_needs_a_store (w : World') :
  let out := New' w in
  let c := config w in
  let first := SetupSpec.first_session (Middlewares c) in
  (first = Some SessionMiddleware ->
   (Session c = None ->
    fst out
    = Ret (inr "Because *kocha.Config is nil, kocha.SessionMiddleware cannot be used"))
   /\ (forall s, Session c = Some s -> Store s = None ->
         fst out
         = Ret (inr "Because kocha.Config.Store is nil, kocha.SessionMiddleware cannot be used")))
  /\ (first = Some NilSessionMiddleware ->
      (Session c = None -> fst out = Panic nil_dereference)
      /\ (forall s, Session c = Some s -> Store s = None ->
            fst out = Panic nil_dereference))
  /\ (first <> None ->
      forall s st, Session c = Some s -> Store s = Some st ->
        forall Validate2,
          New' w = New Validate2 buildRouter build initLogger w)
  /\ (first = None ->
      (forall e, Validate (Session c) = Ret (Some e) -> fst out = Ret (inr e))
      /\ (forall e, Validate (Session c) = Panic e -> fst out = Panic e)).
Proof.
  intros out c first. subst out c first. split; [|split; [|split]].
  - intros Hf. split.
    + intros Hs.
      new_cases w; rewrite validate_loop_first;
        cbn [Middlewares with_Addr with_MaxClientBodySize]; rewrite Hf;
        cbn [validate_loop Session with_Addr with_MaxClientBodySize];
        rewrite Hs; reflexivity.
    + intros s Hs Hst.
      new_cases w; rewrite validate_loop_first;
        cbn [Middlewares with_Addr with_MaxClientBodySize]; rewrite Hf;
        cbn [validate_loop Session with_Addr with_MaxClientBodySize];
        rewrite Hs, Hst; reflexivity.
  - intros Hf. split.
    + intros Hs.
      new_cases w; rewrite validate_loop_first;
        cbn [Middlewares with_Addr with_MaxClientBodySize]; rewrite Hf;
        cbn [validate_loop Session with_Addr with_MaxClientBodySize];
        rewrite Hs; reflexivity.
    + intros s Hs Hst.
      new_cases w; rewrite validate_loop_first;
        cbn [Middlewares with_Addr with_MaxClientBodySize]; rewrite Hf;
        cbn [validate_loop Session with_Addr with_MaxClientBodySize];
        rewrite Hs, Hst; reflexivity.
  - intros Hf s st Hs Hst V2.
    pose proof (first_session_not_Other (Middlewares (config w))) as Hno.
    destruct (SetupSpec.first_session (Middlewares (config w))) as [m|] eqn:E;
      [|contradiction].
    destruct m; [| |contradiction];
      new_cases w; rewrite !validate_loop_first;
      cbn [Middlewares with_Addr with_MaxClientBodySize]; rewrite E;
      cbn [validate_loop Session with_Addr with_MaxClientBodySize];
      rewrite Hs, Hst; reflexivity.
  - intros Hf. split; intros e He;
      new_cases w; rewrite validate_loop_first;
      cbn [Middlewares with_Addr with_MaxClientBodySize]; rewrite Hf;
      cbn [Session with_Addr with_MaxClientBodySize]; rewrite He; reflexivity.
Qed.

End SetupFacts.

Section EnvFacts.

Import Setup.

Variable setenv_ok : string -> string -> bool.

(** X14: after [SettingEnv] the variable reads as the value returned,
    if the system accepts the name and the default; a variable that is
    set to the empty string counts as not set; no other variable changes;
    and a second call returns the same value whatever default it is
    given, unless that value is empty. *)
Theorem SettingEnv_sets_the_default (env : gmap string string)
    (key def : string) :
  setenv_ok key def = true ->
  let out := SettingEnv setenv_ok key def env in
  (exists v, fst out = Ret v
     /\ v = (if String.eqb (Getenv env key) "" then def else Getenv env key)
     /\ Getenv (snd out) key = v
     /\ (v <> "" ->
         forall def2, SettingEnv setenv_ok key def2 (snd out) = (Ret v, snd out)))
  /\ (forall other, other <> key -> snd out !! other = env !! other).
Proof.
  intros Hok out. subst out. unfold SettingEnv.
  destruct (String.eqb (Getenv env key) "") eqn:E; cbn [negb fst snd].
  - split.
    + exists def. split; [reflexivity|]. split; [reflexivity|].
      unfold Setenv. rewrite Hok.
      assert (Hg : Getenv (<[key := def]> env) key = def).
      { unfold Getenv. rewrite lookup_insert_eq. reflexivity. }
      split; [exact Hg|].
      intros Hne def2. rewrite Hg.
      destruct (String.eqb def "") eqn:E2;
        [apply String.eqb_eq in E2; contradiction|reflexivity].
    + intros other Hne. unfold Setenv. rewrite Hok.
      apply lookup_insert_ne. congruence.
  - split; [|reflexivity].
    exists (Getenv env key). repeat split.
    intros _ def2. rewrite E. reflexivity.
Qed.

End EnvFacts.

(** The same on a configuration without address and body size limit:
    [New] fails for want of a session configuration, and the defaults
    are in the configuration all the same. *)
Lemma New_sets_defaults_witness :
  Setup.Addr (Setup.config (snd (SetupFixture.New SetupFixture.world)))
  = "127.0.0.1:9100"
  /\ Setup.MaxClientBodySize (Setup.config (snd (SetupFixture.New SetupFixture.world)))
     = 10485760.
Proof.
  destruct (New_sets_defaults SetupFixture.Validate (fun _ => inl tt)
              (fun _ _ => inl tt) (fun _ => tt) SetupFixture.world)
    as (H1 & H2 & _).
  split; [exact H1|exact H2].
Defined.

(** The same on that configuration, whose session middleware is the
    second of two, and on the one in which it is a nil pointer. *)
Lemma SessionMiddleware_needs_a_store_witness :
  fst (SetupFixture.New SetupFixture.world)
  = Ret (inr "Because *kocha.Config is nil, kocha.SessionMiddleware cannot be used")
  /\ fst (SetupFixture.New SetupFixture.nil_world)
     = Panic Setup.nil_dereference.
Proof.
  split.
  - destruct (SessionMiddleware_needs_a_store SetupFixture.Validate
                (fun _ => inl tt) (fun _ _ => inl tt) (fun _ => tt)
                SetupFixture.world) as [H _].
    apply H; reflexivity.
  - destruct (SessionMiddleware_needs_a_store SetupFixture.Validate
                (fun _ => inl tt) (fun _ _ => inl tt) (fun _ => tt)
                SetupFixture.nil_world) as (_ & H & _).
    apply H; reflexivity.
Defined.

(** The same on an environment in which [KOCHA_ENV] is set to the empty
    string. *)
Lemma SettingEnv_sets_the_default_witness :
  let env : gmap string string := <["KOCHA_ENV" := ""]> ∅ in
  let out := Setup.SettingEnv SetupFixture.setenv_ok "KOCHA_ENV" "dev" env in
  fst out = Ret "dev" /\ Setup.Getenv (snd out) "KOCHA_ENV" = "dev".
Proof.
  intros env out.
  destruct (SettingEnv_sets_the_default SetupFixture.setenv_ok env
              "KOCHA_ENV" "dev" eq_refl) as [(v & H1 & H2 & H3 & _) _].
  fold out in H1, H3. rewrite H2 in H1, H3. split; [exact H1|exact H3].
Defined.

(** ** CopyTemplate of util.go *)

Section CopyFacts.

Import Scaffold.
Local Open Scope list_scope.

Context {Template Data : Type}.
Variable ParseFiles : option Renderer.File -> Template + string.
Variable Execute : Template -> Data -> string + string.
Variable Create_err : string -> option string.
Variable Copy_err : string -> string -> option (string * string).

Local Abbreviation CopyTemplate' :=
  (CopyTemplate ParseFiles Execute Create_err Copy_err).
Local Abbreviation create' := (create Create_err Copy_err).

(** [confirmOverwrite] returns the first answer of the input and faults
    at the end of the input; it prompts and touches no file. *)
Lemma confirmOverwrite_spec (dstPath : string) (stdin : list string) :
  forall w : World,
    fs (snd (confirmOverwrite dstPath stdin w)) = fs w
    /\ fst (confirmOverwrite dstPath stdin w)
       = match first_answer stdin with
         | Some b => Done b
         | None => Fault "EOF"
         end.
Proof.
  induction stdin as [|yesno stdin IH]; intros w.
  - split; reflexivity.
  - cbn [confirmOverwrite first_answer]. unfold gbind at 1. cbn [print].
    destruct (answer yesno) as [b|]; [split; reflexivity|].
    destruct stdin as [|y2 stdin'] eqn:E.
    + split; reflexivity.
    + rewrite <- E in *.
      specialize (IH {| fs := fs w; stdout := stdout w ++ [Prompt dstPath] |}).
      exact IH.
Qed.

(** The tail of [CopyTemplate] changes the file at [dstPath] alone, and
    when it returns the file holds the bytes copied. *)
Lemma create_spec (usage dstPath bufFrom message : string) (w : World) :
  let out := create' usage dstPath bufFrom
               (fun p => print (Status message p)) w in
  (forall p, p <> dstPath -> fs (snd out) !! p = fs w !! p)
  /\ (fst out = Done tt ->
      out = (Done tt,
             {| fs := <[dstPath := {| Renderer.content := bufFrom;
                                      Renderer.openErr := None |}]> (fs w);
                stdout := stdout w ++ [Status message dstPath] |})).
Proof.
  intros out. subst out. unfold create.
  destruct (Create_err dstPath) as [err|].
  - split; [reflexivity|discriminate].
  - unfold gbind at 1. cbn [write].
    destruct (Copy_err dstPath bufFrom) as [[written err]|];
      unfold gbind, write, PanicOnError, print; cbn [fst snd fs stdout].
    + split; [|discriminate]. intros p Hp.
      rewrite !lookup_insert_ne by congruence. reflexivity.
    + split.
      * intros p Hp. rewrite !lookup_insert_ne by congruence. reflexivity.
      * intros _. rewrite insert_insert_eq. reflexivity.
Qed.

(** The outcomes of [CopyTemplate], by the state of the file at
    [dstPath] and the answer. *)
Lemma CopyTemplate_cases
    (usage srcPath dstPath : string) (data : Data) (stdin : list string)
    (w : World) :
  let out := CopyTemplate' usage srcPath dstPath data stdin w in
  (forall p, p <> dstPath -> fs (snd out) !! p = fs w !! p)
  /\ (forall f, fs w !! dstPath = Some f ->
        first_answer stdin <> Some true -> fs (snd out) = fs w)
  /\ (fst out = Done tt ->
      exists tmpl bufFrom,
        ParseFiles (fs w !! srcPath) = inl tmpl
        /\ Execute tmpl data = inl bufFrom
        /\ (fs (snd out) !! dstPath
            = Some {| Renderer.content := bufFrom; Renderer.openErr := None |}
            \/ (first_answer stdin = Some false /\ fs (snd out) = fs w))).
Proof.
  intros out.
  assert (Eo : out = CopyTemplate' usage srcPath dstPath data stdin w)
    by reflexivity.
  clearbody out. unfold CopyTemplate in Eo.
  destruct (ParseFiles (fs w !! srcPath)) as [tmpl|err] eqn:Hp.
  2:{ subst out. split; [reflexivity|]. split; [reflexivity|discriminate]. }
  destruct (Execute tmpl data) as [bufFrom|err] eqn:He.
  2:{ subst out. split; [reflexivity|]. split; [reflexivity|discriminate]. }
  unfold gbind at 1, detectConflict in Eo.
  destruct (fs w !! dstPath) as [f|] eqn:Hd.
  - destruct (Renderer.openErr f) as [err|] eqn:Ho.
    { subst out. split; [reflexivity|]. split; [reflexivity|discriminate]. }
    destruct (String.eqb bufFrom (Renderer.content f)) eqn:Hb.
    + (* identical *)
      subst out. cbn [PrintIdentical print fst snd fs].
      split; [reflexivity|]. split; [reflexivity|].
      intros _. exists tmpl, bufFrom. split; [first [exact Hp|reflexivity]|].
      split; [first [exact He|reflexivity]|]. left.
      apply String.eqb_eq in Hb. rewrite Hd. destruct f as [c o].
      cbn in *. subst. reflexivity.
    + (* conflict *)
      unfold gbind at 1 in Eo. cbn [PrintConflict print] in Eo.
      unfold gbind at 1 in Eo.
      set (w1 := {| fs := fs w; stdout := stdout w ++ [Status "conflict" dstPath] |}) in Eo.
      destruct (confirmOverwrite_spec dstPath stdin w1) as [C1 C2].
      destruct (confirmOverwrite dstPath stdin w1) as [r w2].
      cbn [fst snd] in C1, C2.
      destruct (first_answer stdin) as [[|]|] eqn:Ha; subst r; cbn [negb] in Eo.
      * pose proof (create_spec usage dstPath bufFrom "overwrite" w2) as [K1 K2].
        unfold PrintOverwrite in Eo. rewrite <- Eo in K1, K2.
        rewrite C1 in K1.
        split; [exact K1|]. split; [intros f0 _ Hn; congruence|].
        intros Hdone. exists tmpl, bufFrom. split; [first [exact Hp|reflexivity]|].
      split; [first [exact He|reflexivity]|]. left.
        rewrite (K2 Hdone). cbn [snd fs].
        apply lookup_insert_eq.
      * subst out. cbn [PrintSkip print fst snd fs]. rewrite C1.
        split; [reflexivity|]. split; [reflexivity|].
        intros _. exists tmpl, bufFrom. split; [first [exact Hp|reflexivity]|].
      split; [first [exact He|reflexivity]|]. right. split; reflexivity.
      * subst out. cbn [fst snd]. rewrite C1.
        split; [reflexivity|]. split; [reflexivity|discriminate].
  - pose proof (create_spec usage dstPath bufFrom "create" w) as [K1 K2].
    unfold PrintCreate in Eo. rewrite <- Eo in K1, K2.
    split; [exact K1|]. split; [discriminate|].
    intros Hdone. exists tmpl, bufFrom. split; [first [exact Hp|reflexivity]|].
      split; [first [exact He|reflexivity]|]. left.
    rewrite (K2 Hdone). cbn [snd fs].
    apply lookup_insert_eq.
Qed.

(** X15: on an input of ASCII text, [CopyTemplate] changes no file but
    the one at [dstPath], and that one, if it exists, only after a line
    of the input that says yes.  When it returns, the file holds the
    output of the template, unless the answer was no and nothing has
    changed. *)
Theorem CopyTemplate_asks_before_overwriting
    (usage srcPath dstPath : string) (data : Data) (stdin : list string)
    (w : World) :
  Forall Case.ascii_only stdin ->
  let out := CopyTemplate' usage srcPath dstPath data stdin w in
  (forall p, p <> dstPath -> fs (snd out) !! p = fs w !! p)
  /\ (forall f, fs w !! dstPath = Some f ->
        first_answer stdin <> Some true -> fs (snd out) = fs w)
  /\ (fst out = Done tt ->
      exists tmpl bufFrom,
        ParseFiles (fs w !! srcPath) = inl tmpl
        /\ Execute tmpl data = inl bufFrom
        /\ (fs (snd out) !! dstPath
            = Some {| Renderer.content := bufFrom; Renderer.openErr := None |}
            \/ (first_answer stdin = Some false /\ fs (snd out) = fs w))).
Proof.
  intros _ out.
  destruct (CopyTemplate_cases usage srcPath dstPath data stdin w)
    as (H1 & H2 & H3).
  split; [exact H1|]. split; [exact H2|exact H3].
Qed.

(** X16: [CopyTemplate] is idempotent.  After a run on an input of
    ASCII text that returned and left the output of the template at
    [dstPath], a second run finds the file identical: it says so,
    changes nothing and reads no input. *)
Theorem CopyTemplate_twice (usage srcPath dstPath : string) (data : Data)
    (stdin stdin2 : list string) (w : World) (tmpl : Template)
    (bufFrom : string) :
  Forall Case.ascii_only stdin ->
  srcPath <> dstPath ->
  ParseFiles (fs w !! srcPath) = inl tmpl ->
  Execute tmpl data = inl bufFrom ->
  let out := CopyTemplate' usage srcPath dstPath data stdin w in
  fst out = Done tt ->
  first_answer stdin <> Some false ->
  CopyTemplate' usage srcPath dstPath data stdin2 (snd out)
  = (Done tt,
     {| fs := fs (snd out);
        stdout := stdout (snd out) ++ [Status "identical" dstPath] |}).
Proof.
  intros _ Hne Hp He out Hdone Hans.
  destruct (CopyTemplate_cases usage srcPath dstPath data stdin w)
    as (F1 & _ & F3).
  fold out in F1, F3.
  destruct (F3 Hdone) as (tmpl' & buf' & Hp' & He' & [Hf | [Hno _]]);
    [|contradiction].
  rewrite Hp in Hp'. injection Hp' as <-.
  rewrite He in He'. injection He' as <-.
  unfold CopyTemplate. rewrite (F1 srcPath Hne), Hp, He.
  unfold gbind, detectConflict. rewrite Hf. cbn [Renderer.openErr Renderer.content].
  rewrite String.eqb_refl. reflexivity.
Qed.

End CopyFacts.

(** The same on a file that differs from the output, with the answers
    [maybe] and [n]: nothing changes. *)
Lemma CopyTemplate_asks_before_overwriting_witness :
  Scaffold.first_answer ["maybe"; " n "] = Some false
  /\ Scaffold.fs (snd (ScaffoldFixture.CopyTemplate ["maybe"; " n "]
                        ScaffoldFixture.world))
     = Scaffold.fs ScaffoldFixture.world.
Proof.
  split; [reflexivity|].
  destruct (CopyTemplate_asks_before_overwriting ScaffoldFixture.ParseFiles
              ScaffoldFixture.Execute (fun _ => None) (fun _ _ => None)
              "controller NAME" "skeleton/view.html" "app/view/user.html"
              "User" ["maybe"; " n "] ScaffoldFixture.world) as (_ & H & _).
  - repeat constructor.
  - apply (H (ScaffoldFixture.file "<h2>old")); [reflexivity|discriminate].
Defined.

(** The same on that file with the answer [y]: the second run, without
    any input, finds the file identical. *)
Lemma CopyTemplate_twice_witness :
  let w1 := snd (ScaffoldFixture.CopyTemplate ["y"] ScaffoldFixture.world) in
  Scaffold.fs w1 !! "app/view/user.html" = Some (ScaffoldFixture.file "<h1>User")
  /\ ScaffoldFixture.CopyTemplate [] w1
     = (Scaffold.Done tt,
        {| Scaffold.fs := Scaffold.fs w1;
           Scaffold.stdout :=
             (Scaffold.stdout w1
              ++ [Scaffold.Status "identical" "app/view/user.html"])%list |}).
Proof.
  intros w1. split; [reflexivity|].
  apply (CopyTemplate_twice ScaffoldFixture.ParseFiles ScaffoldFixture.Execute
           (fun _ => None) (fun _ _ => None)
           "controller NAME" "skeleton/view.html" "app/view/user.html"
           "User" ["y"] [] ScaffoldFixture.world "<h1>" "<h1>User").
  - repeat constructor.
  - discriminate.
  - reflexivity.
  - reflexivity.
  - reflexivity.
  - discriminate.
Defined.

(** ** More on SendFile of renderer.go *)

Section SendFileMore.

Import Renderer.

Variable formats : gmap string string.
Variable app : Application.
Variable fs : gmap string File.
Variable byExt byBody : string -> string.

Lemma send_replaces_content_type (c : Context) (ct path file : string) :
  send byExt byBody (with_ContentType c ct) path file
  = send byExt byBody c path file.
Proof. reflexivity. Qed.

(** X17: [SendFile] replaces the content type of the response: when the
    content is found, as a resource or as a file, the content type that
    the handler had set has no effect on the outcome. *)
Theorem SendFile_replaces_the_content_type (c : Context) (path ct : string) :
  let path' :=
    if Path.IsAbs path then path
    else Path.Join [AppPath app; StaticDir; path] in
  (exists b, ResourceSet app !! path = Some (RString b)
             \/ ResourceSet app !! path = Some (RBytes b))
  \/ ((ResourceSet app !! path = None \/ ResourceSet app !! path = Some ROther)
      /\ exists f, fs !! path' = Some f /\ openErr f = None) ->
  SendFile formats app fs byExt byBody (with_ContentType c ct) path
  = SendFile formats app fs byExt byBody c path.
Proof.
  intros path' [(b & Hb) | (Hr & f & Hf & Ho)].
  - rewrite !(SendFile_resource formats app fs byExt byBody _ path b Hb).
    apply send_replaces_content_type.
  - rewrite !(SendFile_file formats app fs byExt byBody _ path f Hr Hf Ho).
    apply send_replaces_content_type.
Qed.

End SendFileMore.

(** The same on the resource of the fixture, with a handler that had set
    [image/png]. *)
Lemma SendFile_replaces_the_content_type_witness :
  Renderer.SendFile Controller.MimeTypeFormats Fixture.app Fixture.fs
    Fixture.byExt Fixture.byBody
    (Renderer.with_ContentType Fixture.freshContext "image/png")
    "/srv/app/public/logo.txt"
  = Renderer.SendFile Controller.MimeTypeFormats Fixture.app Fixture.fs
      Fixture.byExt Fixture.byBody Fixture.freshContext
      "/srv/app/public/logo.txt".
Proof.
  apply (SendFile_replaces_the_content_type Controller.MimeTypeFormats
           Fixture.app Fixture.fs Fixture.byExt Fixture.byBody).
  left. exists "embedded". left. reflexivity.
Defined.

(** ** isRouteDefined of kocha/generator/controller.go *)

Section RouteFacts.

Import RouteAST.
Local Open Scope list_scope.




Lemma isRouteDefined_app (r1 r2 : list CompositeLit_) (name : string) :
  isRouteDefined r1 name = Ret false ->
  isRouteDefined (r1 ++ r2) name = isRouteDefined r2 name.
Proof.
  induction r1 as [|a r1 IH]; intros H; [reflexivity|].
  cbn [app isRouteDefined] in *.
  destruct (elts_loop (snd a) name) as [[|]|e]; cbn [res_bind] in *;
    try discriminate H.
  exact (IH H).
Qed.

Lemma findRouteASTs_loop_acc (elts : list Expr) :
  forall acc : list CompositeLit_,
    findRouteASTs_loop elts acc = acc ++ findRouteASTs_loop elts [].
Proof.
  induction elts as [|c elts IH]; intros acc; cbn [findRouteASTs_loop].
  - symmetry. apply app_nil_r.
  - destruct c; try apply IH.
    rewrite IH, (IH ([] ++ _)), <- app_assoc. reflexivity.
Qed.

Lemma findRouteASTs_loop_app (a b : list Expr) :
  findRouteASTs_loop (a ++ b) []
  = findRouteASTs_loop a [] ++ findRouteASTs_loop b [].
Proof.
  induction a as [|c a IH]; [reflexivity|].
  cbn [app findRouteASTs_loop].
  destruct c; try exact IH.
  rewrite findRouteASTs_loop_acc, (findRouteASTs_loop_acc a), IH, <- app_assoc.
  reflexivity.
Qed.

(** X19: the route that [addRouteToFile] writes after the last route of
    the table is found by [isRouteDefined] under the name of its
    controller, so that a second run does not write it again, and it
    hides no route with another name. *)
Theorem isRouteDefined_after_addRoute
    (t : option Expr) (pre post : list Expr) (routeName routeStructName : string) :
  let new := new_route routeName routeStructName in
  let table := (t, pre ++ post) in
  let table' := (t, pre ++ CompositeLit (fst new) (snd new) :: post) in
  findRouteASTs (t, post) = [] ->
  isRouteDefined (findRouteASTs table) routeStructName = Ret false ->
  findRouteASTs table' = findRouteASTs table ++ [new]
  /\ isRouteDefined (findRouteASTs table') routeStructName = Ret true
  /\ (forall other,
        other <> routeStructName ->
        isRouteDefined (findRouteASTs table) other = Ret false ->
        isRouteDefined (findRouteASTs table') other = Ret false).
Proof.
  intros new table table' Hpost H.
  assert (E : findRouteASTs table' = findRouteASTs table ++ [new]).
  { subst table table' new. unfold findRouteASTs, new_route in *.
    cbn [fst snd] in *.
    rewrite !findRouteASTs_loop_app. cbn [findRouteASTs_loop app].
    rewrite (findRouteASTs_loop_acc post [_]), Hpost, !app_nil_r.
    reflexivity. }
  split; [exact E|]. rewrite E. split.
  - rewrite (isRouteDefined_app _ _ _ H). cbn.
    rewrite String.eqb_refl. reflexivity.
  - intros other Hne Ho. rewrite (isRouteDefined_app _ _ _ Ho). cbn.
    destruct (String.eqb routeStructName other) eqn:E2; [|reflexivity].
    apply String.eqb_eq in E2. congruence.
Qed.

End RouteFacts.


(** The same on a table with the route of [Root] and a comment-like
    element after it, and a new controller [User]. *)
Lemma isRouteDefined_after_addRoute_witness :
  let root := RouteAST.new_route "root" "Root" in
  let user := RouteAST.new_route "user" "User" in
  RouteAST.isRouteDefined
    (RouteAST.findRouteASTs
       (Some (RouteAST.Ident "RouteTable"),
        [RouteAST.CompositeLit (fst root) (snd root);
         RouteAST.CompositeLit (fst user) (snd user);
         RouteAST.Ident "extra"]))
    "User"
  = Ret true.
Proof.
  intros root user.
  apply (isRouteDefined_after_addRoute (Some (RouteAST.Ident "RouteTable"))
           [RouteAST.CompositeLit (fst root) (snd root)]
           [RouteAST.Ident "extra"] "user" "User");
    reflexivity.
Defined.

(** ** SendFile and the static directory *)

Section StaticFacts.

Import Path PathSpec PathDotDot.
Local Open Scope list_scope.
Local Open Scope nat_scope.

Lemma no_dotdot_restart (l : list ascii) :
  starts_slash l = true \/ l = [] ->
  no_dotdot_from false l = true -> no_dotdot_from true l = true.
Proof.
  intros [H | ->] Hn; [|reflexivity].
  destruct l as [|c l]; [reflexivity|]. cbn [starts_slash] in H.
  cbn [no_dotdot_from] in *. rewrite H in *.
  apply Ascii.eqb_eq in H. subst c. exact Hn.
Qed.

Lemma no_dotdot_copy_elem (l : list ascii) :
  forall start : bool,
    no_dotdot_from start l = true ->
    no_dotdot_from true (snd (copy_elem l)) = true.
Proof.
  induction l as [|c l IH]; intros start H; [reflexivity|].
  cbn [copy_elem]. cbn [no_dotdot_from] in H.
  apply andb_true_iff in H as [_ H].
  destruct (Ascii.eqb c slash) eqn:Hc.
  - cbn [snd no_dotdot_from]. rewrite Hc.
    apply Ascii.eqb_eq in Hc. subst c. exact H.
  - specialize (IH false H). destruct (copy_elem l) as [e r]. exact IH.
Qed.

Lemma copy_elem_rest (l : list ascii) :
  starts_slash (snd (copy_elem l)) = true \/ snd (copy_elem l) = [].
Proof.
  induction l as [|c l IH]; [now right|]. cbn [copy_elem].
  destruct (Ascii.eqb c slash) eqn:Hc; [left; exact Hc|].
  destruct (copy_elem l) as [e r]. exact IH.
Qed.

(** On a path without [..] the loop of [Clean] only adds to its buffer,
    and what it adds to a buffer that holds an element starts with a
    slash. *)
Lemma clean_loop_extends (f : nat) :
  forall (rooted : bool) (rest out : list ascii) (dd : nat),
    (if rooted then 1 < length out else 0 < length out) ->
    no_dotdot_from true rest = true ->
    exists s, clean_loop f rooted rest out dd = out ++ s
              /\ (s = [] \/ starts_slash s = true).
Proof.
  induction f as [|f IH]; intros rooted rest out dd Hq Hn.
  - exists []. rewrite app_nil_r. split; [reflexivity|now left].
  - destruct rest as [|c rest1].
    { exists []. rewrite app_nil_r. split; [reflexivity|now left]. }
    cbn [clean_loop]. pose proof Hn as Hn0. cbn [no_dotdot_from] in Hn.
    apply andb_true_iff in Hn as [Hhead Htail].
    destruct (Ascii.eqb c slash) eqn:Hs; [apply IH; assumption|].
    destruct (Ascii.eqb c dot && ends_elem (c :: rest1) 1) eqn:Hdot.
    { apply IH; [exact Hq|]. apply no_dotdot_restart; [|exact Htail].
      apply andb_true_iff in Hdot as [_ He]. unfold ends_elem in He.
      cbn in He. destruct rest1 as [|d r]; [now right|left; exact He]. }
    destruct (Ascii.eqb c dot && at_is (c :: rest1) 1 dot
              && ends_elem (c :: rest1) 2) eqn:Hdd.
    { cbn [andb] in Hhead. rewrite Hdd in Hhead. discriminate Hhead. }
    assert (Hout1 : (if (rooted && negb (length out =? 1))
                        || (negb rooted && negb (length out =? 0))
                     then out ++ [slash] else out) = out ++ [slash]).
    { destruct rooted; cbn [andb orb negb].
      - destruct (Nat.eqb_spec (length out) 1); [lia|reflexivity].
      - destruct (Nat.eqb_spec (length out) 0); [lia|reflexivity]. }
    rewrite Hout1.
    pose proof (no_dotdot_copy_elem (c :: rest1) true Hn0) as Hn'.
    destruct (copy_elem (c :: rest1)) as [e rest'] eqn:Ec. cbn [snd] in Hn'.
    destruct (IH rooted rest' ((out ++ [slash]) ++ e) dd) as (s & Hs1 & Hs2);
      [|exact Hn'|].
    { rewrite !length_app. cbn [length]. destruct rooted; lia. }
    exists (slash :: e ++ s). split; [|right; reflexivity].
    rewrite Hs1, <- !app_assoc. reflexivity.
Qed.

Lemma ends_elem_app (A B : list ascii) (k : nat) :
  k <= length A -> ends_elem (A ++ slash :: B) k = ends_elem A k.
Proof.
  intros H. unfold ends_elem.
  destruct (Nat.eq_dec k (length A)) as [-> | Hne].
  - rewrite nth_error_app2 by lia. rewrite Nat.sub_diag. cbn.
    rewrite (proj2 (nth_error_None A (length A))) by lia. reflexivity.
  - rewrite nth_error_app1 by lia. reflexivity.
Qed.

Lemma at_is_dot_app (A B : list ascii) (k : nat) :
  k <= length A -> at_is (A ++ slash :: B) k dot = at_is A k dot.
Proof.
  intros H. unfold at_is.
  destruct (Nat.eq_dec k (length A)) as [-> | Hne].
  - rewrite nth_error_app2 by lia. rewrite Nat.sub_diag. cbn.
    rewrite (proj2 (nth_error_None A (length A))) by lia. reflexivity.
  - rewrite nth_error_app1 by lia. reflexivity.
Qed.

Lemma copy_elem_app_slash (A B : list ascii) :
  copy_elem (A ++ slash :: B)
  = (fst (copy_elem A), snd (copy_elem A) ++ slash :: B).
Proof.
  induction A as [|c A IH]; [reflexivity|].
  cbn [app copy_elem]. destruct (Ascii.eqb c slash); [reflexivity|].
  rewrite IH. destruct (copy_elem A) as [e r]. reflexivity.
Qed.

(** The loop of [Clean] on a path with a slash in it is the loop on what
    precedes the slash, then the loop on what follows it. *)
Lemma clean_loop_split (n : nat) :
  forall (A : list ascii),
    length A <= n ->
    forall (rooted : bool) (B out : list ascii) (dd : nat),
    exists dd',
      forall f1 f2 f3,
        length (A ++ slash :: B) <= f1 -> length B <= f2 -> length A <= f3 ->
        clean_loop f1 rooted (A ++ slash :: B) out dd
        = clean_loop f2 rooted B (clean_loop f3 rooted A out dd) dd'.
Proof.
  induction n as [|n IH]; intros A Hlen rooted B out dd.
  - destruct A; [|simpl in Hlen; lia]. exists dd. intros f1 f2 f3 H1 H2 H3.
    rewrite clean_loop_nil. destruct f1 as [|f1]; [simpl in H1; lia|].
    cbn [app]. rewrite step_slash. apply clean_loop_fuel; [simpl in H1; lia|exact H2].
  - destruct A as [|c A1].
    { exists dd. intros f1 f2 f3 H1 H2 H3.
      rewrite clean_loop_nil. destruct f1 as [|f1]; [simpl in H1; lia|].
      cbn [app]. rewrite step_slash.
      apply clean_loop_fuel; [simpl in H1; lia|exact H2]. }
    simpl in Hlen.
    assert (Hstep : forall (A' out' : list ascii) (dd1 : nat),
               length A' <= n ->
               (forall f1, length ((c :: A1) ++ slash :: B) <= Datatypes.S f1 ->
                  clean_loop (Datatypes.S f1) rooted ((c :: A1) ++ slash :: B) out dd
                  = clean_loop f1 rooted (A' ++ slash :: B) out' dd1) ->
               (forall f3, length (c :: A1) <= Datatypes.S f3 ->
                  clean_loop (Datatypes.S f3) rooted (c :: A1) out dd
                  = clean_loop f3 rooted A' out' dd1) ->
               length A' <= length A1 ->
               exists dd',
                 forall f1 f2 f3,
                   length ((c :: A1) ++ slash :: B) <= f1 -> length B <= f2 ->
                   length (c :: A1) <= f3 ->
                   clean_loop f1 rooted ((c :: A1) ++ slash :: B) out dd
                   = clean_loop f2 rooted B
                       (clean_loop f3 rooted (c :: A1) out dd) dd').
    { intros A' out' dd1 Hl HL HR Hle.
      destruct (IH A' Hl rooted B out' dd1) as (dd' & Hdd).
      exists dd'. intros f1 f2 f3 H1 H2 H3.
      destruct f1 as [|f1]; [simpl in H1; lia|].
      destruct f3 as [|f3]; [simpl in H3; lia|].
      rewrite (HL f1 H1), (HR f3 H3).
      apply Hdd; [|exact H2|simpl in H3; lia].
      rewrite length_app in *. simpl in *. lia. }
    assert (Hc1 : ends_elem (c :: A1 ++ slash :: B) 1 = ends_elem (c :: A1) 1).
    { apply (ends_elem_app (c :: A1) B 1). simpl. lia. }
    assert (Hc2 : Ascii.eqb c dot && at_is (c :: A1 ++ slash :: B) 1 dot
                  && ends_elem (c :: A1 ++ slash :: B) 2
                  = Ascii.eqb c dot && at_is (c :: A1) 1 dot
                    && ends_elem (c :: A1) 2).
    { change (c :: A1 ++ slash :: B) with ((c :: A1) ++ slash :: B).
      rewrite (at_is_dot_app (c :: A1) B 1) by (simpl; lia).
      destruct (at_is (c :: A1) 1 dot) eqn:Hat.
      - rewrite (ends_elem_app (c :: A1) B 2); [reflexivity|].
        unfold at_is in Hat. destruct A1; [discriminate Hat|simpl; lia].
      - rewrite !andb_false_r. reflexivity. }
    destruct (Ascii.eqb c slash) eqn:Hs.
    { apply (Hstep A1 out dd); [lia| | |lia].
      - intros f1 _. cbn [app clean_loop]. rewrite Hs. reflexivity.
      - intros f3 _. cbn [clean_loop]. rewrite Hs. reflexivity. }
    destruct (Ascii.eqb c dot && ends_elem (c :: A1) 1) eqn:Hdot.
    { apply (Hstep A1 out dd); [lia| | |lia].
      - intros f1 _. cbn [app clean_loop]. rewrite Hs.
        rewrite Hc1, Hdot. reflexivity.
      - intros f3 _. cbn [clean_loop]. rewrite Hs, Hdot. reflexivity. }
    destruct (Ascii.eqb c dot && at_is (c :: A1) 1 dot
              && ends_elem (c :: A1) 2) eqn:Hdd.
    { assert (H2 : 2 <= length (c :: A1)).
      { apply andb_true_iff in Hdd as [Hdd _].
        apply andb_true_iff in Hdd as [_ Hat]. unfold at_is in Hat.
        destruct A1; [discriminate Hat|simpl; lia]. }
      assert (Hsk : skipn 2 ((c :: A1) ++ slash :: B)
                    = skipn 2 (c :: A1) ++ slash :: B).
      { destruct A1 as [|d A2]; [simpl in H2; lia|reflexivity]. }
      assert (Hskl : length (skipn 2 (c :: A1)) <= length A1).
      { rewrite length_skipn. simpl. lia. }
      destruct (dd <? length out) eqn:Hlt; [|destruct rooted].
      - apply (Hstep (skipn 2 (c :: A1)) (backtrack out dd) dd);
          [lia| | |exact Hskl].
        + intros f1 _. rewrite <- Hsk. cbn [app clean_loop]. rewrite Hs.
          rewrite Hc1, Hdot, Hc2, Hlt. reflexivity.
        + intros f3 _. cbn [clean_loop]. rewrite Hs, Hdot, Hdd, Hlt. reflexivity.
      - apply (Hstep (skipn 2 (c :: A1)) out dd); [lia| | |exact Hskl].
        + intros f1 _. rewrite <- Hsk. cbn [app clean_loop]. rewrite Hs.
          rewrite Hc1, Hdot, Hc2, Hlt. reflexivity.
        + intros f3 _. cbn [clean_loop]. rewrite Hs, Hdot, Hdd, Hlt. reflexivity.
      - apply (Hstep (skipn 2 (c :: A1))
                 ((if 0 <? length out then out ++ [slash] else out) ++ [dot; dot])
                 (length ((if 0 <? length out then out ++ [slash] else out)
                          ++ [dot; dot])));
          [lia| | |exact Hskl].
        + intros f1 _. rewrite <- Hsk. cbn [app clean_loop]. rewrite Hs.
          rewrite Hc1, Hdot, Hc2, Hlt. reflexivity.
        + intros f3 _. cbn [clean_loop]. rewrite Hs, Hdot, Hdd, Hlt. reflexivity. }
    pose proof (copy_elem_consumes c A1 Hs) as Hce.
    apply (Hstep (snd (copy_elem (c :: A1)))
             ((if (rooted && negb (length out =? 1))
                  || (negb rooted && negb (length out =? 0))
               then out ++ [slash] else out) ++ fst (copy_elem (c :: A1))) dd);
      [lia| | |exact Hce].
    + intros f1 _. cbn [app clean_loop]. rewrite Hs.
      rewrite Hc1, Hdot, Hc2.
      change (c :: A1 ++ slash :: B) with ((c :: A1) ++ slash :: B).
      rewrite copy_elem_app_slash. reflexivity.
    + intros f3 _. cbn [clean_loop]. rewrite Hs, Hdot, Hdd.
      destruct (copy_elem (c :: A1)) as [e r]. reflexivity.
Qed.

Lemma buffer_ok_init (rooted : bool) :
  buffer_ok rooted (if rooted then [slash] else []) (if rooted then 1 else 0).
Proof.
  destruct rooted; repeat split; try reflexivity; simpl; try lia;
    try discriminate; intros; discriminate.
Qed.

(** The loop on a path that ends in a name: the buffer ends in that
    name. *)
Lemma clean_loop_ends_with_name (rooted : bool) (X name out : list ascii)
    (dd f : nat) :
  name_ok name ->
  X = [] \/ (exists X0, X = X0 ++ [slash]) ->
  buffer_ok rooted out dd ->
  length (X ++ name) <= f ->
  exists o1, clean_loop f rooted (X ++ name) out dd = o1 ++ name
             /\ (rooted = true -> o1 <> []).
Proof.
  intros Hname HX Hok Hf.
  assert (Hlast : forall (o : list ascii) (d g : nat),
             buffer_ok rooted o d -> length name <= g ->
             exists o1, clean_loop g rooted name o d = o1 ++ name
                        /\ (rooted = true -> o1 <> [])).
  { intros o d g Ho Hg. destruct g as [|g].
    { destruct Hname as (Hne & _). destruct name; [contradiction|simpl in Hg; lia]. }
    replace (clean_loop (Datatypes.S g) rooted name o d)
      with (clean_loop (Datatypes.S g) rooted (name ++ []) o d)
      by (now rewrite app_nil_r).
    rewrite step_name by (auto; now right). rewrite clean_loop_nil.
    eexists. split; [reflexivity|].
    intros Hr. destruct Ho as (_ & _ & _ & _ & Hs). destruct (Hs Hr) as [_ Hst].
    destruct o; [discriminate Hst|].
    destruct (_ || _); discriminate. }
  destruct HX as [-> | (X0 & ->)].
  - apply Hlast; assumption.
  - rewrite <- app_assoc. cbn [app].
    destruct (clean_loop_split (length X0) X0 (le_n _) rooted name out dd)
      as (dd' & Hsp).
    rewrite (Hsp f (length name) (length X0));
      [| rewrite <- app_assoc in Hf; exact Hf | lia | lia].
    destruct (clean_loop_ok (length X0) rooted X0 out dd Hok) as (d2 & Hok2).
    pose proof Hok2 as (B1 & B2 & B3 & B4 & B5).
    assert (Hany : forall d, buffer_ok rooted
                               (clean_loop (length X0) rooted X0 out dd) d
                             -> True) by auto.
    clear Hany.
    (* the loop on the name does not read [dotdot] *)
    destruct (length name) as [|g] eqn:Hg.
    { destruct Hname as (Hne & _). destruct name; [contradiction|discriminate Hg]. }
    match goal with
    | |- context [clean_loop ?g0 rooted name ?o ?d] =>
        replace (clean_loop g0 rooted name o d)
          with (clean_loop g0 rooted (name ++ []) o d)
          by (now rewrite app_nil_r)
    end.
    rewrite step_name by (auto; now right). rewrite clean_loop_nil.
    eexists. split; [reflexivity|].
    intros Hr. destruct (B5 Hr) as [_ Hst].
    destruct (clean_loop (length X0) rooted X0 out dd); [discriminate Hst|].
    destruct (_ || _); discriminate.
Qed.

Lemma string_of_list_ascii_app (a b : list ascii) :
  string_of_list_ascii (a ++ b)
  = (string_of_list_ascii a ++ string_of_list_ascii b)%string.
Proof. induction a as [|x a IH]; simpl; [reflexivity|now rewrite IH]. Qed.

(** [Clean] of a path that ends in a name, and of the same path with a
    slash and a path without [..] after it: the second extends the
    first, by nothing or from a slash on. *)
Lemma Clean_under (X name pathl : list ascii) :
  name_ok name ->
  X = [] \/ (exists X0, X = X0 ++ [slash]) ->
  no_dotdot_from true pathl = true ->
  exists s,
    Clean (string_of_list_ascii ((X ++ name) ++ slash :: pathl))
    = (Clean (string_of_list_ascii (X ++ name)) ++ string_of_list_ascii s)%string
    /\ (s = [] \/ starts_slash s = true).
Proof.
  intros Hname HX Hn. unfold Clean.
  rewrite !list_ascii_of_string_of_list_ascii.
  assert (Hgen : forall (rooted : bool) (R : list ascii) (f1 f3 : nat),
             (exists X', R = X' ++ name
                         /\ (X' = [] \/ exists X0, X' = X0 ++ [slash])) ->
             length (R ++ slash :: pathl) <= f1 -> length R <= f3 ->
             let out0 := if rooted then [slash] else [] in
             let dd0 := if rooted then 1 else 0 in
             exists s,
               clean_loop f1 rooted (R ++ slash :: pathl) out0 dd0
               = clean_loop f3 rooted R out0 dd0 ++ s
               /\ clean_loop f3 rooted R out0 dd0 <> []
               /\ (s = [] \/ starts_slash s = true)).
  { intros rooted R f1 f3 (X' & -> & HX') H1 H3 out0 dd0.
    destruct (clean_loop_split (length (X' ++ name)) (X' ++ name) (le_n _)
                rooted pathl out0 dd0) as (dd' & Hsp).
    rewrite (Hsp f1 (length pathl) f3 H1 (le_n _) H3).
    destruct (clean_loop_ends_with_name rooted X' name out0 dd0 f3 Hname HX'
                (buffer_ok_init rooted) H3) as (o1 & Ho & Hne).
    destruct (clean_loop_extends (length pathl) rooted pathl
                (clean_loop f3 rooted (X' ++ name) out0 dd0) dd') as (s & Hs1 & Hs2);
      [|exact Hn|].
    { rewrite Ho, length_app. destruct Hname as (Hn0 & _).
      destruct name; [contradiction|]. simpl.
      destruct rooted; [|lia].
      specialize (Hne eq_refl). destruct o1; [contradiction|simpl; lia]. }
    exists s. split; [exact Hs1|]. split; [|exact Hs2].
    rewrite Ho. destruct Hname as (Hn0 & _).
    destruct name; [contradiction|]. destruct o1; discriminate. }
  destruct (X ++ name) as [|c Pl'] eqn:EP.
  { destruct Hname as (Hn0 & _). apply app_eq_nil in EP as [_ ->]. contradiction. }
  cbn [app]. destruct (Ascii.eqb c slash) eqn:Hc.
  - (* rooted *)
    assert (HR : exists X', Pl' = X' ++ name
                            /\ (X' = [] \/ exists X0, X' = X0 ++ [slash])).
    { destruct X as [|x X1].
      - cbn [app] in EP. subst name. destruct Hname as (_ & Hns & _).
        cbn [noslash forallb] in Hns. rewrite Hc in Hns. discriminate Hns.
      - cbn [app] in EP. injection EP as -> <-. exists X1. split; [reflexivity|].
        destruct HX as [HX | (X0 & HX)]; [discriminate HX|].
        destruct X0 as [|y X0]; cbn [app] in HX; injection HX as _ ->.
        + now left.
        + right. now exists X0. }
    destruct (Hgen true Pl' (length (c :: Pl' ++ slash :: pathl))
                (length (c :: Pl')) HR) as (s & Hs & Hne & Hshape);
      [simpl; lia|simpl; lia|].
    change (skipn 1 (c :: Pl' ++ slash :: pathl)) with (Pl' ++ slash :: pathl).
    change (skipn 1 (c :: Pl')) with Pl'.
    rewrite Hs. exists s. split; [|exact Hshape].
    destruct (clean_loop (length (c :: Pl')) true Pl' [slash] 1) as [|o O];
      [contradiction|].
    cbn [app]. rewrite <- string_of_list_ascii_app. reflexivity.
  - (* not rooted *)
    assert (HR : exists X', c :: Pl' = X' ++ name
                            /\ (X' = [] \/ exists X0, X' = X0 ++ [slash])).
    { exists X. split; [symmetry; exact EP|exact HX]. }
    destruct (Hgen false (c :: Pl') (length (c :: Pl' ++ slash :: pathl))
                (length (c :: Pl')) HR) as (s & Hs & Hne & Hshape);
      [simpl; lia|simpl; lia|].
    cbn [app] in Hs. rewrite Hs. exists s. split; [|exact Hshape].
    destruct (clean_loop (length (c :: Pl')) false (c :: Pl') [] 0) as [|o O];
      [contradiction|].
    cbn [app]. rewrite <- string_of_list_ascii_app. reflexivity.
Qed.

End StaticFacts.

Section StaticDirFacts.

Import Renderer PathDotDot.

Variable formats : gmap string string.
Variable app : Application.
Variable fs : gmap string File.
Variable byExt byBody : string -> string.

Lemma string_as_list (t : string) (l : list ascii) :
  list_ascii_of_string t = l -> t = string_of_list_ascii l.
Proof. intros <-. symmetry. apply string_of_list_ascii_of_string. Qed.

(** [filepath.Join] of a directory, [public] and a path without [..]
    extends [filepath.Join] of the directory and [public]. *)
Lemma Join_under (dir path : string) :
  no_dotdot path = true ->
  exists s,
    Path.Join [dir; StaticDir; path] = (Path.Join [dir; StaticDir] ++ s)%string
    /\ (s = "" \/ String.prefix "/" s = true).
Proof.
  intros Hn. unfold no_dotdot in Hn.
  assert (Hname : PathSpec.name_ok (list_ascii_of_string StaticDir)).
  { repeat split; try discriminate; reflexivity. }
  assert (Hshape : forall s : list ascii,
             s = [] \/ PathSpec.starts_slash s = true ->
             string_of_list_ascii s = ""
             \/ String.prefix "/" (string_of_list_ascii s) = true).
  { intros s [-> | Hs]; [now left|right].
    destruct s as [|x s]; [discriminate Hs|]. cbn in Hs.
    apply Ascii.eqb_eq in Hs. subst x. cbn.
    destruct (string_of_list_ascii s); reflexivity. }
  destruct (String.eqb dir "") eqn:Hd.
  - apply String.eqb_eq in Hd. subst dir.
    destruct (Clean_under [] (list_ascii_of_string StaticDir)
                (list_ascii_of_string path) Hname (or_introl eq_refl) Hn)
      as (s & Hs & Hsh).
    exists (string_of_list_ascii s). split; [|apply Hshape; exact Hsh].
    cbn [Path.Join String.eqb]. change (String.eqb StaticDir "") with false.
    cbn [Path.join_slash]. cbn [List.app] in Hs.
    rewrite (string_as_list (StaticDir ++ "/" ++ path)
               (list_ascii_of_string StaticDir ++ Path.slash :: list_ascii_of_string path)).
    + rewrite Hs. rewrite string_of_list_ascii_of_string. reflexivity.
    + rewrite !list_ascii_of_string_app. reflexivity.
  - destruct (Clean_under (list_ascii_of_string dir ++ [Path.slash])
                (list_ascii_of_string StaticDir) (list_ascii_of_string path)
                Hname (or_intror (ex_intro _ _ eq_refl)) Hn)
      as (s & Hs & Hsh).
    exists (string_of_list_ascii s). split; [|apply Hshape; exact Hsh].
    cbn [Path.Join]. rewrite Hd. cbn [Path.join_slash].
    rewrite (string_as_list (dir ++ "/" ++ StaticDir ++ "/" ++ path)
               (((list_ascii_of_string dir ++ [Path.slash])
                 ++ list_ascii_of_string StaticDir)
                ++ Path.slash :: list_ascii_of_string path)).
    + rewrite Hs. f_equal. f_equal. symmetry. apply string_as_list.
      rewrite !list_ascii_of_string_app, <- !app_assoc. reflexivity.
    + rewrite !list_ascii_of_string_app, <- !app_assoc. reflexivity.
Qed.

(** X20: on a relative path without an element [..], for which there is
    no resource, [SendFile] reads no file outside the static directory:
    the path it looks up is that of the directory, or that followed by a
    slash and more. *)
Theorem SendFile_stays_in_StaticDir (c : Context) (path : string) :
  Path.IsAbs path = false ->
  no_dotdot path = true ->
  exists s,
    let dir := Path.Join [AppPath app; StaticDir] in
    let path' := Path.Join [AppPath app; StaticDir; path] in
    path' = (dir ++ s)%string
    /\ (s = "" \/ String.prefix "/" s = true)
    /\ (ResourceSet app !! path = None \/ ResourceSet app !! path = Some ROther ->
        SendFile formats app fs byExt byBody c path
        = match fs !! path' with
          | None => RenderError formats app c Http.StatusNotFound VNil
          | Some f =>
              match openErr f with
              | Some err => (Some err, c)
              | None => send byExt byBody c path' (content f)
              end
          end).
Proof.
  intros Habs Hn. destruct (Join_under (AppPath app) path Hn) as (s & Hs & Hsh).
  exists s. cbv zeta. split; [exact Hs|]. split; [exact Hsh|].
  intros Hr. unfold SendFile. rewrite Habs. cbn [negb].
  destruct Hr as [-> | ->]; reflexivity.
Qed.

End StaticDirFacts.

(** The same on the application of the fixture and the path
    [css//./site.css]. *)
Lemma SendFile_stays_in_StaticDir_witness :
  exists s,
    Path.Join [Renderer.AppPath Fixture.app; Renderer.StaticDir; "css//./site.css"]
    = ("/srv/app/public" ++ s)%string
    /\ (s = "" \/ String.prefix "/" s = true).
Proof.
  destruct (SendFile_stays_in_StaticDir Controller.MimeTypeFormats Fixture.app
              Fixture.fs Fixture.byExt Fixture.byBody Fixture.freshContext
              "css//./site.css" eq_refl eq_refl) as (s & H1 & H2 & _).
  exists s. split; [exact H1|exact H2].
Defined.
